(** * iframe-resizing: the resize dispatcher, the observer bridge and the
      lifecycle entry points, over an explicit model of the browser state

    The source ([iframe-resizing.ts], [types.ts]) is event driven: it
    registers callbacks with the platform (window [message] listeners,
    [setTimeout] timers, a [ResizeObserver], a [DOMContentLoaded] listener)
    and the platform calls them back.  The embedding keeps the platform
    tables the source reads and writes in one record, [World], writes
    every source function as a function on that record, and lets the
    platform's part (delivering a message, letting time pass, notifying an
    observer, firing the ready event) be the constructors of [Event].

    A closure is represented by the values it captured; two closures made
    by two calls are told apart by the identity of the promise (for the
    dispatcher) or of the cell (for the deferred cleanup) they belong to. *)

From Stdlib Require Import PrimFloat NArith Ascii.
From Stdlib Require HexString.
From stdpp Require Import base tactics option list strings pretty.

Local Open Scope string_scope.
Local Open Scope N_scope.
Local Open Scope list_scope.

(** ** types.ts *)

Inductive Participant := PARENT | CHILD.

(** [participants.PARENT] is ['parent'], [participants.CHILD] is ['child']. *)
Definition participant_string (p : Participant) : string :=
  match p with PARENT => "parent" | CHILD => "child" end.

(** A JavaScript value, as far as message data and payloads need it.  A
    number is an IEEE 754 double, which is what [float] is. *)
#[warnings="-register-all"]
Inductive Value :=
| VUndefined
| VNull
| VBoolean (b : bool)
| VNumber (x : float)
| VString (s : string)
| VArray (items : list Value)
| VObject (props : list (string * Value)).

(** [interface Command]; [payload] is [unknown[][]]. *)
Record Command := {
  c_id : string;
  c_sender : Participant;
  c_receiver : Participant;
  c_name : string;
  c_payload : list (list Value)
}.

(** [interface CommandResponse]. *)
Record CommandResponse := {
  r_id : string;
  r_correspondingCommandId : string;
  r_sender : Participant;
  r_receiver : Participant;
  r_payload : Value
}.

(** The object a parent posts for a well-typed response: what arrives as
    [event.data] in the child. *)
Definition response_data (r : CommandResponse) : Value :=
  VObject [("id", VString (r_id r));
           ("correspondingCommandId", VString (r_correspondingCommandId r));
           ("sender", VString (participant_string (r_sender r)));
           ("receiver", VString (participant_string (r_receiver r)));
           ("payload", r_payload r)].

Record Error := { message : string }.

(** How a call of host code ends. *)
Inductive Completion := Normal | Throw.

(** A hook supplied by the integrator.  The module only calls it; what it
    does besides returning or throwing is outside the module's state. *)
Record Hook := { hook_label : string; hook_run : Error → Completion }.

(** [interface IFrameResizingOptions]; an absent field is [None]. *)
Record IFrameResizingOptions := {
  onError : option Hook;
  captureError : option Hook
}.

(** ** JavaScript operations the source uses on message data *)

Fixpoint assoc (k : string) (props : list (string * Value)) : option Value :=
  match props with
  | [] => None
  | (k', v) :: rest => if String.eqb k k' then Some v else assoc k rest
  end.

(** [v.k] for an own data property [k]: reading a property of [undefined]
    or [null] throws a TypeError ([None]); a missing property reads as
    [undefined].  Used for [receiver] and [correspondingCommandId], which
    no primitive or array has. *)
Definition get_property (v : Value) (k : string) : option Value :=
  match v with
  | VUndefined | VNull => None
  | VObject props => Some (default VUndefined (assoc k props))
  | _ => Some VUndefined
  end.

(** [a === b].  Objects and arrays compare by identity, and a value that
    arrived in a message is a fresh structured clone, identical to nothing
    the module holds. *)
Definition strict_equals (a b : Value) : bool :=
  match a, b with
  | VUndefined, VUndefined => true
  | VNull, VNull => true
  | VBoolean x, VBoolean y => Bool.eqb x y
  | VNumber x, VNumber y => PrimFloat.eqb x y
  | VString x, VString y => String.eqb x y
  | _, _ => false
  end.

(** ** The browser state *)

Inductive PromiseState := Pending | Fulfilled | Rejected (reason : Error).

(** A promise made by [sendResizeCommand], with the handler the bridge
    attached by [.catch] (the handler closes over the options). *)
Record Promise := {
  p_state : PromiseState;
  p_catch : option IFrameResizingOptions
}.

(** The [listener] closure of one [sendResizeCommand] call: it captured
    [command], [timeout] and [resolve]. *)
Record Listener := {
  l_dispatch : nat;
  l_command : Command;
  l_timeout : nat
}.

(** An armed timer whose callback is the arrow function passed to
    [setTimeout] in [sendResizeCommand]: it captured [listener] and
    [reject] of dispatch [t_dispatch]. *)
Record Timer := {
  t_handle : nat;
  t_due : N;
  t_dispatch : nat
}.

(** A reaction job on the microtask queue: the [.catch] handler with the
    rejection reason. *)
Inductive Job := CatchJob (options : IFrameResizingOptions) (error : Error).

Definition Element := nat.

Record DOMRectReadOnly := {
  rect_x : float; rect_y : float; rect_width : float; rect_height : float
}.

Record ResizeObserverSize := { inlineSize : float; blockSize : float }.

Record ResizeObserverEntry := {
  target : Element;
  contentRect : DOMRectReadOnly;
  borderBoxSize : list ResizeObserverSize;
  contentBoxSize : list ResizeObserverSize
}.

(** A [ResizeObserver] made by [initIFrameResizing]: its callback closes
    over the options; [o_targets] are the elements it observes. *)
Record Observer := {
  o_options : IFrameResizingOptions;
  o_targets : list Element
}.

Inductive ReadyState := Loading | Interactive | Complete.

(** The two arrow functions [initIFrameResizing] returns. *)
Inductive InitCleanup :=
| NoOp                        (* () => {} *)
| Disconnect (observer : nat) (* () => { observer.disconnect(); } *).

(** What [autoInitIFrameResizing] returns: a function [initIFrameResizing]
    returned, or [() => cleanup()] reading the variable [cleanup]. *)
Inductive Cleanup :=
| Direct (f : InitCleanup)
| CallVariable (cell : nat).

(** The listener [autoInitIFrameResizing] adds for [DOMContentLoaded]: it
    captured [options] and the variable [cleanup]. *)
Record ReadyListener := {
  rl_options : IFrameResizingOptions;
  rl_cell : nat
}.

Inductive ExportedFunction := Fn_initIFrameResizing | Fn_autoInitIFrameResizing.

(** The object assigned to [window.IFrameResizing]. *)
Record Namespace := {
  ns_init : ExportedFunction;
  ns_autoInit : ExportedFunction
}.

(** What the module does to the outside, in the order it does it. *)
Inductive Effect :=
| PostMessage (data : Command) (targetOrigin : string)
| ConsoleWarn (text : string)
| Invoke (h : Hook) (error : Error)
| UncaughtError         (* a listener threw; the platform reports it *)
| UnhandledRejection    (* the promise [.catch] returned was rejected *).

Record World := {
  w_now : N;                              (* milliseconds *)
  w_uuids : nat;                          (* identifiers drawn so far *)
  w_next_timer : nat;
  w_timers : list Timer;                  (* armed timers, earliest first *)
  w_listeners : list Listener;            (* window 'message' listeners *)
  w_promises : list Promise;              (* index = identity *)
  w_microtasks : list Job;
  w_observers : list Observer;            (* index = identity *)
  w_readyState : ReadyState;              (* document.readyState *)
  w_body : option Element;                (* document.body *)
  w_ready_listeners : list ReadyListener; (* document 'DOMContentLoaded' *)
  w_cells : list InitCleanup;             (* the [let cleanup] variables *)
  w_namespace : option Namespace;         (* window.IFrameResizing *)
  w_trace : list Effect
}.

(** The global scope the module runs in: without a [window] only the
    console is there. *)
Inductive Realm :=
| ServerSide (console : list Effect)
| BrowserSide (w : World).

Definition set_now (x : N) (w : World) : World :=
  {| w_now := x; w_uuids := w_uuids w; w_next_timer := w_next_timer w;
     w_timers := w_timers w; w_listeners := w_listeners w;
     w_promises := w_promises w; w_microtasks := w_microtasks w;
     w_observers := w_observers w; w_readyState := w_readyState w;
     w_body := w_body w; w_ready_listeners := w_ready_listeners w;
     w_cells := w_cells w; w_namespace := w_namespace w;
     w_trace := w_trace w |}.

Definition set_uuids (x : nat) (w : World) : World :=
  {| w_now := w_now w; w_uuids := x; w_next_timer := w_next_timer w;
     w_timers := w_timers w; w_listeners := w_listeners w;
     w_promises := w_promises w; w_microtasks := w_microtasks w;
     w_observers := w_observers w; w_readyState := w_readyState w;
     w_body := w_body w; w_ready_listeners := w_ready_listeners w;
     w_cells := w_cells w; w_namespace := w_namespace w;
     w_trace := w_trace w |}.

Definition set_timers (next : nat) (x : list Timer) (w : World) : World :=
  {| w_now := w_now w; w_uuids := w_uuids w; w_next_timer := next;
     w_timers := x; w_listeners := w_listeners w;
     w_promises := w_promises w; w_microtasks := w_microtasks w;
     w_observers := w_observers w; w_readyState := w_readyState w;
     w_body := w_body w; w_ready_listeners := w_ready_listeners w;
     w_cells := w_cells w; w_namespace := w_namespace w;
     w_trace := w_trace w |}.

Definition set_listeners (x : list Listener) (w : World) : World :=
  {| w_now := w_now w; w_uuids := w_uuids w; w_next_timer := w_next_timer w;
     w_timers := w_timers w; w_listeners := x;
     w_promises := w_promises w; w_microtasks := w_microtasks w;
     w_observers := w_observers w; w_readyState := w_readyState w;
     w_body := w_body w; w_ready_listeners := w_ready_listeners w;
     w_cells := w_cells w; w_namespace := w_namespace w;
     w_trace := w_trace w |}.

Definition set_promises (x : list Promise) (w : World) : World :=
  {| w_now := w_now w; w_uuids := w_uuids w; w_next_timer := w_next_timer w;
     w_timers := w_timers w; w_listeners := w_listeners w;
     w_promises := x; w_microtasks := w_microtasks w;
     w_observers := w_observers w; w_readyState := w_readyState w;
     w_body := w_body w; w_ready_listeners := w_ready_listeners w;
     w_cells := w_cells w; w_namespace := w_namespace w;
     w_trace := w_trace w |}.

Definition set_microtasks (x : list Job) (w : World) : World :=
  {| w_now := w_now w; w_uuids := w_uuids w; w_next_timer := w_next_timer w;
     w_timers := w_timers w; w_listeners := w_listeners w;
     w_promises := w_promises w; w_microtasks := x;
     w_observers := w_observers w; w_readyState := w_readyState w;
     w_body := w_body w; w_ready_listeners := w_ready_listeners w;
     w_cells := w_cells w; w_namespace := w_namespace w;
     w_trace := w_trace w |}.

Definition set_observers (x : list Observer) (w : World) : World :=
  {| w_now := w_now w; w_uuids := w_uuids w; w_next_timer := w_next_timer w;
     w_timers := w_timers w; w_listeners := w_listeners w;
     w_promises := w_promises w; w_microtasks := w_microtasks w;
     w_observers := x; w_readyState := w_readyState w;
     w_body := w_body w; w_ready_listeners := w_ready_listeners w;
     w_cells := w_cells w; w_namespace := w_namespace w;
     w_trace := w_trace w |}.

Definition set_readyState (x : ReadyState) (w : World) : World :=
  {| w_now := w_now w; w_uuids := w_uuids w; w_next_timer := w_next_timer w;
     w_timers := w_timers w; w_listeners := w_listeners w;
     w_promises := w_promises w; w_microtasks := w_microtasks w;
     w_observers := w_observers w; w_readyState := x;
     w_body := w_body w; w_ready_listeners := w_ready_listeners w;
     w_cells := w_cells w; w_namespace := w_namespace w;
     w_trace := w_trace w |}.

Definition set_ready_listeners (x : list ReadyListener) (w : World) : World :=
  {| w_now := w_now w; w_uuids := w_uuids w; w_next_timer := w_next_timer w;
     w_timers := w_timers w; w_listeners := w_listeners w;
     w_promises := w_promises w; w_microtasks := w_microtasks w;
     w_observers := w_observers w; w_readyState := w_readyState w;
     w_body := w_body w; w_ready_listeners := x;
     w_cells := w_cells w; w_namespace := w_namespace w;
     w_trace := w_trace w |}.

Definition set_cells (x : list InitCleanup) (w : World) : World :=
  {| w_now := w_now w; w_uuids := w_uuids w; w_next_timer := w_next_timer w;
     w_timers := w_timers w; w_listeners := w_listeners w;
     w_promises := w_promises w; w_microtasks := w_microtasks w;
     w_observers := w_observers w; w_readyState := w_readyState w;
     w_body := w_body w; w_ready_listeners := w_ready_listeners w;
     w_cells := x; w_namespace := w_namespace w;
     w_trace := w_trace w |}.

Definition set_namespace (x : option Namespace) (w : World) : World :=
  {| w_now := w_now w; w_uuids := w_uuids w; w_next_timer := w_next_timer w;
     w_timers := w_timers w; w_listeners := w_listeners w;
     w_promises := w_promises w; w_microtasks := w_microtasks w;
     w_observers := w_observers w; w_readyState := w_readyState w;
     w_body := w_body w; w_ready_listeners := w_ready_listeners w;
     w_cells := w_cells w; w_namespace := x;
     w_trace := w_trace w |}.

Definition set_body (x : option Element) (w : World) : World :=
  {| w_now := w_now w; w_uuids := w_uuids w; w_next_timer := w_next_timer w;
     w_timers := w_timers w; w_listeners := w_listeners w;
     w_promises := w_promises w; w_microtasks := w_microtasks w;
     w_observers := w_observers w; w_readyState := w_readyState w;
     w_body := x; w_ready_listeners := w_ready_listeners w;
     w_cells := w_cells w; w_namespace := w_namespace w;
     w_trace := w_trace w |}.

Definition set_trace (x : list Effect) (w : World) : World :=
  {| w_now := w_now w; w_uuids := w_uuids w; w_next_timer := w_next_timer w;
     w_timers := w_timers w; w_listeners := w_listeners w;
     w_promises := w_promises w; w_microtasks := w_microtasks w;
     w_observers := w_observers w; w_readyState := w_readyState w;
     w_body := w_body w; w_ready_listeners := w_ready_listeners w;
     w_cells := w_cells w; w_namespace := w_namespace w;
     w_trace := x |}.

Definition emit (e : Effect) (w : World) : World :=
  set_trace (w_trace w ++ [e]) w.

(** ** Platform primitives *)

(** Timers are kept in the order they fall due; among equal due times the
    one set first fires first. *)
Fixpoint insert_timer (t : Timer) (ts : list Timer) : list Timer :=
  match ts with
  | [] => [t]
  | t' :: rest =>
      if t_due t <? t_due t' then t :: ts else t' :: insert_timer t rest
  end.

(** [setTimeout(callback, delay)] for the timeout callback of dispatch [d]. *)
Definition setTimeout (d : nat) (delay : N) (w : World) : nat * World :=
  let h := w_next_timer w in
  (h, set_timers (S h)
        (insert_timer {| t_handle := h; t_due := w_now w + delay;
                         t_dispatch := d |} (w_timers w)) w).

(** [clearTimeout(h)]. *)
Definition clearTimeout (h : nat) (w : World) : World :=
  set_timers (w_next_timer w)
    (filter (λ t, t_handle t ≠ h) (w_timers w)) w.

(** [window.addEventListener('message', listener, false)]; every call of
    [sendResizeCommand] makes a new [listener], so none is added twice. *)
Definition addEventListener_message (l : Listener) (w : World) : World :=
  set_listeners (w_listeners w ++ [l]) w.

(** [window.removeEventListener('message', listener)] for the listener of
    dispatch [d]. *)
Definition removeEventListener_message (d : nat) (w : World) : World :=
  set_listeners (filter (λ l, l_dispatch l ≠ d) (w_listeners w)) w.

(** [window.parent.postMessage(command, targetOrigin)]. *)
Definition postMessage (c : Command) (targetOrigin : string) (w : World)
  : World :=
  emit (PostMessage c targetOrigin) w.

Definition console_warn (text : string) (w : World) : World :=
  emit (ConsoleWarn text) w.

(** [new Promise(...)]: the promise the executor is about to run for. *)
Definition new_promise (w : World) : nat * World :=
  (length (w_promises w),
   set_promises (w_promises w ++ [{| p_state := Pending; p_catch := None |}]) w).

Definition enqueue (j : Job) (w : World) : World :=
  set_microtasks (w_microtasks w ++ [j]) w.

(** [resolve()]: settles a pending promise, does nothing to a settled one. *)
Definition resolve (p : nat) (w : World) : World :=
  match w_promises w !! p with
  | Some {| p_state := Pending; p_catch := k |} =>
      set_promises
        (<[p := {| p_state := Fulfilled; p_catch := k |}]> (w_promises w)) w
  | _ => w
  end.

(** [reject(error)]: settles a pending promise and queues its [.catch]
    handler; does nothing to a settled one. *)
Definition reject (p : nat) (error : Error) (w : World) : World :=
  match w_promises w !! p with
  | Some {| p_state := Pending; p_catch := k |} =>
      let w := set_promises
                 (<[p := {| p_state := Rejected error; p_catch := k |}]>
                    (w_promises w)) w in
      match k with
      | Some options => enqueue (CatchJob options error) w
      | None => w
      end
  | _ => w
  end.

(** [promise.catch(handler)], the handler closing over [options]. *)
Definition promise_catch (p : nat) (options : IFrameResizingOptions)
    (w : World) : World :=
  match w_promises w !! p with
  | Some {| p_state := Pending; p_catch := _ |} =>
      set_promises
        (<[p := {| p_state := Pending; p_catch := Some options |}]>
           (w_promises w)) w
  | Some {| p_state := Rejected error; p_catch := _ |} =>
      enqueue (CatchJob options error) w
  | _ => w
  end.

(** Calling a hook: the call is recorded, the hook returns or throws. *)
Definition invoke (h : Hook) (error : Error) (w : World) : Completion * World :=
  (hook_run h error, emit (Invoke h error) w).

(** [new ResizeObserver(callback)], [observer.observe(target)],
    [observer.disconnect()]. *)
Definition new_ResizeObserver (options : IFrameResizingOptions) (w : World)
  : nat * World :=
  (length (w_observers w),
   set_observers
     (w_observers w ++ [{| o_options := options; o_targets := [] |}]) w).

Definition observe (o : nat) (e : Element) (w : World) : World :=
  set_observers
    (alter (λ ob, {| o_options := o_options ob;
                     o_targets := o_targets ob ++ [e] |}) o (w_observers w)) w.

Definition disconnect (o : nat) (w : World) : World :=
  set_observers
    (alter (λ ob, {| o_options := o_options ob; o_targets := [] |})
       o (w_observers w)) w.

(** ** iframe-resizing.ts *)

(** The arrow function of [.catch] in the observer callback:
    [console.warn(error.message)], then the two hooks when present.  A
    hook that throws ends the handler there. *)
Definition catch_handler (options : IFrameResizingOptions) (error : Error)
    (w : World) : Completion * World :=
  let w := console_warn (message error) w in
  let '(c, w) := match onError options with
                 | Some h => invoke h error w
                 | None => (Normal, w)
                 end in
  match c with
  | Throw => (Throw, w)
  | Normal =>
      match captureError options with
      | Some h => invoke h error w
      | None => (Normal, w)
      end
  end.

Definition run_job (j : Job) (w : World) : World :=
  match j with
  | CatchJob options error =>
      let '(c, w) := catch_handler options error w in
      match c with
      | Normal => w
      | Throw => emit UnhandledRejection w
      end
  end.

(** The microtask checkpoint after a callback returns. *)
Definition run_microtasks (w : World) : World :=
  fold_left (λ w j, run_job j w) (w_microtasks w) (set_microtasks [] w).

Definition timeout_error : Error :=
  {| message := "Timeout exceeded for command resize" |}.

(** The callback given to [setTimeout] in [sendResizeCommand]. *)
Definition timeout_callback (d : nat) (w : World) : World :=
  let w := removeEventListener_message d w in
  reject d timeout_error w.

(** [function listener({ data: commandResponse })].  The two operands of
    [||] are evaluated in order, the second only when the first is
    false. *)
Definition listener (l : Listener) (data : Value) (w : World)
  : Completion * World :=
  let command := l_command l in
  match get_property data "receiver" with
  | None => (Throw, w)
  | Some receiver =>
      if negb (strict_equals
                 (VString (participant_string (c_sender command))) receiver)
      then (Normal, w) (* this is not the response we are looking for *)
      else
        match get_property data "correspondingCommandId" with
        | None => (Throw, w)
        | Some correspondingCommandId =>
            if negb (strict_equals (VString (c_id command))
                       correspondingCommandId)
            then (Normal, w)
            else
              let w := clearTimeout (l_timeout l) w in
              let w := removeEventListener_message (l_dispatch l) w in
              (Normal, resolve (l_dispatch l) w)
        end
  end.

Section Dispatcher.

(** [uuidv4] of the [uuid] package: the [n]-th identifier it hands out. *)
Variable uuid : nat → string.

Definition uuidv4 (w : World) : string * World :=
  (uuid (w_uuids w), set_uuids (S (w_uuids w)) w).

(** [function sendResizeCommand(height)]: the executor of the new promise
    runs at once; the result is the promise. *)
Definition sendResizeCommand (height : float) (w : World) : nat * World :=
  let '(promise, w) := new_promise w in
  let '(i, w) := uuidv4 w in
  let command := {| c_id := i; c_sender := CHILD; c_receiver := PARENT;
                    c_name := "resize";
                    c_payload := [[VNumber height]] |} in
  let '(timeout, w) := setTimeout promise 20000 w in
  let w := addEventListener_message
             {| l_dispatch := promise; l_command := command;
                l_timeout := timeout |} w in
  let w := postMessage command "*" w in
  (promise, w).

(** The callback of the [ResizeObserver]. *)
Definition observer_callback (options : IFrameResizingOptions)
    (entries : list ResizeObserverEntry) (w : World) : World :=
  match entries with
  | [] => w
  | entry :: _ =>
      let '(promise, w) :=
        sendResizeCommand (rect_height (contentRect entry)) w in
      promise_catch promise options w
  end.

End Dispatcher.

(** The browser branch of [initIFrameResizing]. *)
Definition initIFrameResizing_browser (options : IFrameResizingOptions)
    (w : World) : InitCleanup * World :=
  let '(observer, w) := new_ResizeObserver options w in
  let w := match w_body w with
           | Some body => observe observer body w
           | None =>
               console_warn "initIFrameResizing: Document body not found" w
           end in
  (Disconnect observer, w).

Definition initIFrameResizing (options : IFrameResizingOptions) (r : Realm)
  : InitCleanup * Realm :=
  match r with
  | ServerSide console =>
      (NoOp,
       ServerSide
         (console ++
          [ConsoleWarn "initIFrameResizing: Cannot initialize on server side"]))
  | BrowserSide w =>
      let '(cleanup, w) := initIFrameResizing_browser options w in
      (cleanup, BrowserSide w)
  end.

Definition new_cell (f : InitCleanup) (w : World) : nat * World :=
  (length (w_cells w), set_cells (w_cells w ++ [f]) w).

Definition addEventListener_DOMContentLoaded (l : ReadyListener) (w : World)
  : World :=
  set_ready_listeners (w_ready_listeners w ++ [l]) w.

(** The browser branch of [autoInitIFrameResizing]. *)
Definition autoInitIFrameResizing_browser (options : IFrameResizingOptions)
    (w : World) : Cleanup * World :=
  match w_readyState w with
  | Loading =>
      let '(cell, w) := new_cell NoOp w in
      let w := addEventListener_DOMContentLoaded
                 {| rl_options := options; rl_cell := cell |} w in
      (CallVariable cell, w)
  | _ =>
      let '(cleanup, w) := initIFrameResizing_browser options w in
      (Direct cleanup, w)
  end.

Definition autoInitIFrameResizing (options : IFrameResizingOptions) (r : Realm)
  : Cleanup * Realm :=
  match r with
  | ServerSide console => (Direct NoOp, ServerSide console)
  | BrowserSide w =>
      let '(cleanup, w) := autoInitIFrameResizing_browser options w in
      (cleanup, BrowserSide w)
  end.

(** The listener of [DOMContentLoaded]:
    [cleanup = initIFrameResizing(options)]. *)
Definition ready_listener (l : ReadyListener) (w : World) : World :=
  let '(f, w) := initIFrameResizing_browser (rl_options l) w in
  set_cells (<[rl_cell l := f]> (w_cells w)) w.

Definition call_init_cleanup (f : InitCleanup) (w : World) : World :=
  match f with
  | NoOp => w
  | Disconnect observer => disconnect observer w
  end.

(** Calling a cleanup function in the browser. *)
Definition call_cleanup (c : Cleanup) (w : World) : World :=
  match c with
  | Direct f => call_init_cleanup f w
  | CallVariable cell =>
      call_init_cleanup (default NoOp (w_cells w !! cell)) w
  end.

(** Calling a cleanup function anywhere: without a [window] the only
    cleanup ever handed out is [() => {}]. *)
Definition call_cleanup_in (c : Cleanup) (r : Realm) : Realm :=
  match r with
  | ServerSide console => ServerSide console
  | BrowserSide w => BrowserSide (call_cleanup c w)
  end.

(** The statement at the end of the module, run when it is loaded. *)
Definition load_module (r : Realm) : Realm :=
  match r with
  | ServerSide console => ServerSide console
  | BrowserSide w =>
      BrowserSide
        (set_namespace
           (Some {| ns_init := Fn_initIFrameResizing;
                    ns_autoInit := Fn_autoInitIFrameResizing |}) w)
  end.

Definition call_exported (f : ExportedFunction)
    (options : IFrameResizingOptions) (r : Realm) : Cleanup * Realm :=
  match f with
  | Fn_initIFrameResizing =>
      let '(c, r) := initIFrameResizing options r in (Direct c, r)
  | Fn_autoInitIFrameResizing => autoInitIFrameResizing options r
  end.

(** ** The platform's side: what calls the callbacks *)

Section EventLoop.

Variable uuid : nat → string.

Inductive Event :=
| Message (data : Value)              (* a 'message' event on window *)
| Advance (dt : N)                    (* [dt] milliseconds pass *)
| Resize (observer : nat) (entries : list ResizeObserverEntry)
| DOMContentLoaded
| Load
| CallInit (options : IFrameResizingOptions)
| CallAutoInit (options : IFrameResizingOptions)
| CallCleanup (c : Cleanup).

(** One listener's turn while a message event is dispatched.  The
    platform walks the listeners that were registered when the event
    arrived and skips one that has been removed since; an exception a
    listener throws is reported and the walk goes on. *)
Definition invoke_listener (data : Value) (w : World) (l : Listener) : World :=
  match list_find (λ l', l_dispatch l' = l_dispatch l) (w_listeners w) with
  | Some (_, l') =>
      let '(c, w) := listener l' data w in
      run_microtasks
        (match c with Normal => w | Throw => emit UncaughtError w end)
  | None => w
  end.

Definition dispatch_message (data : Value) (w : World) : World :=
  fold_left (invoke_listener data) (w_listeners w) w.

(** A due timer's turn: it leaves the timer table and its callback runs. *)
Definition fire_timer (w : World) (t : Timer) : World :=
  match list_find (λ t', t_handle t' = t_handle t) (w_timers w) with
  | Some (_, t') =>
      run_microtasks
        (timeout_callback (t_dispatch t') (clearTimeout (t_handle t') w))
  | None => w
  end.

(** Time passes: the clock moves and every timer that has fallen due
    fires, earliest first. *)
Definition advance (dt : N) (w : World) : World :=
  let w := set_now (w_now w + dt) w in
  fold_left fire_timer (filter (λ t, t_due t ≤ w_now w) (w_timers w)) w.

(** A size-change notification: only an observer with a target gets one. *)
Definition notify (o : nat) (entries : list ResizeObserverEntry) (w : World)
  : World :=
  match w_observers w !! o with
  | Some {| o_options := options; o_targets := _ :: _ |} =>
      run_microtasks (observer_callback uuid options entries w)
  | _ => w
  end.

(** The document becomes ready: [readyState] leaves ['loading'] and the
    [DOMContentLoaded] listeners run.  The platform fires this once. *)
Definition fire_DOMContentLoaded (w : World) : World :=
  match w_readyState w with
  | Loading =>
      fold_left (λ w l, run_microtasks (ready_listener l w))
        (w_ready_listeners w) (set_readyState Interactive w)
  | _ => w
  end.

Definition fire_load (w : World) : World :=
  match w_readyState w with
  | Interactive => set_readyState Complete w
  | _ => w
  end.

Definition step (w : World) (ev : Event) : World :=
  match ev with
  | Message data => dispatch_message data w
  | Advance dt => advance dt w
  | Resize o entries => notify o entries w
  | DOMContentLoaded => fire_DOMContentLoaded w
  | Load => fire_load w
  | CallInit options => (initIFrameResizing_browser options w).2
  | CallAutoInit options => (autoInitIFrameResizing_browser options w).2
  | CallCleanup c => call_cleanup c w
  end.

Definition run (evs : list Event) (w : World) : World := fold_left step evs w.

End EventLoop.

(** A freshly loaded page. *)
Definition initial_world (rs : ReadyState) (body : option Element) : World :=
  {| w_now := 0; w_uuids := 0; w_next_timer := 0; w_timers := [];
     w_listeners := []; w_promises := []; w_microtasks := [];
     w_observers := []; w_readyState := rs; w_body := body;
     w_ready_listeners := []; w_cells := []; w_namespace := None;
     w_trace := [] |}.

Definition promise_state (w : World) (p : nat) : option PromiseState :=
  p_state <$> w_promises w !! p.

(** ** examples: the page of the example server

    The script of the page the example server sends for [/] is the
    parent's side of the exchange: a [message] listener that sets the
    height of the frame and posts the acknowledgment. *)

(** What [window.parent.postMessage(command, '*')] delivers as
    [event.data]: the structured clone of [command]. *)
Definition command_data (c : Command) : Value :=
  VObject [("id", VString (c_id c));
           ("sender", VString (participant_string (c_sender c)));
           ("receiver", VString (participant_string (c_receiver c)));
           ("name", VString (c_name c));
           ("payload", VArray (VArray <$> c_payload c))].

(** What the listener of the parent page does to the outside. *)
Inductive ParentEffect :=
| SetFrameHeight (value : string)   (* iframe.style.height = value *)
| ConsoleLog (args : list Value)
| PostToFrame (data : Value) (targetOrigin : string)
                                    (* iframe.contentWindow.postMessage *).

Section ParentPage.

(** The platform's conversions, which the listener leaves to it:
    [ToString] of the primitive of a value, as [v + 'px'] computes it;
    the first code unit of a string, as [s[0]] reads it; the first code
    point of a string, as destructuring reads it (both [undefined] for
    the empty string). *)
Variable to_string : Value → string.
Variable first_code_unit : string → Value.
Variable first_code_point : string → Value.

(** [v[0]]. *)
Definition get_index_0 (v : Value) : option Value :=
  match v with
  | VUndefined | VNull => None
  | VArray items => Some (default VUndefined (head items))
  | VString s => Some (first_code_unit s)
  | VObject props => Some (default VUndefined (assoc "0" props))
  | _ => Some VUndefined
  end.

(** [const [height] = v]: the first value [v] iterates over.  Of the
    values here only arrays and strings are iterable; for the others the
    destructuring throws a TypeError ([None]). *)
Definition destructure_first (v : Value) : option Value :=
  match v with
  | VArray items => Some (default VUndefined (head items))
  | VString s => Some (first_code_point s)
  | _ => None
  end.

(** The [message] listener of the page.  [testFrame] tells whether the
    document has an element with the id ['testFrame'] (an iframe in the
    document, so that its [contentWindow] is a window); without one
    [document.getElementById] returns [null] and [iframe.style]
    throws. *)
Definition parent_listener (testFrame : bool) (data : Value)
  : Completion * list ParentEffect :=
  match get_property data "name" with
  | None => (Throw, [])
  | Some name =>
      if negb (strict_equals name (VString "resize")) then (Normal, [])
      else
        match get_property data "sender" with
        | None => (Throw, [])
        | Some sender =>
            if negb (strict_equals sender (VString "child")) then (Normal, [])
            else
              match get_property data "payload" with
              | None => (Throw, [])
              | Some payload =>
                  match get_index_0 payload with
                  | None => (Throw, [])
                  | Some first =>
                      match destructure_first first with
                      | None => (Throw, [])
                      | Some height =>
                          if negb testFrame then (Throw, [])
                          else
                            match get_property data "id" with
                            | None => (Throw, [])
                            | Some id =>
                                (Normal,
                                 [SetFrameHeight (to_string height ++ "px");
                                  ConsoleLog
                                    [VString "Received resize message:";
                                     height];
                                  PostToFrame
                                    (VObject
                                       [("id", id);
                                        ("sender", VString "parent");
                                        ("receiver", VString "child");
                                        ("correspondingCommandId", id)])
                                    "*"])
                            end
                      end
                  end
              end
        end
  end.

End ParentPage.

(** ** examples: the class [MyApplication]

    The field [resizeCleanup] holds what [autoInitIFrameResizing]
    returned, or [undefined].  The two hooks the class passes call its
    methods [handleError] and [logError], whose bodies are empty. *)

Record MyApplication := { resizeCleanup : option Cleanup }.

Definition MyApplication_options : IFrameResizingOptions :=
  {| onError := Some {| hook_label := "handleError";
                        hook_run := λ _, Normal |};
     captureError := Some {| hook_label := "logError";
                             hook_run := λ _, Normal |} |}.

(** [init()], in the browser. *)
Definition MyApplication_init (app : MyApplication) (w : World)
  : MyApplication * World :=
  let '(cleanup, w) := autoInitIFrameResizing_browser MyApplication_options w in
  ({| resizeCleanup := Some cleanup |}, w).

(** [destroy()]: a function is truthy, [undefined] is not. *)
Definition MyApplication_destroy (app : MyApplication) (w : World)
  : MyApplication * World :=
  match resizeCleanup app with
  | Some cleanup => ({| resizeCleanup := None |}, call_cleanup cleanup w)
  | None => (app, w)
  end.

(** ** Test setup: the stand-in for [crypto.randomUUID]

    [template.replace(/[xy]/g, callback)] walks the template from left to
    right and calls [callback] for every [x] and [y]; each call draws
    from [Math.random] once. *)

Section RandomUUID.

(** The value [(Math.random() * 16) | 0] of the [n]-th draw. *)
Variable random16 : nat → N.

(** [v.toString(16)] for an integer [v] that is not negative. *)
Definition toString_16 (v : N) : string :=
  match v with
  | N0 => "0"
  | Npos p => HexString.Raw.of_pos p ""
  end.

(** The callback, at the [n]-th draw. *)
Definition replacement (c : Ascii.ascii) (n : nat) : string :=
  let r := random16 n in
  let v := if Ascii.eqb c "x"%char then r else N.lor (N.land r 3) 8 in
  toString_16 v.

Fixpoint replace_xy (template : string) (n : nat) : string * nat :=
  match template with
  | EmptyString => (EmptyString, n)
  | String c rest =>
      if Ascii.eqb c "x"%char || Ascii.eqb c "y"%char
      then let '(s, n') := replace_xy rest (S n) in
           (String.append (replacement c n) s, n')
      else let '(s, n') := replace_xy rest n in (String c s, n')
  end.

(** [randomUUID()] when [n] draws have been made; with the result, the
    number of draws made then. *)
Definition randomUUID (n : nat) : string * nat :=
  replace_xy "xxxxxxxx-xxxx-4xxx-yxxx-xxxxxxxxxxxx" n.

End RandomUUID.

(** * The vocabulary of the properties *)

(** ** What a run of the [.catch] handler writes *)

Definition hook_effects (h : option Hook) (error : Error)
    (rest : list Effect) : list Effect :=
  match h with
  | Some h =>
      Invoke h error ::
      match hook_run h error with
      | Normal => rest
      | Throw => [UnhandledRejection]
      end
  | None => rest
  end.

(** What one run of the [.catch] handler adds to the trace. *)
Definition job_effects (j : Job) : list Effect :=
  match j with
  | CatchJob options error =>
      ConsoleWarn (message error) ::
      hook_effects (onError options) error
        (hook_effects (captureError options) error [])
  end.

(** The hook, if there is one, returns. *)
Definition hook_returns (h : option Hook) (error : Error) : Prop :=
  match h with Some h => hook_run h error = Normal | None => True end.

(** The call of the hook, if there is one. *)
Definition hook_call (h : option Hook) (error : Error) : list Effect :=
  match h with Some h => [Invoke h error] | None => [] end.

(** ** Acknowledgments *)

(** [data] is the acknowledgment of command [c]: both comparisons of
    [listener] find equal values. *)
Definition is_response (c : Command) (data : Value) : bool :=
  match get_property data "receiver",
        get_property data "correspondingCommandId" with
  | Some receiver, Some correspondingCommandId =>
      strict_equals (VString (participant_string (c_sender c))) receiver
      && strict_equals (VString (c_id c)) correspondingCommandId
  | _, _ => false
  end.

(** [data] carries the two fields of an acknowledgment of [c]. *)
Definition acknowledges (c : Command) (data : Value) : Prop :=
  get_property data "receiver"
  = Some (VString (participant_string (c_sender c))) ∧
  get_property data "correspondingCommandId" = Some (VString (c_id c)).

(** ** One dispatch among the others *)

(** The dispatch of listener [l] is in flight: its listener is registered
    and its timer, due at [due], is armed. *)
Definition in_flight (w : World) (l : Listener) (due : N) : Prop :=
  l ∈ w_listeners w ∧
  {| t_handle := l_timeout l; t_due := due; t_dispatch := l_dispatch l |}
    ∈ w_timers w.

(** The three ways a callback changes the tables of the dispatcher. *)

(** It leaves them alone. *)
Record same_tables (w w' : World) : Prop := {
  same_now : w_now w' = w_now w;
  same_uuids : w_uuids w' = w_uuids w;
  same_next_timer : w_next_timer w' = w_next_timer w;
  same_timers : w_timers w' = w_timers w;
  same_listeners : w_listeners w' = w_listeners w;
  same_promises : ∀ p, promise_state w' p = promise_state w p;
  same_quiet : w_microtasks w' = []
}.

(** It retires the dispatch of listener [l]: the timer and the listener
    leave the tables and the promise is settled as [s]. *)
Record retires (l : Listener) (s : PromiseState) (w w' : World) : Prop := {
  retires_now : w_now w' = w_now w;
  retires_uuids : w_uuids w' = w_uuids w;
  retires_next_timer : w_next_timer w' = w_next_timer w;
  retires_timers :
    w_timers w' = filter (λ t, t_handle t ≠ l_timeout l) (w_timers w);
  retires_listeners :
    w_listeners w'
    = filter (λ x, l_dispatch x ≠ l_dispatch l) (w_listeners w);
  retires_promises : ∀ p,
    promise_state w' p
    = if decide (p = l_dispatch l) then Some s else promise_state w p;
  retires_quiet : w_microtasks w' = []
}.

(** The milliseconds that pass during [evs]. *)
Definition elapsed (evs : list Event) : N :=
  foldr (λ ev n, match ev with Advance dt => dt + n | _ => n end) 0 evs.

(** An acknowledgment of [c] arrives in [evs] before [budget]
    milliseconds have passed. *)
Fixpoint answered_within (c : Command) (budget : N) (evs : list Event)
  : bool :=
  match evs with
  | [] => false
  | Message data :: rest =>
      is_response c data || answered_within c budget rest
  | Advance dt :: rest =>
      if budget <=? dt then false else answered_within c (budget - dt) rest
  | _ :: rest => answered_within c budget rest
  end.

Inductive Outcome := StillPending | Acknowledged | TimedOut.

(** What the events [evs] hold for a command whose timer has [budget]
    milliseconds left. *)
Definition outcome (c : Command) (budget : N) (evs : list Event) : Outcome :=
  if answered_within c budget evs then Acknowledged
  else if budget <=? elapsed evs then TimedOut
  else StillPending.

(** ** The lifecycle *)

(** The elements [observer.observe(body)] is called with: [document.body]
    when there is one. *)
Definition body_targets (w : World) : list Element :=
  match w_body w with Some body => [body] | None => [] end.

Section Vocabulary.

Variable uuid : nat → string.

(** The listener a call of [sendResizeCommand] registers in [w]. *)
Definition new_listener (height : float) (w : World) : Listener :=
  {| l_dispatch := length (w_promises w);
     l_command := {| c_id := uuid (w_uuids w); c_sender := CHILD;
                     c_receiver := PARENT; c_name := "resize";
                     c_payload := [[VNumber height]] |};
     l_timeout := w_next_timer w |}.

(** A dispatch as the code makes it: [sendResizeCommand(height)] alone,
    or, as in the observer callback, followed by [.catch] with the
    handler that closes over [options]. *)
Definition dispatched (height : float)
    (handler : option IFrameResizingOptions) (w : World) : World :=
  let '(promise, w) := sendResizeCommand uuid height w in
  match handler with
  | Some options => promise_catch promise options w
  | None => w
  end.

(** It starts the dispatch of listener [l]. *)
Record starts (l : Listener) (w w' : World) : Prop := {
  starts_now : w_now w' = w_now w;
  starts_uuids : w_uuids w' = S (w_uuids w);
  starts_next_timer : w_next_timer w' = S (w_next_timer w);
  starts_timers :
    w_timers w'
    ≡ₚ {| t_handle := l_timeout l; t_due := w_now w + 20000;
          t_dispatch := l_dispatch l |} :: w_timers w;
  starts_listeners : w_listeners w' = w_listeners w ++ [l];
  starts_promises : ∀ p,
    promise_state w' p
    = if decide (p = l_dispatch l) then Some Pending else promise_state w p;
  starts_quiet : w_microtasks w' = [];
  starts_dispatch : l_dispatch l = length (w_promises w);
  starts_timeout : l_timeout l = w_next_timer w;
  starts_id : c_id (l_command l) = uuid (w_uuids w);
  starts_sender : c_sender (l_command l) = CHILD
}.

(** What holds of the platform tables between two events.  A listener
    and a timer exist exactly for the pending promises, one of each, and
    they name each other. *)
Record wf (w : World) : Prop := {
  wf_keys : NoDup (l_dispatch <$> w_listeners w);
  wf_handles : NoDup (t_handle <$> w_timers w);
  wf_ids : NoDup ((λ l, c_id (l_command l)) <$> w_listeners w);
  wf_drawn : ∀ l, l ∈ w_listeners w →
    ∃ k, (k < w_uuids w)%nat ∧ c_id (l_command l) = uuid k;
  wf_sender : ∀ l, l ∈ w_listeners w → c_sender (l_command l) = CHILD;
  wf_listener : ∀ l, l ∈ w_listeners w →
    promise_state w (l_dispatch l) = Some Pending ∧
    ∃ t, t ∈ w_timers w ∧ t_handle t = l_timeout l
         ∧ t_dispatch t = l_dispatch l;
  wf_timer : ∀ t, t ∈ w_timers w →
    (t_handle t < w_next_timer w)%nat ∧ t_due t ≤ w_now w + 20000 ∧
    ∃ l, l ∈ w_listeners w ∧ l_dispatch l = t_dispatch t
         ∧ l_timeout l = t_handle t;
  wf_pending : ∀ p, promise_state w p = Some Pending →
    ∃ l, l ∈ w_listeners w ∧ l_dispatch l = p;
  wf_reason : ∀ p e, promise_state w p = Some (Rejected e) → e = timeout_error;
  wf_quiet : w_microtasks w = []
}.

End Vocabulary.

(** ** The ledger of a page: what was posted and what was reported *)

(** The calls of [window.parent.postMessage] in a trace, oldest first. *)
Fixpoint posted (tr : list Effect) : list (Command * string) :=
  match tr with
  | [] => []
  | PostMessage c targetOrigin :: rest => (c, targetOrigin) :: posted rest
  | _ :: rest => posted rest
  end.

(** [console.warn] of the timeout error's message. *)
Definition is_timeout_warning (e : Effect) : bool :=
  match e with
  | ConsoleWarn text => String.eqb text (message timeout_error)
  | _ => false
  end.

Definition is_rejected (p : Promise) : bool :=
  match p_state p with Rejected _ => true | _ => false end.

Definition count {A} (f : A → bool) (l : list A) : nat :=
  length (List.filter f l).

Arguments count {A} f l : simpl never.

(** The warning of [initIFrameResizing] where there is no body. *)
Definition body_warning : Effect :=
  ConsoleWarn "initIFrameResizing: Document body not found".

(** A step of the lifecycle: it draws no identifier, makes and settles no
    promise, and writes nothing but body warnings. *)
Record lifecycle_step (w w' : World) : Prop := {
  lifecycle_uuids : w_uuids w' = w_uuids w;
  lifecycle_promises : w_promises w' = w_promises w;
  lifecycle_trace :
    ∃ extra, w_trace w' = w_trace w ++ extra
             ∧ Forall (λ e, e = body_warning) extra;
  lifecycle_quiet : w_microtasks w' = []
}.

(** No armed timer is overdue. *)
Definition punctual (w : World) : Prop :=
  ∀ t, t ∈ w_timers w → w_now w < t_due t.

(** The events without the notifications of observer [o]. *)
Definition without_resize (o : nat) (evs : list Event) : list Event :=
  List.filter (λ ev, match ev with
                     | Resize o' _ => negb (Nat.eqb o' o)
                     | _ => true
                     end) evs.

(** ** Observers *)

(** Observer [o] exists and observes nothing: it was disconnected, or
    made on a page without a body. *)
Definition detached (o : nat) (w : World) : Prop :=
  ∃ ob, w_observers w !! o = Some ob ∧ o_targets ob = [].

(** Observer [o] was made with [options] and observes something. *)
Definition attached (o : nat) (options : IFrameResizingOptions) (w : World)
  : Prop :=
  ∃ ob, w_observers w !! o = Some ob ∧ o_options ob = options
        ∧ o_targets ob ≠ [].

(** The heights a sequence of notification batches stands for: of every
    batch that is not empty, [contentRect.height] of the first entry. *)
Definition first_heights (batches : list (list ResizeObserverEntry))
  : list float :=
  omap (λ entries, (λ e, rect_height (contentRect e)) <$> head entries)
    batches.

(** What [c] disconnects when it is called in [w]: the observer of the
    cleanup [initIFrameResizing] returned, for a deferred cleanup the
    observer of the cleanup its variable holds at that moment. *)
Definition cleanup_target (c : Cleanup) (w : World) : option nat :=
  match c with
  | Direct NoOp => None
  | Direct (Disconnect o) => Some o
  | CallVariable cell =>
      match w_cells w !! cell with
      | Some (Disconnect o) => Some o
      | _ => None
      end
  end.

(** ** The module where there is no [window] *)

(** What a program does with the module. *)
Inductive Use :=
| LoadModule
| CallExported (f : ExportedFunction) (options : IFrameResizingOptions)
| CallReturned (c : Cleanup).

Definition use (r : Realm) (u : Use) : Realm :=
  match u with
  | LoadModule => load_module r
  | CallExported f options => (call_exported f options r).2
  | CallReturned c => call_cleanup_in c r
  end.

Definition is_init_call (u : Use) : bool :=
  match u with CallExported Fn_initIFrameResizing _ => true | _ => false end.

Definition server_side_warning : Effect :=
  ConsoleWarn "initIFrameResizing: Cannot initialize on server side".

(** ** The child and the parent page together *)

Section ExchangeVocabulary.

Variable uuid : nat → string.

(** The [message] listener of the parent page. *)
Variable page : Value → Completion * list ParentEffect.

(** What the parent page posts to the frame when command [c] arrives. *)
Definition parent_replies (c : Command) : list Value :=
  omap (λ e, match e with PostToFrame data _ => Some data | _ => None end)
    (page (command_data c)).2.

(** A notification of observer [o]; what it posts is delivered to the
    parent page, and what the parent page posts back is delivered to the
    child. *)
Definition notify_and_answer (o : nat) (w : World)
    (entries : list ResizeObserverEntry) : World :=
  let w1 := step uuid w (Resize o entries) in
  let commands := drop (length (posted (w_trace w))) (posted (w_trace w1)) in
  run uuid (Message <$> flat_map (λ p, parent_replies p.1) commands) w1.

End ExchangeVocabulary.

(** ** The text of a version 4 identifier *)

Definition is_hex_digit (a : Ascii.ascii) : bool :=
  existsb (Ascii.eqb a) (String.list_ascii_of_string "0123456789abcdef").

Definition is_variant_digit (a : Ascii.ascii) : bool :=
  existsb (Ascii.eqb a) (String.list_ascii_of_string "89ab").

(** [s] has the shape of [template]: a hexadecimal digit for every [x],
    one of [8], [9], [a], [b] for every [y], and the character of the
    template everywhere else. *)
Fixpoint matches_template (template s : string) : bool :=
  match template, s with
  | EmptyString, EmptyString => true
  | String t template, String a s =>
      (if Ascii.eqb t "x"%char then is_hex_digit a
       else if Ascii.eqb t "y"%char then is_variant_digit a
       else Ascii.eqb a t)
      && matches_template template s
  | _, _ => false
  end.

(** The calls of the callback a template makes. *)
Fixpoint count_xy (template : string) : nat :=
  match template with
  | EmptyString => 0%nat
  | String c rest =>
      ((if Ascii.eqb c "x"%char || Ascii.eqb c "y"%char then 1 else 0)
       + count_xy rest)%nat
  end.

Section LedgerVocabulary.

Variable uuid : nat → string.

(** The [i]-th call of [postMessage] is a resize command with the [i]-th
    identifier, for every origin. *)
Definition is_resize_post (i : nat) (c : Command) (targetOrigin : string)
  : Prop :=
  targetOrigin = "*" ∧ c_id c = uuid i ∧ c_sender c = CHILD ∧
  c_receiver c = PARENT ∧ c_name c = "resize" ∧
  ∃ height, c_payload c = [[VNumber height]].

(** One command was posted for every promise and every identifier drawn,
    every promise has its [.catch] handler, and the timeout was reported
    once for every rejected promise. *)
Record ledger (w : World) : Prop := {
  ledger_drawn : w_uuids w = length (w_promises w);
  ledger_posted : length (posted (w_trace w)) = length (w_promises w);
  ledger_shape : ∀ i c o,
    posted (w_trace w) !! i = Some (c, o) → is_resize_post i c o;
  ledger_handlers : ∀ p pr,
    w_promises w !! p = Some pr → is_Some (p_catch pr);
  ledger_reports :
    count is_timeout_warning (w_trace w) = count is_rejected (w_promises w)
}.

End LedgerVocabulary.

(** ** A sample page, to run the model on *)

Definition sample_uuid : nat → string := pretty.

Definition sample_hook (label : string) : Hook :=
  {| hook_label := label; hook_run := λ _, Normal |}.

Definition sample_options : IFrameResizingOptions :=
  {| onError := Some (sample_hook "onError");
     captureError := Some (sample_hook "captureError") |}.

Definition sample_entry (height : float) : ResizeObserverEntry :=
  {| target := 1%nat;
     contentRect := {| rect_x := 0; rect_y := 0; rect_width := 800;
                       rect_height := height |};
     borderBoxSize := [{| inlineSize := 816; blockSize := 1000 |}];
     contentBoxSize := [{| inlineSize := 800; blockSize := height |}] |}.

(** The page is initialized, its body changes size, five seconds later
    it changes size again. *)
Definition sample_events : list Event :=
  [CallInit sample_options; Resize 0 [sample_entry 120.5]; Advance 5000;
   Resize 0 [sample_entry 300; sample_entry 20]].

Abbreviation sample_world :=
  (run sample_uuid sample_events (initial_world Complete (Some 1%nat))).

Definition sample_command (n : nat) (height : float) : Command :=
  {| c_id := sample_uuid n; c_sender := CHILD; c_receiver := PARENT;
     c_name := "resize"; c_payload := [[VNumber height]] |}.

Definition sample_listener (n : nat) (height : float) : Listener :=
  {| l_dispatch := n; l_command := sample_command n height; l_timeout := n |}.

(** An acknowledgment reduced to the two fields the listener reads. *)
Definition sample_ack (i : string) : Value :=
  VObject [("correspondingCommandId", VString i); ("receiver", VString "child")].

(** * Properties *)

(** ** The microtask checkpoint only writes to the trace *)

Lemma run_job_eq (j : Job) (w : World) :
  run_job j w = set_trace (w_trace w ++ job_effects j) w.
Proof.
  destruct j as [[[h1|] [h2|]] error]; unfold run_job, catch_handler, invoke;
    cbn [onError captureError job_effects hook_effects];
    try destruct (hook_run h1 error); try destruct (hook_run h2 error);
    unfold console_warn, emit, set_trace; cbn; f_equal;
    by rewrite <- ?app_assoc.
Qed.

Lemma fold_run_job (js : list Job) (w : World) :
  fold_left (λ w j, run_job j w) js w
  = set_trace (w_trace w ++ flat_map job_effects js) w.
Proof.
  revert w. induction js as [|j js IH]; intros w; cbn [fold_left flat_map].
  - rewrite app_nil_r. by destruct w.
  - rewrite IH, run_job_eq. unfold set_trace; cbn. f_equal.
    by rewrite <- app_assoc.
Qed.

Lemma run_microtasks_eq (w : World) :
  run_microtasks w
  = set_trace (w_trace w ++ flat_map job_effects (w_microtasks w))
      (set_microtasks [] w).
Proof. unfold run_microtasks. by rewrite fold_run_job. Qed.

(** ** List facts the invariant needs *)

Lemma NoDup_fmap_eq {A B} (f : A → B) (l : list A) (x y : A) :
  NoDup (f <$> l) → x ∈ l → y ∈ l → f x = f y → x = y.
Proof.
  induction l as [|a l IH]; cbn; intros Hnd Hx Hy Hf.
  - by apply elem_of_nil in Hx.
  - apply NoDup_cons in Hnd as [Ha Hnd].
    apply elem_of_cons in Hx as [->|Hx]; apply elem_of_cons in Hy as [->|Hy];
      try done; try by apply IH.
    + exfalso. apply Ha. rewrite Hf. by apply list_elem_of_fmap_2.
    + exfalso. apply Ha. rewrite <- Hf. by apply list_elem_of_fmap_2.
Qed.

Lemma NoDup_fmap_filter {A B} (f : A → B) (P : A → Prop)
    `{∀ x, Decision (P x)} (l : list A) :
  NoDup (f <$> l) → NoDup (f <$> filter P l).
Proof.
  induction l as [|a l IH]; [done|].
  rewrite fmap_cons. intros [Ha Hnd]%NoDup_cons.
  rewrite filter_cons. destruct (decide (P a)); [|by apply IH].
  rewrite fmap_cons. apply NoDup_cons. split; [|by apply IH].
  intros (y & Hy & [_ Hin]%list_elem_of_filter)%list_elem_of_fmap.
  apply Ha. rewrite Hy. by apply list_elem_of_fmap_2.
Qed.

Lemma insert_timer_perm (t : Timer) (ts : list Timer) :
  insert_timer t ts ≡ₚ t :: ts.
Proof.
  induction ts as [|t' ts IH]; cbn; [done|].
  destruct (t_due t <? t_due t'); [done|].
  rewrite IH. apply Permutation_swap.
Qed.

(** ** The state of the dispatches in flight *)

Section Invariant.

Variable uuid : nat → string.
Hypothesis uuid_inj : Inj (=) (=) uuid.

#[local] Abbreviation wf := (wf uuid).
#[local] Abbreviation wf_drawn := (wf_drawn uuid).
#[local] Abbreviation wf_sender := (wf_sender uuid).
#[local] Abbreviation wf_listener := (wf_listener uuid).
#[local] Abbreviation wf_timer := (wf_timer uuid).
#[local] Abbreviation wf_pending := (wf_pending uuid).
#[local] Abbreviation wf_quiet := (wf_quiet uuid).
#[local] Abbreviation starts := (starts uuid).
#[local] Abbreviation starts_now := (starts_now uuid).
#[local] Abbreviation new_listener := (new_listener uuid).
#[local] Abbreviation dispatched := (dispatched uuid).

Lemma wf_initial rs body : wf (initial_world rs body).
Proof.
  split; cbn; try by constructor.
  all: try (intros ? []%elem_of_nil).
  all: by intros.
Qed.

(** Two listeners never share a timer. *)
Lemma wf_timeout_inj w l l' :
  wf w → l ∈ w_listeners w → l' ∈ w_listeners w →
  l_timeout l = l_timeout l' → l = l'.
Proof.
  intros Hwf Hl Hl' Heq.
  destruct (wf_listener w Hwf l Hl) as (_ & t & Ht & Hh & Hd).
  destruct (wf_listener w Hwf l' Hl') as (_ & t' & Ht' & Hh' & Hd').
  assert (t = t') as <-.
  { apply (NoDup_fmap_eq t_handle (w_timers w)); [apply Hwf|done..|congruence]. }
  apply (NoDup_fmap_eq l_dispatch (w_listeners w)); [apply Hwf|done..|congruence].
Qed.

Lemma same_tables_wf w w' : wf w → same_tables w w' → wf w'.
Proof.
  intros Hwf [Hnow Hu Hn Ht Hl Hp Hq].
  split; rewrite ?Hu, ?Hn, ?Ht, ?Hl; try apply Hwf; try done.
  - intros l Hl'. rewrite Hp. by apply Hwf.
  - intros t Ht'. destruct (wf_timer w Hwf t Ht') as (? & ? & ?).
    split_and!; [done|lia|done].
  - intros p. rewrite Hp. by apply Hwf.
  - intros p e. rewrite Hp. by apply Hwf.
Qed.

Lemma retires_wf w w' l s :
  wf w → l ∈ w_listeners w →
  s ≠ Pending → (∀ e, s = Rejected e → e = timeout_error) →
  retires l s w w' → wf w'.
Proof.
  intros Hwf Hl Hs Hr [Hnow Hu Hn Ht Hls Hp Hq].
  split; rewrite ?Hnow, ?Hu, ?Hn, ?Ht, ?Hls; try done.
  - apply NoDup_fmap_filter, Hwf.
  - apply NoDup_fmap_filter, Hwf.
  - apply NoDup_fmap_filter, Hwf.
  - intros x [_ Hx]%list_elem_of_filter. by apply Hwf.
  - intros x [_ Hx]%list_elem_of_filter. by apply Hwf.
  - intros x [Hne Hx]%list_elem_of_filter. rewrite Hp.
    destruct (decide _) as [|_]; [done|].
    destruct (wf_listener w Hwf x Hx) as (Hpend & t & Hin & Hh & Hd).
    split; [done|]. exists t. split_and!; try done.
    apply list_elem_of_filter. split; [|done].
    intros Heq. apply Hne. f_equal.
    apply (wf_timeout_inj w); try done. congruence.
  - intros t [Hne Hin]%list_elem_of_filter.
    destruct (wf_timer w Hwf t Hin) as (Hlt & Hdue & x & Hx & Hd & Hh).
    split_and!; try done. exists x. split_and!; try done.
    apply list_elem_of_filter. split; [|done].
    intros Heq. apply Hne. rewrite <- Hh. f_equal.
    apply (NoDup_fmap_eq l_dispatch (w_listeners w)); [apply Hwf|done..].
  - intros p. rewrite Hp. destruct (decide _) as [|Hne]; [congruence|].
    intros (x & Hx & Hd)%(wf_pending w Hwf). exists x. split; [|done].
    apply list_elem_of_filter. split; [congruence|done].
  - intros p e. rewrite Hp. destruct (decide _) as [|Hne].
    + intros [= ->]. by apply Hr.
    + by apply Hwf.
Qed.

Lemma promise_state_lt w p s :
  promise_state w p = Some s → (p < length (w_promises w))%nat.
Proof.
  unfold promise_state. intros H.
  apply lookup_lt_is_Some. destruct (w_promises w !! p); [eauto|done].
Qed.

Lemma starts_wf w w' l : wf w → starts l w w' → wf w'.
Proof.
  intros Hwf [Hnow Hu Hn Ht Hls Hp Hq Hd Hh Hid Hsnd].
  assert (Hfresh : ∀ x, x ∈ w_listeners w → l_dispatch x ≠ l_dispatch l).
  { intros x Hx Heq. destruct (wf_listener w Hwf x Hx) as [Hpend _].
    apply promise_state_lt in Hpend. lia. }
  split; rewrite ?Hnow, ?Hu, ?Hn, ?Hls; try done.
  - rewrite fmap_app. apply NoDup_app. split_and!; [apply Hwf| |apply NoDup_singleton].
    intros k (x & -> & Hx)%list_elem_of_fmap Heq%list_elem_of_singleton.
    by apply (Hfresh x).
  - rewrite Ht. cbn. apply NoDup_cons. split; [|apply Hwf].
    intros (t & Heq & Hin)%list_elem_of_fmap.
    destruct (wf_timer w Hwf t Hin) as [Hlt _]. lia.
  - rewrite fmap_app. apply NoDup_app. split_and!; [apply Hwf| |apply NoDup_singleton].
    intros k (x & -> & Hx)%list_elem_of_fmap Heq%list_elem_of_singleton.
    destruct (wf_drawn w Hwf x Hx) as (n & Hlt & Hn').
    rewrite Hn', Hid in Heq. apply uuid_inj in Heq. lia.
  - intros x [Hx|Hx%list_elem_of_singleton]%elem_of_app; [|subst x].
    + destruct (wf_drawn w Hwf x Hx) as (n & Hlt & Hn'). exists n. split; [lia|done].
    + exists (w_uuids w). split; [lia|done].
  - intros x [Hx|Hx%list_elem_of_singleton]%elem_of_app; [by apply Hwf|by subst x].
  - intros x [Hx|Hx%list_elem_of_singleton]%elem_of_app; [|subst x].
    + rewrite Hp. destruct (decide _) as [Heq|_]; [by apply Hfresh in Heq|].
      destruct (wf_listener w Hwf x Hx) as (Hpend & t & Hin & ? & ?).
      split; [done|]. exists t. split_and!; try done.
      rewrite Ht. by apply elem_of_cons; right.
    + rewrite Hp, decide_True by done. split; [done|].
      eexists. split; [rewrite Ht; apply elem_of_cons; by left|done].
  - intros t. rewrite Ht. intros [->|Hin]%elem_of_cons; cbn.
    + split_and!; [lia|lia|]. exists l. split_and!; try done.
      apply elem_of_app. right. by apply list_elem_of_singleton.
    + destruct (wf_timer w Hwf t Hin) as (? & ? & x & ? & ? & ?).
      split_and!; [lia|done|]. exists x. split_and!; try done.
      apply elem_of_app. by left.
  - intros p. rewrite Hp. destruct (decide _) as [->|_].
    + intros _. exists l. split; [|done].
      apply elem_of_app. right. by apply list_elem_of_singleton.
    + intros (x & ? & ?)%(wf_pending w Hwf). exists x. split; [|done].
      apply elem_of_app. by left.
  - intros p e. rewrite Hp. destruct (decide _); [done|]. by apply Hwf.
Qed.

(** *** One dispatch among the others *)

Lemma same_tables_in_flight w w' l due :
  same_tables w w' → in_flight w l due → in_flight w' l due.
Proof. intros [] []. split; congruence. Qed.

Lemma retires_in_flight w w' x s l due :
  wf w → x ∈ w_listeners w → retires x s w w' →
  l_dispatch x ≠ l_dispatch l →
  in_flight w l due → in_flight w' l due.
Proof.
  intros Hwf Hx [] Hne [Hl Ht]. split.
  - rewrite retires_listeners0. apply list_elem_of_filter. split; [congruence|done].
  - rewrite retires_timers0. apply list_elem_of_filter. split; [|done].
    cbn. intros Heq. apply Hne. f_equal. by apply (wf_timeout_inj w).
Qed.

Lemma starts_in_flight w w' x l due :
  starts x w w' → in_flight w l due → in_flight w' l due.
Proof.
  intros [] [Hl Ht]. split.
  - rewrite starts_listeners0. apply elem_of_app. by left.
  - rewrite starts_timers0. apply elem_of_cons. by right.
Qed.

Lemma same_tables_state w w' p s :
  same_tables w w' → promise_state w p = Some s → promise_state w' p = Some s.
Proof. intros [] ?. by rewrite same_promises0. Qed.

Lemma retires_state w w' x s' p s :
  wf w → x ∈ w_listeners w → retires x s' w w' →
  promise_state w p = Some s → s ≠ Pending → promise_state w' p = Some s.
Proof.
  intros Hwf Hx [] Hp Hs. rewrite retires_promises0.
  destruct (decide _) as [->|]; [|done].
  destruct (wf_listener w Hwf x Hx) as [Hpend _]. congruence.
Qed.

Lemma retires_self w w' l s :
  retires l s w w' → promise_state w' (l_dispatch l) = Some s.
Proof. intros []. rewrite retires_promises0. by rewrite decide_True. Qed.

Lemma starts_state w w' x p s :
  starts x w w' → promise_state w p = Some s → promise_state w' p = Some s.
Proof.
  intros [] Hp. rewrite starts_promises0.
  destruct (decide _) as [->|]; [|done].
  apply promise_state_lt in Hp. lia.
Qed.

(** A settled promise has neither listener nor timer left. *)
Lemma wf_settled_clean w p s :
  wf w → promise_state w p = Some s → s ≠ Pending →
  (∀ l, l ∈ w_listeners w → l_dispatch l ≠ p) ∧
  (∀ t, t ∈ w_timers w → t_dispatch t ≠ p).
Proof.
  intros Hwf Hp Hs.
  assert (Hl : ∀ l, l ∈ w_listeners w → l_dispatch l ≠ p).
  { intros l Hl <-. destruct (wf_listener w Hwf l Hl) as [Hpend _]. congruence. }
  split; [done|]. intros t Ht Heq.
  destruct (wf_timer w Hwf t Ht) as (_ & _ & l & Hin & Hd & _).
  apply (Hl l Hin). congruence.
Qed.

(** The timer of a dispatch in flight is the only one with its handle. *)
Lemma in_flight_timer w l due t :
  wf w → in_flight w l due → t ∈ w_timers w → t_handle t = l_timeout l →
  t = {| t_handle := l_timeout l; t_due := due; t_dispatch := l_dispatch l |}.
Proof.
  intros Hwf [_ Ht] Hin Hh.
  by apply (NoDup_fmap_eq t_handle (w_timers w)); [apply Hwf|..].
Qed.

(** *** What one callback does to the tables *)

Lemma lookup_pending w p :
  promise_state w p = Some Pending →
  ∃ k, w_promises w !! p = Some {| p_state := Pending; p_catch := k |}.
Proof.
  unfold promise_state. destruct (w_promises w !! p) as [[[] k]|]; try done.
  eauto.
Qed.

Lemma insert_state (ps : list Promise) d s k q :
  (d < length ps)%nat →
  p_state <$> <[d := {| p_state := s; p_catch := k |}]> ps !! q
  = if decide (q = d) then Some s else p_state <$> ps !! q.
Proof.
  intros Hlt. destruct (decide (q = d)) as [->|Hne].
  - by rewrite list_lookup_insert_eq.
  - by rewrite list_lookup_insert_ne.
Qed.

Lemma listener_match l data w :
  is_response (l_command l) data = true →
  listener l data w
  = (Normal,
     resolve (l_dispatch l)
       (removeEventListener_message (l_dispatch l)
          (clearTimeout (l_timeout l) w))).
Proof.
  unfold is_response, listener.
  destruct (get_property data "receiver"); [|done].
  destruct (get_property data "correspondingCommandId"); [|done].
  by intros [-> ->]%andb_true_iff.
Qed.

Lemma listener_no_match l data w :
  is_response (l_command l) data = false →
  ∃ c, listener l data w = (c, w).
Proof.
  unfold is_response, listener.
  destruct (get_property data "receiver"); [|by eauto].
  destruct (strict_equals (VString (participant_string _)) _); [|by eauto].
  destruct (get_property data "correspondingCommandId"); [|by eauto].
  cbn. intros ->. eauto.
Qed.

Lemma invoke_listener_spec data w x :
  wf w →
  (∀ l, l ∈ w_listeners w → l_dispatch l = l_dispatch x →
     if is_response (l_command l) data
     then retires l Fulfilled w (invoke_listener data w x)
     else same_tables w (invoke_listener data w x)) ∧
  ((∀ l, l ∈ w_listeners w → l_dispatch l ≠ l_dispatch x) →
     invoke_listener data w x = w).
Proof.
  intros Hwf. unfold invoke_listener.
  destruct (list_find _ _) as [[i l']|] eqn:Hfind.
  - apply list_find_Some in Hfind as (Hin%list_elem_of_lookup_2 & Hkey & _).
    split; [|intros Hno; by destruct (Hno l' Hin)].
    intros l Hl Hd.
    assert (l = l') as <-.
    { apply (NoDup_fmap_eq l_dispatch (w_listeners w)); [apply Hwf|done..|congruence]. }
    destruct (is_response (l_command l) data) eqn:Hresp.
    + rewrite listener_match by done.
      destruct (wf_listener w Hwf l Hl) as [Hpend _].
      destruct (lookup_pending w _ Hpend) as [k Hk].
      unfold resolve; cbn. rewrite Hk. rewrite run_microtasks_eq.
      split; cbn; try done; try apply Hwf.
      intros p. unfold promise_state; cbn. apply insert_state.
      by eapply lookup_lt_Some.
    + destruct (listener_no_match l data w Hresp) as [c ->].
      rewrite run_microtasks_eq.
      destruct c; split; cbn; try done; apply Hwf.
  - apply list_find_None in Hfind. rewrite Forall_forall in Hfind.
    split; [|done]. intros l Hl Hd. by destruct (Hfind l Hl).
Qed.

Lemma fire_timer_spec w x :
  wf w →
  (∀ l, l ∈ w_listeners w → l_timeout l = t_handle x →
     retires l (Rejected timeout_error) w (fire_timer w x)) ∧
  ((∀ t, t ∈ w_timers w → t_handle t ≠ t_handle x) → fire_timer w x = w).
Proof.
  intros Hwf. unfold fire_timer.
  destruct (list_find _ _) as [[i t']|] eqn:Hfind.
  - apply list_find_Some in Hfind as (Hin%list_elem_of_lookup_2 & Hh & _).
    split; [|intros Hno; by destruct (Hno t' Hin)].
    intros l Hl Hto.
    destruct (wf_listener w Hwf l Hl) as (Hpend & t & Ht & Hth & Htd).
    assert (t = t') as <-.
    { apply (NoDup_fmap_eq t_handle (w_timers w)); [apply Hwf|done..|congruence]. }
    destruct (lookup_pending w _ Hpend) as [k Hk].
    rewrite Hth, Htd. unfold timeout_callback, reject; cbn. rewrite Hk.
    assert (Hlt : (l_dispatch l < length (w_promises w))%nat)
      by by eapply lookup_lt_Some.
    destruct k as [options|]; rewrite run_microtasks_eq;
      (split; cbn; try done; try apply Hwf);
      intros p; unfold promise_state; cbn; by apply insert_state.
  - apply list_find_None in Hfind. rewrite Forall_forall in Hfind.
    split; [|done]. intros l Hl Hto.
    destruct (wf_listener w Hwf l Hl) as (_ & t & Ht & Hth & _).
    destruct (Hfind t Ht). congruence.
Qed.

Lemma same_tables_refl w : w_microtasks w = [] → same_tables w w.
Proof. by split. Qed.

Lemma same_tables_trans w1 w2 w3 :
  same_tables w1 w2 → same_tables w2 w3 → same_tables w1 w3.
Proof.
  intros [] []. split; congruence.
Qed.

Lemma lookup_snoc_state (ps : list Promise) (x : Promise) q :
  p_state <$> (ps ++ [x]) !! q
  = if decide (q = length ps) then Some (p_state x) else p_state <$> ps !! q.
Proof.
  destruct (decide (q = length ps)) as [->|Hne].
  - by rewrite list_lookup_middle.
  - destruct (decide (q < length ps)%nat).
    + by rewrite lookup_app_l.
    + rewrite (lookup_ge_None_2 ps) by lia.
      rewrite lookup_ge_None_2; [done|]. rewrite length_app; cbn; lia.
Qed.

Lemma observer_callback_cons options e rest w :
  starts (new_listener (rect_height (contentRect e)) w) w
    (run_microtasks (observer_callback uuid options (e :: rest) w)).
Proof.
  unfold observer_callback, sendResizeCommand, promise_catch; cbn.
  rewrite list_lookup_middle by done. rewrite run_microtasks_eq.
  split; cbn; try done.
  - apply insert_timer_perm.
  - intros p. unfold promise_state; cbn.
    rewrite insert_state by (rewrite length_app; cbn; lia).
    destruct (decide _) as [|Hne]; [done|].
    by rewrite lookup_snoc_state, decide_False.
Qed.

Lemma notify_kind o entries w :
  w_microtasks w = [] →
  same_tables w (notify uuid o entries w) ∨
  ∃ options e rest,
    entries = e :: rest ∧
    (∃ ob, w_observers w !! o = Some ob ∧ o_options ob = options
           ∧ o_targets ob ≠ []) ∧
    notify uuid o entries w
    = run_microtasks (observer_callback uuid options entries w) ∧
    starts (new_listener (rect_height (contentRect e)) w) w
      (notify uuid o entries w).
Proof.
  intros Hq. unfold notify.
  destruct (w_observers w !! o) as [[options [|tg tgs]]|] eqn:Hob;
    try (left; by apply same_tables_refl).
  destruct entries as [|e rest].
  - left. cbn. rewrite run_microtasks_eq. by split.
  - right. exists options, e, rest. split_and!; try done.
    + eexists. split; [done|]. by cbn.
    + apply observer_callback_cons.
Qed.

Lemma initIFrameResizing_browser_same options w :
  w_microtasks w = [] →
  same_tables w (initIFrameResizing_browser options w).2.
Proof.
  intros Hq. unfold initIFrameResizing_browser; cbn.
  destruct (w_body w); by split.
Qed.

Lemma autoInitIFrameResizing_browser_same options w :
  w_microtasks w = [] →
  same_tables w (autoInitIFrameResizing_browser options w).2.
Proof.
  intros Hq. unfold autoInitIFrameResizing_browser.
  destruct (w_readyState w); cbn;
    try (by apply initIFrameResizing_browser_same).
  by split.
Qed.

Lemma ready_listener_same l w :
  same_tables w (run_microtasks (ready_listener l w)).
Proof.
  rewrite run_microtasks_eq.
  unfold ready_listener, initIFrameResizing_browser; cbn.
  destruct (w_body w); by split.
Qed.

Lemma fold_ready_listener_same ls w :
  w_microtasks w = [] →
  same_tables w
    (fold_left (λ w l, run_microtasks (ready_listener l w)) ls w).
Proof.
  revert w. induction ls as [|l ls IH]; intros w Hq; cbn [fold_left].
  - by apply same_tables_refl.
  - eapply same_tables_trans; [apply ready_listener_same|].
    apply IH. apply ready_listener_same.
Qed.

Lemma fire_DOMContentLoaded_same w :
  w_microtasks w = [] → same_tables w (fire_DOMContentLoaded w).
Proof.
  intros Hq. unfold fire_DOMContentLoaded.
  destruct (w_readyState w); try by apply same_tables_refl.
  eapply same_tables_trans; [|by apply fold_ready_listener_same].
  by split.
Qed.

Lemma call_cleanup_same c w :
  w_microtasks w = [] → same_tables w (call_cleanup c w).
Proof.
  intros Hq. destruct c as [[|o]|cell]; cbn; try by split.
  destruct (default NoOp (w_cells w !! cell)); by split.
Qed.

(** Every event but a message and the passing of time leaves the tables
    alone or starts one dispatch. *)
Lemma other_event_kind w ev :
  w_microtasks w = [] →
  match ev with
  | Message _ | Advance _ => True
  | _ => same_tables w (step uuid w ev) ∨
         ∃ l, starts l w (step uuid w ev)
  end.
Proof.
  intros Hq. destruct ev as [data|dt|o entries| | |options|options|c];
    cbn [step]; try done.
  - destruct (notify_kind o entries w Hq) as [?|(? & ? & ? & ? & ? & ? & ?)];
      eauto.
  - left. by apply fire_DOMContentLoaded_same.
  - left. unfold fire_load. destruct (w_readyState w); by split.
  - left. by apply initIFrameResizing_browser_same.
  - left. by apply autoInitIFrameResizing_browser_same.
  - left. by apply call_cleanup_same.
Qed.

Lemma wf_set_now w x : wf w → w_now w ≤ x → wf (set_now x w).
Proof.
  intros Hwf Hle. split; cbn; try apply Hwf.
  intros t Ht. destruct (wf_timer w Hwf t Ht) as (? & ? & ?).
  split_and!; [done|lia|done].
Qed.

(** *** A message event: every listener has its turn *)

Lemma fold_invoke_listener data ls w :
  wf w →
  let w' := fold_left (invoke_listener data) ls w in
  wf w' ∧ w_now w' = w_now w ∧
  (∀ p s, promise_state w p = Some s → s ≠ Pending →
          promise_state w' p = Some s) ∧
  (∀ l due, in_flight w l due →
     (is_response (l_command l) data = true →
      l_dispatch l ∈ l_dispatch <$> ls →
      promise_state w' (l_dispatch l) = Some Fulfilled) ∧
     (is_response (l_command l) data = false ∨
      l_dispatch l ∉ l_dispatch <$> ls →
      in_flight w' l due)).
Proof.
  revert w. induction ls as [|x ls IH]; intros w Hwf; cbn [fold_left].
  { split_and!; try done. intros l due Hfl. split; [|done].
    by intros _ ?%elem_of_nil. }
  set (w1 := invoke_listener data w x).
  destruct (invoke_listener_spec data w x Hwf) as [Hhit Hmiss].
  fold w1 in Hhit, Hmiss.
  destruct (decide (l_dispatch x ∈ l_dispatch <$> w_listeners w)) as [Hin|Hnin].
  - apply list_elem_of_fmap in Hin as (l0 & Hkey & Hl0).
    specialize (Hhit l0 Hl0 (eq_sym Hkey)).
    destruct (is_response (l_command l0) data) eqn:Hresp.
    + (* the listener of [x] is there and [data] is its response *)
      assert (Hwf1 : wf w1).
      { by apply (retires_wf w w1 l0 Fulfilled). }
      destruct (IH w1 Hwf1) as (Hwf' & Hnow & Hst & Hfl).
      split_and!; [done|by rewrite Hnow, (retires_now _ _ _ _ Hhit)| |].
      * intros p s Hp Hs. apply Hst; [|done]. by apply (retires_state w w1 l0 Fulfilled).
      * intros l due Hl.
        destruct (decide (l_dispatch l0 = l_dispatch l)) as [Heq|Hne].
        -- assert (l0 = l) as ->.
           { apply (NoDup_fmap_eq l_dispatch (w_listeners w));
               [apply Hwf|done|apply Hl|done]. }
           split.
           ++ intros _ _. apply Hst; [|done]. by apply (retires_self w).
           ++ intros [?|Hnot]; [congruence|]. destruct Hnot.
              rewrite fmap_cons, <- Hkey. apply elem_of_cons. by left.
        -- assert (Hl1 : in_flight w1 l due) by by apply (retires_in_flight w w1 l0 Fulfilled).
           destruct (Hfl l due Hl1) as [Hyes Hno]. split.
           ++ intros Hr [?|?]%elem_of_cons; [congruence|by apply Hyes].
           ++ intros [?|Hnot]; apply Hno; [by left|right].
              intros ?. apply Hnot. rewrite fmap_cons. apply elem_of_cons. by right.
    + (* the listener of [x] is there and [data] is not for it *)
      assert (Hwf1 : wf w1) by by apply (same_tables_wf w).
      destruct (IH w1 Hwf1) as (Hwf' & Hnow & Hst & Hfl).
      split_and!; [done|by rewrite Hnow, (same_now _ _ Hhit)| |].
      * intros p s Hp Hs. apply Hst; [|done]. by apply (same_tables_state w).
      * intros l due Hl.
        assert (Hl1 : in_flight w1 l due) by by apply (same_tables_in_flight w).
        destruct (Hfl l due Hl1) as [Hyes Hno]. split.
        -- intros Hr [Heq|?]%elem_of_cons; [|by apply Hyes].
           assert (l0 = l) as ->; [|congruence].
           apply (NoDup_fmap_eq l_dispatch (w_listeners w));
             [apply Hwf|done|apply Hl|congruence].
        -- intros [?|Hnot]; apply Hno; [by left|].
           destruct (is_response (l_command l) data) eqn:Hr; [right|by left].
           intros ?. apply Hnot. rewrite fmap_cons. apply elem_of_cons. by right.
  - (* the listener of [x] has been removed *)
    assert (w1 = w) as Hw1.
    { apply Hmiss. intros l Hl Heq. apply Hnin. rewrite <- Heq.
      by apply list_elem_of_fmap_2. }
    rewrite Hw1. destruct (IH w Hwf) as (Hwf' & Hnow & Hst & Hfl).
    split_and!; try done. intros l due Hl.
    destruct (Hfl l due Hl) as [Hyes Hno].
    assert (l_dispatch l ≠ l_dispatch x).
    { intros Heq. apply Hnin. rewrite <- Heq. apply list_elem_of_fmap_2, Hl. }
    split.
    + intros Hr [?|?]%elem_of_cons; [done|by apply Hyes].
    + intros [?|Hnot]; apply Hno; [by left|right].
      intros ?. apply Hnot. rewrite fmap_cons. apply elem_of_cons. by right.
Qed.

(** *** Time passes: every due timer has its turn *)

Lemma fold_fire_timer ts w :
  wf w →
  let w' := fold_left fire_timer ts w in
  wf w' ∧ w_now w' = w_now w ∧
  (∀ p s, promise_state w p = Some s → s ≠ Pending →
          promise_state w' p = Some s) ∧
  (∀ l due, in_flight w l due →
     (l_timeout l ∈ t_handle <$> ts →
      promise_state w' (l_dispatch l) = Some (Rejected timeout_error)) ∧
     (l_timeout l ∉ t_handle <$> ts → in_flight w' l due)).
Proof.
  revert w. induction ts as [|x ts IH]; intros w Hwf; cbn [fold_left].
  { split_and!; try done. intros l due Hfl. split; [|done].
    by intros ?%elem_of_nil. }
  set (w1 := fire_timer w x).
  destruct (fire_timer_spec w x Hwf) as [Hhit Hmiss].
  fold w1 in Hhit, Hmiss.
  destruct (decide (t_handle x ∈ t_handle <$> w_timers w)) as [Hin|Hnin].
  - apply list_elem_of_fmap in Hin as (t0 & Hh & Ht0).
    destruct (wf_timer w Hwf t0 Ht0) as (_ & _ & l0 & Hl0 & Hd0 & Hto0).
    specialize (Hhit l0 Hl0 (eq_trans Hto0 (eq_sym Hh))).
    assert (Hwf1 : wf w1).
    { apply (retires_wf w w1 l0 (Rejected timeout_error)); try done.
      by intros e [= <-]. }
    destruct (IH w1 Hwf1) as (Hwf' & Hnow & Hst & Hfl).
    split_and!; [done|by rewrite Hnow, (retires_now _ _ _ _ Hhit)| |].
    + intros p s Hp Hs. apply Hst; [|done].
      by apply (retires_state w w1 l0 (Rejected timeout_error)).
    + intros l due Hl.
      destruct (decide (l_timeout l0 = l_timeout l)) as [Heq|Hne].
      * assert (l0 = l) as -> by (by apply (wf_timeout_inj w); [..|apply Hl|]).
        split.
        -- intros _. apply Hst; [|done]. by apply (retires_self w).
        -- intros Hnot. destruct Hnot.
           rewrite fmap_cons. apply elem_of_cons. left. congruence.
      * assert (Hl1 : in_flight w1 l due).
        { apply (retires_in_flight w w1 l0 (Rejected timeout_error));
            try done.
          intros Heq. apply Hne. f_equal.
          apply (NoDup_fmap_eq l_dispatch (w_listeners w));
            [apply Hwf|done|apply Hl|done]. }
        destruct (Hfl l due Hl1) as [Hyes Hno]. split.
        -- intros [?|?]%elem_of_cons; [congruence|by apply Hyes].
        -- intros Hnot. apply Hno. intros ?. apply Hnot.
           rewrite fmap_cons. apply elem_of_cons. by right.
  - assert (w1 = w) as Hw1.
    { apply Hmiss. intros t Ht Heq. apply Hnin. rewrite <- Heq.
      by apply list_elem_of_fmap_2. }
    rewrite Hw1. destruct (IH w Hwf) as (Hwf' & Hnow & Hst & Hfl).
    split_and!; try done. intros l due Hl.
    destruct (Hfl l due Hl) as [Hyes Hno].
    assert (l_timeout l ≠ t_handle x).
    { intros Heq. apply Hnin. rewrite <- Heq.
      apply (list_elem_of_fmap_2 t_handle _ _ (proj2 Hl)). }
    split.
    + intros [?|?]%elem_of_cons; [done|by apply Hyes].
    + intros Hnot. apply Hno. intros ?. apply Hnot.
      rewrite fmap_cons. apply elem_of_cons. by right.
Qed.

(** A dispatch in flight when time passes: its timer fires exactly when
    the clock reaches its due time. *)
Lemma advance_spec dt w :
  wf w →
  let w' := advance dt w in
  wf w' ∧ w_now w' = w_now w + dt ∧
  (∀ p s, promise_state w p = Some s → s ≠ Pending →
          promise_state w' p = Some s) ∧
  (∀ l due, in_flight w l due →
     (due ≤ w_now w + dt →
      promise_state w' (l_dispatch l) = Some (Rejected timeout_error)) ∧
     (w_now w + dt < due → in_flight w' l due)).
Proof.
  intros Hwf. unfold advance.
  set (w0 := set_now (w_now w + dt) w).
  assert (Hwf0 : wf w0) by (apply wf_set_now; [done|lia]).
  destruct (fold_fire_timer
              (filter (λ t, t_due t ≤ w_now w0) (w_timers w0)) w0 Hwf0)
    as (Hwf' & Hnow & Hst & Hfl).
  split_and!; try done. intros l due Hl.
  destruct (Hfl l due Hl) as [Hyes Hno]. split.
  - intros Hdue. apply Hyes.
    apply (list_elem_of_fmap_2 t_handle _
             {| t_handle := l_timeout l; t_due := due;
                t_dispatch := l_dispatch l |}).
    apply list_elem_of_filter. split; [done|apply Hl].
  - intros Hlt. apply Hno.
    intros (t & Hh & [Hdue Ht]%list_elem_of_filter)%list_elem_of_fmap.
    rewrite (in_flight_timer w0 l due t) in Hdue by done.
    cbn in Hdue. lia.
Qed.

(** A message event, for a dispatch in flight. *)
Lemma dispatch_message_spec data w :
  wf w →
  let w' := dispatch_message data w in
  wf w' ∧ w_now w' = w_now w ∧
  (∀ p s, promise_state w p = Some s → s ≠ Pending →
          promise_state w' p = Some s) ∧
  (∀ l due, in_flight w l due →
     if is_response (l_command l) data
     then promise_state w' (l_dispatch l) = Some Fulfilled
     else in_flight w' l due).
Proof.
  intros Hwf. unfold dispatch_message.
  destruct (fold_invoke_listener data (w_listeners w) w Hwf)
    as (Hwf' & Hnow & Hst & Hfl).
  split_and!; try done. intros l due Hl.
  destruct (Hfl l due Hl) as [Hyes Hno].
  destruct (is_response (l_command l) data).
  - apply Hyes; [done|]. apply list_elem_of_fmap_2, Hl.
  - apply Hno. by left.
Qed.

(** *** Every event keeps the invariant *)

Lemma step_spec w ev :
  wf w →
  let w' := step uuid w ev in
  wf w' ∧
  w_now w' = w_now w + match ev with Advance dt => dt | _ => 0 end ∧
  (∀ p s, promise_state w p = Some s → s ≠ Pending →
          promise_state w' p = Some s) ∧
  (∀ l due, in_flight w l due →
     match ev with
     | Message data =>
         if is_response (l_command l) data
         then promise_state w' (l_dispatch l) = Some Fulfilled
         else in_flight w' l due
     | Advance dt =>
         (due ≤ w_now w + dt →
          promise_state w' (l_dispatch l) = Some (Rejected timeout_error)) ∧
         (w_now w + dt < due → in_flight w' l due)
     | _ => in_flight w' l due
     end).
Proof.
  intros Hwf.
  destruct ev as [data|dt|o entries| | |options|options|c] eqn:Hev.
  1: { destruct (dispatch_message_spec data w Hwf) as (? & ? & ? & ?).
       cbn [step]. split_and!; try done. lia. }
  1: { by apply advance_spec. }
  all: pose proof (other_event_kind w ev (wf_quiet w Hwf)) as Hkind;
    rewrite Hev in Hkind; cbv zeta; rewrite N.add_0_r;
    destruct Hkind as [Hsame|[l0 Hstart]].
  all: try (split_and!;
            [by apply (same_tables_wf w)|by apply same_now|
             intros p s Hp _; by apply (same_tables_state w)|
             intros l due Hl; by apply (same_tables_in_flight w)]).
  all: split_and!;
         [by apply (starts_wf w _ l0)|by apply (starts_now l0)|
          intros p s Hp _; by apply (starts_state w _ l0)|
          intros l due Hl; by apply (starts_in_flight w _ l0)].
Qed.

Lemma step_wf w ev : wf w → wf (step uuid w ev).
Proof. intros Hwf. apply (step_spec w ev Hwf). Qed.

Lemma run_wf evs w : wf w → wf (run uuid evs w).
Proof.
  revert w. induction evs as [|ev evs IH]; intros w Hwf; [done|].
  apply IH. by apply step_wf.
Qed.

Lemma run_settled evs w p s :
  wf w → promise_state w p = Some s → s ≠ Pending →
  promise_state (run uuid evs w) p = Some s.
Proof.
  revert w. induction evs as [|ev evs IH]; intros w Hwf Hp Hs; [done|].
  cbn. apply IH; [by apply step_wf| |done].
  by apply (step_spec w ev Hwf).
Qed.

(** *** The fate of a dispatch in flight *)

Lemma outcome_cons c budget ev evs :
  outcome c budget (ev :: evs)
  = match ev with
    | Message data =>
        if is_response c data then Acknowledged else outcome c budget evs
    | Advance dt =>
        if budget <=? dt then TimedOut else outcome c (budget - dt) evs
    | _ => outcome c budget evs
    end.
Proof.
  unfold outcome. destruct ev; cbn [answered_within elapsed foldr]; try done.
  - by destruct (is_response c data).
  - fold (elapsed evs). destruct (N.leb_spec budget dt) as [Hle|Hlt].
    + by rewrite (proj2 (N.leb_le budget (dt + elapsed evs))) by lia.
    + destruct (answered_within c (budget - dt) evs); [done|].
      destruct (N.leb_spec (budget - dt) (elapsed evs)).
      * by rewrite (proj2 (N.leb_le budget (dt + elapsed evs))) by lia.
      * by rewrite (proj2 (N.leb_gt budget (dt + elapsed evs))) by lia.
Qed.

Lemma run_in_flight evs w l due :
  wf w → in_flight w l due → w_now w < due →
  let w' := run uuid evs w in
  wf w' ∧
  match outcome (l_command l) (due - w_now w) evs with
  | Acknowledged => promise_state w' (l_dispatch l) = Some Fulfilled
  | TimedOut =>
      promise_state w' (l_dispatch l) = Some (Rejected timeout_error)
  | StillPending =>
      in_flight w' l due ∧ w_now w' = w_now w + elapsed evs
      ∧ w_now w' < due
  end.
Proof.
  intros Hwf Hfl Hlt. split; [by apply run_wf|].
  revert w Hwf Hfl Hlt. induction evs as [|ev evs IH]; intros w Hwf Hfl Hlt.
  { cbn. unfold outcome; cbn.
    destruct (N.leb_spec (due - w_now w) 0); [lia|split_and!; [done|lia|lia]]. }
  rewrite outcome_cons. cbn [run fold_left]. fold (run uuid evs (step uuid w ev)).
  destruct (step_spec w ev Hwf) as (Hwf1 & Hnow & Hst & Hstep).
  specialize (Hstep l due Hfl).
  destruct ev as [data|dt|o entries| | |options|options|c].
  2: { destruct Hstep as [Hfire Hkeep].
       destruct (N.leb_spec (due - w_now w) dt) as [Hle|Hgt].
       - apply run_settled; [done| |done]. apply Hfire. lia.
       - assert (Hlt1 : w_now w + dt < due) by lia.
         specialize (IH _ Hwf1 (Hkeep Hlt1)). rewrite Hnow in IH.
         specialize (IH Hlt1).
         replace (due - (w_now w + dt)) with (due - w_now w - dt) in IH by lia.
         destruct (outcome _ _ evs); try done.
         cbn [elapsed foldr]. fold (elapsed evs).
         destruct IH as (? & ? & ?). split_and!; [done|lia|done]. }
  1: destruct (is_response (l_command l) data); [by apply run_settled|].
  all: rewrite N.add_0_r in Hnow;
    specialize (IH _ Hwf1 Hstep); rewrite Hnow in IH; specialize (IH Hlt);
    by destruct (outcome _ _ evs).
Qed.

Lemma dispatched_starts height handler w :
  w_microtasks w = [] →
  starts (new_listener height w) w (dispatched height handler w).
Proof.
  intros Hq. unfold dispatched, sendResizeCommand, promise_catch; cbn.
  destruct handler as [options|]; cbn.
  - rewrite list_lookup_middle by done.
    split; cbn; try done; [apply insert_timer_perm|].
    intros p. unfold promise_state; cbn.
    rewrite insert_state by (rewrite length_app; cbn; lia).
    destruct (decide _) as [|Hne]; [done|].
    by rewrite lookup_snoc_state, decide_False.
  - split; cbn; try done; [apply insert_timer_perm|].
    intros p. unfold promise_state; cbn. apply lookup_snoc_state.
Qed.

Lemma dispatched_in_flight height handler w :
  w_microtasks w = [] →
  in_flight (dispatched height handler w) (new_listener height w)
    (w_now w + 20000).
Proof.
  intros Hq. destruct (dispatched_starts height handler w Hq). split.
  - rewrite starts_listeners0. apply elem_of_app. right.
    by apply list_elem_of_singleton.
  - rewrite starts_timers0. apply elem_of_cons. by left.
Qed.

(** The two dispatches of the code are these. *)
Lemma dispatched_is_the_code height w :
  dispatched height None w = (sendResizeCommand uuid height w).2 ∧
  (sendResizeCommand uuid height w).1 = l_dispatch (new_listener height w) ∧
  ∀ options e rest,
    rect_height (contentRect e) = height →
    observer_callback uuid options (e :: rest) w
    = dispatched height (Some options) w.
Proof. split_and!; try done. by intros options e rest <-. Qed.

Lemma filter_none {A} (P : A → Prop) `{∀ x, Decision (P x)} (l : list A) :
  (∀ y, y ∈ l → ¬ P y) → filter P l = [].
Proof.
  induction l as [|a l IH]; intros Hno; [done|].
  rewrite filter_cons, decide_False.
  - apply IH. intros y Hy. apply Hno. apply elem_of_cons. by right.
  - apply Hno. apply elem_of_cons. by left.
Qed.

Lemma filter_unique {A} (P : A → Prop) `{∀ x, Decision (P x)}
    (l : list A) (x : A) :
  NoDup l → x ∈ l → P x → (∀ y, y ∈ l → P y → y = x) →
  filter P l = [x].
Proof.
  induction l as [|a l IH]; [by intros _ ?%elem_of_nil|].
  intros [Ha Hnd]%NoDup_cons Hx HP Huniq. rewrite filter_cons.
  destruct (decide (P a)) as [HPa|HPa].
  - assert (a = x) as -> by (apply Huniq; [apply elem_of_cons; by left|done]).
    f_equal. apply filter_none. intros y Hy HPy.
    assert (y = x) as -> by (apply Huniq; [apply elem_of_cons; by right|done]).
    done.
  - apply elem_of_cons in Hx as [->|Hx]; [done|].
    apply IH; try done. intros y Hy. apply Huniq. apply elem_of_cons. by right.
Qed.

(** The tables hold exactly one listener and one timer for a dispatch in
    flight, and its promise is pending. *)
Lemma in_flight_tables w l due :
  wf w → in_flight w l due →
  promise_state w (l_dispatch l) = Some Pending ∧
  filter (λ x, l_dispatch x = l_dispatch l) (w_listeners w) = [l] ∧
  filter (λ t, t_dispatch t = l_dispatch l) (w_timers w)
  = [{| t_handle := l_timeout l; t_due := due; t_dispatch := l_dispatch l |}].
Proof.
  intros Hwf [Hl Ht]. split_and!.
  - apply (wf_listener w Hwf l Hl).
  - apply filter_unique; try done.
    + eapply NoDup_fmap_1, Hwf.
    + intros y Hy Hk.
      by apply (NoDup_fmap_eq l_dispatch (w_listeners w)); [apply Hwf|..].
  - apply filter_unique; try done.
    + eapply NoDup_fmap_1, Hwf.
    + intros t Hin Hd.
      destruct (wf_timer w Hwf t Hin) as (_ & _ & x & Hx & Hxd & Hxh).
      assert (x = l) as ->.
      { apply (NoDup_fmap_eq l_dispatch (w_listeners w));
          [apply Hwf|done..|congruence]. }
      by apply (in_flight_timer w l due).
Qed.

(** The tables hold nothing for a settled dispatch. *)
Lemma settled_tables w p s :
  wf w → promise_state w p = Some s → s ≠ Pending →
  filter (λ x, l_dispatch x = p) (w_listeners w) = [] ∧
  filter (λ t, t_dispatch t = p) (w_timers w) = [].
Proof.
  intros Hwf Hp Hs. destruct (wf_settled_clean w p s Hwf Hp Hs) as [Hl Ht].
  split; by apply filter_none.
Qed.

Lemma strict_equals_string (x : string) (v : Value) :
  strict_equals (VString x) v = true ↔ v = VString x.
Proof.
  destruct v; cbn; try (split; [done|by intros [=]]).
  rewrite String.eqb_eq. split; [by intros ->|by intros [= ->]].
Qed.

Lemma is_response_spec c data :
  is_response c data = true ↔ acknowledges c data.
Proof.
  unfold is_response, acknowledges.
  destruct (get_property data "receiver") as [r|];
    [|split; [done|by intros [[=] _]]].
  destruct (get_property data "correspondingCommandId") as [i|];
    [|split; [done|by intros [_ [=]]]].
  rewrite andb_true_iff, !strict_equals_string.
  split; [by intros [-> ->]|by intros [[= ->] [= ->]]].
Qed.

(** A well-typed response acknowledges [c] exactly when its [receiver] is
    the command's [sender] and its [correspondingCommandId] the command's
    [id]; its other fields play no part. *)
Lemma acknowledges_response c r :
  acknowledges c (response_data r) ↔
  r_receiver r = c_sender c ∧ r_correspondingCommandId r = c_id c.
Proof.
  unfold acknowledges, response_data; cbn. split.
  - intros [[= Hr] [= Hi]]. split; [|done].
    by destruct (r_receiver r), (c_sender c).
  - by intros [-> ->].
Qed.

(** ** The dispatcher *)

(** C1.  In any state the page can reach, for a dispatch in flight and any
    message that arrives: the dispatch is resolved exactly when the
    message's [receiver] is the command's [sender], which is ['child'],
    and its [correspondingCommandId] is the command's [id].  Any other
    message leaves the dispatch as it was: pending, its listener
    registered, its timer armed.  With two dispatches in flight, the
    acknowledgment of one is none of the other, which stays in flight and
    is rejected with the timeout error once the clock reaches its due
    time, at most 20000 ms away. *)
Theorem listener_resolves_exactly_its_response rs body evs l due data :
  let w := run uuid evs (initial_world rs body) in
  let w' := dispatch_message data w in
  in_flight w l due →
  participant_string (c_sender (l_command l)) = "child" ∧
  promise_state w (l_dispatch l) = Some Pending ∧
  (promise_state w' (l_dispatch l) = Some Fulfilled
   ↔ acknowledges (l_command l) data) ∧
  (∀ r : CommandResponse,
     acknowledges (l_command l) (response_data r)
     ↔ r_receiver r = c_sender (l_command l)
       ∧ r_correspondingCommandId r = c_id (l_command l)) ∧
  (¬ acknowledges (l_command l) data →
   promise_state w' (l_dispatch l) = Some Pending ∧ in_flight w' l due) ∧
  (∀ l2 due2,
     in_flight w l2 due2 → l_dispatch l2 ≠ l_dispatch l →
     acknowledges (l_command l) data →
     ¬ acknowledges (l_command l2) data ∧
     promise_state w' (l_dispatch l) = Some Fulfilled ∧
     promise_state w' (l_dispatch l2) = Some Pending ∧
     in_flight w' l2 due2 ∧
     due2 ≤ w_now w' + 20000 ∧
     ∀ dt, due2 ≤ w_now w' + dt →
       promise_state (advance dt w') (l_dispatch l2)
       = Some (Rejected timeout_error)).
Proof.
  intros w w' Hfl.
  assert (Hwf : wf w) by apply run_wf, wf_initial.
  destruct (dispatch_message_spec data w Hwf) as (Hwf' & Hnow & Hst & Hmsg).
  fold w' in Hwf', Hnow, Hst, Hmsg.
  pose proof (Hmsg l due Hfl) as Hl.
  assert (Hkeep : ∀ x duex, in_flight w x duex →
            ¬ acknowledges (l_command x) data →
            promise_state w' (l_dispatch x) = Some Pending
            ∧ in_flight w' x duex).
  { intros x duex Hx Hnack. specialize (Hmsg x duex Hx).
    destruct (is_response (l_command x) data) eqn:Hresp.
    - by apply is_response_spec in Hresp.
    - split; [|done]. apply (wf_listener w' Hwf' x), Hmsg. }
  split_and!.
  - by rewrite (wf_sender w Hwf l (proj1 Hfl)).
  - apply (wf_listener w Hwf l), Hfl.
  - split.
    + intros Hful. apply is_response_spec.
      destruct (is_response (l_command l) data) eqn:Hresp; [done|].
      destruct (Hkeep l due Hfl) as [Hpend _]; [|congruence].
      intros Hack%is_response_spec. congruence.
    + intros Hack%is_response_spec. by rewrite Hack in Hl.
  - intros r. apply acknowledges_response.
  - by apply Hkeep.
  - intros l2 due2 Hfl2 Hne Hack.
    assert (Hnack : ¬ acknowledges (l_command l2) data).
    { intros [_ Hid2]. destruct Hack as [_ Hid]. apply Hne. f_equal.
      apply (NoDup_fmap_eq (λ x, c_id (l_command x)) (w_listeners w));
        [apply Hwf|apply Hfl2|apply Hfl|]. cbn. congruence. }
    destruct (Hkeep l2 due2 Hfl2 Hnack) as [Hpend2 Hfl2'].
    split_and!; try done.
    + apply is_response_spec in Hack. by rewrite Hack in Hl.
    + apply (wf_timer w' Hwf' _ (proj2 Hfl2')).
    + intros dt Hdt.
      destruct (advance_spec dt w' Hwf') as (_ & _ & _ & Hadv).
      by apply (Hadv l2 due2 Hfl2').
Qed.

(** C3.  A dispatch arms its timer for 20000 ms after the send.  When no
    acknowledgment of its command arrives before 20000 ms have passed,
    the dispatch is still pending while less time has passed, and from
    then on its promise is rejected with the error whose message is
    "Timeout exceeded for command" followed by the command's name,
    "resize", and its listener is gone.  In the timer's callback the
    listener is removed first and the promise rejected after, so the
    rejection reaches the [.catch] handler with the listener removed. *)
Theorem dispatch_times_out_after_20000 rs body evs height handler evs' :
  let w := run uuid evs (initial_world rs body) in
  let l := new_listener height w in
  let p := l_dispatch l in
  let w1 := dispatched height handler w in
  let w2 := run uuid evs' w1 in
  answered_within (l_command l) 20000 evs' = false →
  in_flight w1 l (w_now w + 20000) ∧
  (elapsed evs' < 20000 →
   promise_state w2 p = Some Pending ∧ in_flight w2 l (w_now w + 20000)) ∧
  (20000 ≤ elapsed evs' →
   promise_state w2 p = Some (Rejected timeout_error) ∧
   (∀ x, x ∈ w_listeners w2 → l_dispatch x ≠ p)) ∧
  message timeout_error
  = String.append "Timeout exceeded for command " (c_name (l_command l)) ∧
  (∀ x, timeout_callback p x
        = reject p timeout_error (removeEventListener_message p x) ∧
        (∀ y, y ∈ w_listeners (removeEventListener_message p x) →
              l_dispatch y ≠ p) ∧
        w_microtasks (removeEventListener_message p x) = w_microtasks x ∧
        w_trace (removeEventListener_message p x) = w_trace x).
Proof.
  intros w l p w1 w2 Hno.
  assert (Hwf : wf w) by apply run_wf, wf_initial.
  pose proof (dispatched_starts height handler w (wf_quiet w Hwf)) as Hstart.
  pose proof (dispatched_in_flight height handler w (wf_quiet w Hwf)) as Hfl.
  fold w1 in Hstart, Hfl. fold l in Hstart, Hfl.
  assert (Hwf1 : wf w1) by by apply (starts_wf w w1 l).
  assert (Hnow1 : w_now w1 = w_now w) by apply Hstart.
  destruct (run_in_flight evs' w1 l (w_now w + 20000) Hwf1 Hfl) as [Hwf2 Hout];
    [lia|].
  fold w2 in Hwf2, Hout.
  replace (w_now w + 20000 - w_now w1) with 20000 in Hout by lia.
  unfold outcome in Hout. rewrite Hno in Hout.
  split_and!; try done.
  - intros Hlt. rewrite (proj2 (N.leb_gt _ _) Hlt) in Hout.
    destruct Hout as (Hfl2 & _). split; [|done].
    apply (wf_listener w2 Hwf2 l), Hfl2.
  - intros Hle. rewrite (proj2 (N.leb_le _ _) Hle) in Hout. split; [done|].
    by apply (wf_settled_clean w2 p _ Hwf2 Hout).
  - intros x. split_and!; try done.
    intros y [Hy _]%list_elem_of_filter. done.
Qed.

(** C4.  From the send on, whatever events follow, a dispatch is in
    exactly one of three states, and which one is decided by the events:
    waiting (promise pending, exactly one listener and one timer of its
    own in the tables), acknowledged (promise fulfilled, no listener and
    no timer left) or timed out (promise rejected with the timeout error,
    no listener and no timer left).  Once 20000 ms have passed it is no
    longer waiting.  Once it is acknowledged or timed out, no later event
    changes its promise, an acknowledgment that arrives after the timeout
    included. *)
Theorem exactly_one_outcome rs body evs height handler evs' :
  let w := run uuid evs (initial_world rs body) in
  let l := new_listener height w in
  let p := l_dispatch l in
  let w1 := dispatched height handler w in
  let t := {| t_handle := l_timeout l; t_due := w_now w + 20000;
              t_dispatch := p |} in
  let w2 := run uuid evs' w1 in
  let listeners := filter (λ x, l_dispatch x = p) (w_listeners w2) in
  let timers := filter (λ x, t_dispatch x = p) (w_timers w2) in
  match outcome (l_command l) 20000 evs' with
  | StillPending =>
      promise_state w2 p = Some Pending ∧ listeners = [l] ∧ timers = [t]
  | Acknowledged =>
      promise_state w2 p = Some Fulfilled ∧ listeners = [] ∧ timers = []
  | TimedOut =>
      promise_state w2 p = Some (Rejected timeout_error)
      ∧ listeners = [] ∧ timers = []
  end ∧
  (20000 ≤ elapsed evs' → outcome (l_command l) 20000 evs' ≠ StillPending) ∧
  (outcome (l_command l) 20000 evs' ≠ StillPending →
   ∀ evs'', promise_state (run uuid evs'' w2) p = promise_state w2 p).
Proof.
  intros w l p w1 t w2 listeners timers.
  assert (Hwf : wf w) by apply run_wf, wf_initial.
  pose proof (dispatched_starts height handler w (wf_quiet w Hwf)) as Hstart.
  pose proof (dispatched_in_flight height handler w (wf_quiet w Hwf)) as Hfl.
  fold w1 in Hstart, Hfl. fold l in Hstart, Hfl.
  assert (Hwf1 : wf w1) by by apply (starts_wf w w1 l).
  assert (Hnow1 : w_now w1 = w_now w) by apply Hstart.
  destruct (run_in_flight evs' w1 l (w_now w + 20000) Hwf1 Hfl) as [Hwf2 Hout];
    [lia|].
  fold w2 in Hwf2, Hout.
  replace (w_now w + 20000 - w_now w1) with 20000 in Hout by lia.
  split_and!.
  - destruct (outcome (l_command l) 20000 evs').
    + destruct Hout as (Hfl2 & _).
      exact (in_flight_tables w2 l _ Hwf2 Hfl2).
    + split; [done|]. by apply (settled_tables w2 p Fulfilled).
    + split; [done|]. by apply (settled_tables w2 p (Rejected timeout_error)).
  - intros Hle. unfold outcome.
    destruct (answered_within _ _ _); [done|].
    by rewrite (proj2 (N.leb_le _ _) Hle).
  - intros Hset evs''.
    change (l_dispatch l) with p in Hout.
    destruct (outcome (l_command l) 20000 evs'); [done|..];
      rewrite Hout; by apply run_settled.
Qed.

(** C2.  For every height, whatever double it is, [sendResizeCommand]
    builds the command with sender ['child'], receiver ['parent'], name
    "resize", payload [[[height]]] and the identifier it draws from the
    generator at that moment, registers its listener for that command
    and posts that command with target origin ['*'].  The generator moves
    on; in a state the page can reach the identifier differs from every
    identifier drawn before and from that of every command in flight. *)
Theorem sendResizeCommand_posts_resize_command height w :
  let c := {| c_id := (uuidv4 uuid w).1; c_sender := CHILD;
              c_receiver := PARENT; c_name := "resize";
              c_payload := [[VNumber height]] |} in
  let p := (sendResizeCommand uuid height w).1 in
  let w1 := (sendResizeCommand uuid height w).2 in
  participant_string (c_sender c) = "child" ∧
  participant_string (c_receiver c) = "parent" ∧
  w_trace w1 = w_trace w ++ [PostMessage c "*"] ∧
  w_listeners w1
  = w_listeners w ++ [{| l_dispatch := p; l_command := c;
                         l_timeout := w_next_timer w |}] ∧
  c_id c = uuid (w_uuids w) ∧ w_uuids w1 = S (w_uuids w) ∧
  (∀ k, (k < w_uuids w)%nat → uuid k ≠ c_id c) ∧
  (∀ rs body evs, w = run uuid evs (initial_world rs body) →
     ∀ l, l ∈ w_listeners w → c_id (l_command l) ≠ c_id c).
Proof.
  intros c p w1. split_and!; try done.
  - intros k Hk Heq. apply uuid_inj in Heq. cbn in Heq. lia.
  - intros rs body evs -> l Hl Heq.
    assert (Hwf : wf (run uuid evs (initial_world rs body)))
      by apply run_wf, wf_initial.
    destruct (wf_drawn _ Hwf l Hl) as (k & Hk & Hid).
    rewrite Hid in Heq. apply uuid_inj in Heq. cbn in Heq. lia.
Qed.

End Invariant.

(** ** The observer bridge *)

Section Bridge.

Variable uuid : nat → string.

(** C5.  An empty batch leaves everything as it is: no command, no
    promise, no listener, no timer.  A batch with a first entry makes
    exactly one dispatch, for [contentRect.height] of that entry: the
    callback is [sendResizeCommand] of that height followed by [.catch],
    one command is posted and its payload is that height.  The entries
    after the first and the border box of the first play no part. *)
Theorem observer_callback_first_entry options w :
  observer_callback uuid options [] w = w ∧
  ∀ e rest,
    let h := rect_height (contentRect e) in
    let w' := observer_callback uuid options (e :: rest) w in
    w' = promise_catch (sendResizeCommand uuid h w).1 options
           (sendResizeCommand uuid h w).2 ∧
    w_trace w'
    = w_trace w ++
      [PostMessage {| c_id := uuid (w_uuids w); c_sender := CHILD;
                      c_receiver := PARENT; c_name := "resize";
                      c_payload := [[VNumber h]] |} "*"] ∧
    length (w_promises w') = S (length (w_promises w)) ∧
    length (w_listeners w') = S (length (w_listeners w)) ∧
    w' = observer_callback uuid options [e] w ∧
    (∀ e' rest', contentRect e' = contentRect e →
       observer_callback uuid options (e' :: rest') w = w').
Proof.
  split; [done|]. intros e rest h w'.
  assert (Hpost : w_trace w'
    = w_trace w ++
      [PostMessage {| c_id := uuid (w_uuids w); c_sender := CHILD;
                      c_receiver := PARENT; c_name := "resize";
                      c_payload := [[VNumber h]] |} "*"] ∧
    length (w_promises w') = S (length (w_promises w)) ∧
    length (w_listeners w') = S (length (w_listeners w))).
  { subst w'. unfold observer_callback, sendResizeCommand, promise_catch; cbn.
    rewrite list_lookup_middle by done. cbn.
    rewrite length_insert, !length_app. cbn. split_and!; [done|lia|lia]. }
  destruct Hpost as (? & ? & ?). split_and!; try done.
  intros e' rest' Hrect. subst w' h. unfold observer_callback.
  by rewrite Hrect.
Qed.

(** C6.  The handler the bridge attaches to a dispatch is queued when
    the dispatch is rejected.  When it runs, with [onError] returning if
    it is there, it writes the warning with the error's message, then
    calls [onError] with the error if it is there, then [captureError]
    with the error if it is there, in that order, and changes nothing of
    the page but this record of calls.  With neither hook the warning is
    all there is. *)
Theorem failure_is_logged_then_hooks options error w :
  hook_returns (onError options) error →
  let w' := run_job (CatchJob options error) w in
  (∃ tail,
     w_trace w'
     = w_trace w ++ [ConsoleWarn (message error)]
       ++ hook_call (onError options) error
       ++ hook_call (captureError options) error ++ tail ∧
     tail = match captureError options with
            | Some h => match hook_run h error with
                        | Normal => []
                        | Throw => [UnhandledRejection]
                        end
            | None => []
            end) ∧
  w' = set_trace (w_trace w') w ∧
  (onError options = None → captureError options = None →
   w' = console_warn (message error) w) ∧
  (∀ e rest,
     let p := length (w_promises w) in
     let w1 := observer_callback uuid options (e :: rest) w in
     w_promises w1 !! p
     = Some {| p_state := Pending; p_catch := Some options |} ∧
     w_microtasks (reject p error w1)
     = w_microtasks w ++ [CatchJob options error] ∧
     promise_state (reject p error w1) p = Some (Rejected error)).
Proof.
  intros Hret w'. subst w'. rewrite run_job_eq.
  destruct options as [[h1|] [h2|]]; cbn in Hret |- *; rewrite ?Hret.
  all: split_and!;
    [eexists; split; [reflexivity|done]|done|by intros|].
  all: intros e rest;
    unfold observer_callback, sendResizeCommand, promise_catch, reject,
      promise_state; cbn;
    rewrite list_lookup_middle by done; cbn;
    rewrite !list_lookup_insert_eq by (rewrite ?length_insert, length_app; cbn; lia);
    cbn; rewrite list_lookup_insert_eq
      by (rewrite ?length_insert, length_app; cbn; lia);
    done.
Qed.

End Bridge.

(** ** The lifecycle entry points *)

Lemma initIFrameResizing_browser_spec options w :
  let o := length (w_observers w) in
  let r := initIFrameResizing_browser options w in
  r.1 = Disconnect o ∧
  w_observers r.2
  = w_observers w ++ [{| o_options := options; o_targets := body_targets w |}] ∧
  w_body r.2 = w_body w ∧ w_cells r.2 = w_cells w ∧
  w_readyState r.2 = w_readyState w ∧
  w_ready_listeners r.2 = w_ready_listeners w ∧
  w_microtasks r.2 = w_microtasks w.
Proof.
  unfold initIFrameResizing_browser, body_targets; cbn.
  destruct (w_body w) eqn:Hb; cbn; split_and!; try done.
  by rewrite alter_app_r_alt, Nat.sub_diag by done.
Qed.

Lemma ready_turn_spec rl x :
  let x' := run_microtasks (ready_listener rl x) in
  w_observers x'
  = w_observers x ++ [{| o_options := rl_options rl;
                         o_targets := body_targets x |}] ∧
  w_cells x' = <[rl_cell rl := Disconnect (length (w_observers x))]> (w_cells x) ∧
  w_body x' = w_body x ∧ w_readyState x' = w_readyState x ∧
  w_ready_listeners x' = w_ready_listeners x.
Proof.
  cbv zeta. rewrite run_microtasks_eq. unfold ready_listener.
  destruct (initIFrameResizing_browser_spec (rl_options rl) x)
    as (Hc & Ho & Hb & Hcells & Hrs & Hrl & _).
  destruct (initIFrameResizing_browser (rl_options rl) x) as [f x1].
  cbn in *. subst f. by rewrite Hcells.
Qed.

Lemma ready_fold_frame rls x :
  let x' := fold_left (λ w l, run_microtasks (ready_listener l w)) rls x in
  w_body x' = w_body x ∧ length (w_cells x') = length (w_cells x) ∧
  w_readyState x' = w_readyState x ∧
  w_ready_listeners x' = w_ready_listeners x.
Proof.
  revert x. induction rls as [|rl rls IH]; intros x; [done|].
  cbn [fold_left]. destruct (IH (run_microtasks (ready_listener rl x)))
    as (Hb & Hc & Hrs & Hrl).
  destruct (ready_turn_spec rl x) as (_ & Hcells & Hb' & Hrs' & Hrl').
  cbv zeta. rewrite Hb, Hc, Hrs, Hrl, Hb', Hrs', Hrl', Hcells.
  by rewrite length_insert.
Qed.

(** The ready event on a page where [autoInitIFrameResizing] was the last
    to add a listener: that listener runs last. *)
Lemma fire_DOMContentLoaded_last w rl :
  w_readyState w = Loading →
  w_ready_listeners w = removelast (w_ready_listeners w) ++ [rl] →
  (rl_cell rl < length (w_cells w))%nat →
  let w3 := fire_DOMContentLoaded w in
  w_readyState w3 = Interactive ∧
  fire_DOMContentLoaded w3 = w3 ∧
  ∃ o, w_cells w3 !! rl_cell rl = Some (Disconnect o) ∧
       w_observers w3 !! o
       = Some {| o_options := rl_options rl; o_targets := body_targets w |}.
Proof.
  intros Hrs Hlast Hcell. unfold fire_DOMContentLoaded at 1 2. rewrite Hrs.
  rewrite Hlast, fold_left_app. cbn [fold_left].
  set (x := fold_left _ (removelast _) _).
  destruct (ready_fold_frame (removelast (w_ready_listeners w))
              (set_readyState Interactive w)) as (Hb & Hc & Hrs' & _).
  fold x in Hb, Hc, Hrs'. cbn in Hb, Hc, Hrs'.
  destruct (ready_turn_spec rl x) as (Ho & Hcells & _ & Hrs3 & _).
  cbv zeta in Ho, Hcells, Hrs3.
  split_and!.
  - by rewrite Hrs3.
  - unfold fire_DOMContentLoaded. by rewrite Hrs3, Hrs'.
  - exists (length (w_observers x)). split.
    + rewrite Hcells. apply list_lookup_insert_eq. lia.
    + rewrite Ho, list_lookup_middle by done.
      unfold body_targets. by rewrite Hb.
Qed.

(** C7.  In a browser, [autoInitIFrameResizing] looks at
    [document.readyState].  While it is ['loading'] it makes no observer
    and attaches none: it adds one [DOMContentLoaded] listener and returns
    the function that calls the variable [cleanup].  That listener, when
    it runs, does what [initIFrameResizing] does and stores the function
    it returns in [cleanup]; the ready event leaves the observer attached
    to the body and happens once.  In any other ready state it does what
    [initIFrameResizing] does there and then, and returns its cleanup:
    on return the observer exists and observes the body. *)
Theorem autoInit_defers_while_loading options w :
  let r := autoInitIFrameResizing options (BrowserSide w) in
  match w_readyState w with
  | Loading =>
      let cell := length (w_cells w) in
      let rl := {| rl_options := options; rl_cell := cell |} in
      ∃ w',
        r = (CallVariable cell, BrowserSide w') ∧
        w_observers w' = w_observers w ∧
        w_ready_listeners w' = w_ready_listeners w ++ [rl] ∧
        w_cells w' = w_cells w ++ [NoOp] ∧
        w_trace w' = w_trace w ∧
        (∀ x, ready_listener rl x
              = let fx := initIFrameResizing_browser options x in
                set_cells (<[cell := fx.1]> (w_cells fx.2)) fx.2) ∧
        let w3 := fire_DOMContentLoaded w' in
        w_readyState w3 = Interactive ∧
        fire_DOMContentLoaded w3 = w3 ∧
        ∃ o, w_cells w3 !! cell = Some (Disconnect o) ∧
             w_observers w3 !! o
             = Some {| o_options := options; o_targets := body_targets w |}
  | _ =>
      r = (let fr := initIFrameResizing options (BrowserSide w) in
           (Direct fr.1, fr.2)) ∧
      ∃ w',
        r = (Direct (Disconnect (length (w_observers w))), BrowserSide w') ∧
        w_observers w'
        = w_observers w ++
          [{| o_options := options; o_targets := body_targets w |}]
  end.
Proof.
  intros r. subst r.
  unfold autoInitIFrameResizing, autoInitIFrameResizing_browser,
    initIFrameResizing.
  destruct (initIFrameResizing_browser_spec options w) as (Hc & Ho & _).
  destruct (w_readyState w) eqn:Hrs.
  - cbn. eexists. split; [reflexivity|]. cbn.
    destruct (fire_DOMContentLoaded_last
                (addEventListener_DOMContentLoaded
                   {| rl_options := options; rl_cell := length (w_cells w) |}
                   (set_cells (w_cells w ++ [NoOp]) w))
                {| rl_options := options; rl_cell := length (w_cells w) |})
      as (H1 & H2 & H3);
      [done|by cbn; rewrite removelast_last|cbn; rewrite length_app; cbn; lia|].
    split_and!; done.
  - destruct (initIFrameResizing_browser options w) as [f w1]. cbn in *.
    subst f. split; [done|]. eexists. split; [reflexivity|done].
  - destruct (initIFrameResizing_browser options w) as [f w1]. cbn in *.
    subst f. split; [done|]. eexists. split; [reflexivity|done].
Qed.

(** C8.  The function a deferred [autoInitIFrameResizing] returns reads
    the variable [cleanup] each time it is called.  Called before the
    ready event it finds [() => {}] there and changes nothing; the
    listener stays registered, and the ready event then initializes as if
    the call had not happened: the observer is made and observes the
    body.  Called after the ready event it disconnects that observer. *)
Theorem deferred_cleanup_is_late_bound options w :
  let w0 := set_readyState Loading w in
  let cell := length (w_cells w) in
  let c := (autoInitIFrameResizing_browser options w0).1 in
  let w1 := (autoInitIFrameResizing_browser options w0).2 in
  let w3 := fire_DOMContentLoaded (call_cleanup c w1) in
  c = CallVariable cell ∧
  (∀ x, call_cleanup c x
        = call_init_cleanup (default NoOp (w_cells x !! cell)) x) ∧
  w_cells w1 !! cell = Some NoOp ∧
  call_cleanup c w1 = w1 ∧
  w3 = fire_DOMContentLoaded w1 ∧
  ∃ o, w_cells w3 !! cell = Some (Disconnect o) ∧
       w_observers w3 !! o
       = Some {| o_options := options; o_targets := body_targets w |} ∧
       call_cleanup c w3 = disconnect o w3 ∧
       w_observers (call_cleanup c w3) !! o
       = Some {| o_options := options; o_targets := [] |}.
Proof.
  intros w0 cell c w1 w3.
  assert (Hc : c = CallVariable cell) by done.
  assert (Hcell : w_cells w1 !! cell = Some NoOp).
  { subst w1 cell. cbn. by rewrite list_lookup_middle. }
  assert (Hcall : call_cleanup c w1 = w1).
  { rewrite Hc. cbn [call_cleanup]. by rewrite Hcell. }
  split_and!; try done.
  - subst w3. by rewrite Hcall.
  - subst w3. rewrite Hcall.
    destruct (fire_DOMContentLoaded_last w1
                {| rl_options := options; rl_cell := cell |})
      as (_ & _ & o & Ho1 & Ho2);
      [done|by subst w1; cbn; rewrite removelast_last
      |subst w1 cell; cbn; rewrite length_app; cbn; lia|].
    cbn [rl_cell rl_options] in Ho1, Ho2.
    change (body_targets w1) with (body_targets w) in Ho2.
    exists o. rewrite Hc. cbn [call_cleanup]. rewrite Ho1.
    change (default NoOp (Some (Disconnect o))) with (Disconnect o).
    cbn [call_init_cleanup]. split_and!; try done.
    unfold disconnect. cbn [w_observers set_observers].
    by rewrite list_lookup_alter_eq, Ho2.
Qed.

Lemma disconnect_idempotent o w :
  disconnect o (disconnect o w) = disconnect o w.
Proof.
  unfold disconnect; cbn. unfold set_observers; cbn. f_equal.
  rewrite list_alter_alter_eq. by apply list_alter_ext.
Qed.

Lemma call_cleanup_idempotent c w :
  call_cleanup c (call_cleanup c w) = call_cleanup c w.
Proof.
  destruct c as [[|o]|cell]; cbn; try done.
  - apply disconnect_idempotent.
  - destruct (w_cells w !! cell) as [[|o]|] eqn:Hc; cbn; rewrite ?Hc; cbn;
      try done.
    apply disconnect_idempotent.
Qed.

(** C9.  Calling a cleanup function, whichever entry point returned it
    and wherever it is called, any number of times, comes to the same as
    calling it once.  The call has no way to fail, posts nothing, warns
    of nothing, and touches no listener, timer, promise or queued job;
    without a [window] it does nothing at all.  After an initialization
    that found no body to observe, the call changes nothing. *)
Theorem cleanup_is_idempotent c r n :
  Nat.iter (S n) (call_cleanup_in c) r = call_cleanup_in c r ∧
  match r with
  | ServerSide console => call_cleanup_in c r = r
  | BrowserSide w =>
      let w' := call_cleanup c w in
      w_trace w' = w_trace w ∧ w_listeners w' = w_listeners w ∧
      w_timers w' = w_timers w ∧ w_promises w' = w_promises w ∧
      w_microtasks w' = w_microtasks w ∧ w_cells w' = w_cells w ∧
      w_ready_listeners w' = w_ready_listeners w
  end ∧
  (∀ options w,
     let r0 := initIFrameResizing_browser options (set_body None w) in
     call_cleanup (Direct r0.1) r0.2 = r0.2).
Proof.
  split_and!.
  - induction n as [|n IH]; [done|].
    change (Nat.iter (S (S n)) (call_cleanup_in c) r)
      with (call_cleanup_in c (Nat.iter (S n) (call_cleanup_in c) r)).
    rewrite IH. destruct r as [console|w]; cbn; [done|].
    by rewrite call_cleanup_idempotent.
  - destruct r as [console|w]; [done|].
    destruct c as [[|o]|cell]; cbn; try done.
    by destruct (w_cells w !! cell) as [[|o]|].
  - intros options w. cbn. unfold disconnect, set_observers; cbn. f_equal.
    by rewrite alter_app_r_alt, Nat.sub_diag by done.
Qed.

(** C10.  Loaded where there is a [window], the module sets
    [window.IFrameResizing], whatever it was before, to an object whose
    [init] is [initIFrameResizing] and whose [autoInit] is
    [autoInitIFrameResizing], the exported functions themselves, and
    changes nothing else of the page.  Loaded where there is none, it
    changes nothing. *)
Theorem module_load_sets_the_global :
  (∀ console, load_module (ServerSide console) = ServerSide console) ∧
  ∀ w, ∃ w' ns,
    load_module (BrowserSide w) = BrowserSide w' ∧
    w_namespace w' = Some ns ∧
    ns_init ns = Fn_initIFrameResizing ∧
    ns_autoInit ns = Fn_autoInitIFrameResizing ∧
    (w_now w' = w_now w ∧ w_uuids w' = w_uuids w ∧
     w_next_timer w' = w_next_timer w ∧ w_timers w' = w_timers w ∧
     w_listeners w' = w_listeners w ∧ w_promises w' = w_promises w ∧
     w_microtasks w' = w_microtasks w ∧ w_observers w' = w_observers w ∧
     w_readyState w' = w_readyState w ∧ w_body w' = w_body w ∧
     w_ready_listeners w' = w_ready_listeners w ∧ w_cells w' = w_cells w ∧
     w_trace w' = w_trace w) ∧
    (∀ options r,
       call_exported (ns_init ns) options r
       = let fr := initIFrameResizing options r in (Direct fr.1, fr.2)) ∧
    (∀ options r,
       call_exported (ns_autoInit ns) options r
       = autoInitIFrameResizing options r).
Proof.
  split; [done|]. intros w. eexists _, _. split; [reflexivity|].
  split_and!; try done.
  intros options r. cbn. by destruct (initIFrameResizing options r).
Qed.

(** * More of the code *)

(** ** What one turn of a callback does, in full *)

Lemma run_microtasks_quiet w : w_microtasks w = [] → run_microtasks w = w.
Proof.
  intros Hq. rewrite run_microtasks_eq, Hq. cbn. rewrite app_nil_r.
  destruct w; cbn in *. by subst.
Qed.

Section Turns.

Variable uuid : nat → string.
Hypothesis uuid_inj : Inj (=) (=) uuid.

#[local] Abbreviation wf := (wf uuid).
#[local] Abbreviation wf_listener := (wf_listener uuid).
#[local] Abbreviation wf_timer := (wf_timer uuid).
#[local] Abbreviation wf_pending := (wf_pending uuid).
#[local] Abbreviation wf_quiet := (wf_quiet uuid).
#[local] Abbreviation starts := (starts uuid).
#[local] Abbreviation new_listener := (new_listener uuid).

(** The world after the listener of [l] has taken [data] for its
    response. *)
Lemma invoke_listener_cases data w x :
  wf w →
  let w1 := invoke_listener data w x in
  ((∀ l, l ∈ w_listeners w → l_dispatch l ≠ l_dispatch x) ∧ w1 = w) ∨
  (∃ l, l ∈ w_listeners w ∧ l_dispatch l = l_dispatch x ∧
     is_response (l_command l) data = false ∧
     w1 = match get_property data "receiver" with
          | Some _ => w
          | None => emit UncaughtError w
          end) ∨
  (∃ l k, l ∈ w_listeners w ∧ l_dispatch l = l_dispatch x ∧
     is_response (l_command l) data = true ∧
     w_promises w !! l_dispatch l
     = Some {| p_state := Pending; p_catch := k |} ∧
     w1 = set_promises
            (<[l_dispatch l := {| p_state := Fulfilled; p_catch := k |}]>
               (w_promises w))
            (removeEventListener_message (l_dispatch l)
               (clearTimeout (l_timeout l) w))).
Proof.
  intros Hwf. cbv zeta. unfold invoke_listener.
  destruct (list_find _ _) as [[i l]|] eqn:Hfind.
  - apply list_find_Some in Hfind as (Hin%list_elem_of_lookup_2 & Hkey & _).
    right. destruct (is_response (l_command l) data) eqn:Hresp.
    + right. rewrite listener_match by done.
      destruct (wf_listener w Hwf l Hin) as [Hpend _].
      destruct (lookup_pending w _ Hpend) as [k Hk].
      exists l, k. split_and!; try done.
      unfold resolve; cbn. rewrite Hk.
      apply run_microtasks_quiet. cbn. apply Hwf.
    + left. exists l. split_and!; try done.
      unfold is_response in Hresp. unfold listener.
      destruct (get_property data "receiver") as [r|] eqn:Hr.
      * destruct (strict_equals (VString (participant_string _)) r); cbn.
        -- destruct (get_property data "correspondingCommandId") as [i'|] eqn:Hi.
           ++ cbn in Hresp. rewrite Hresp. cbn.
              apply run_microtasks_quiet, Hwf.
           ++ by destruct data.
        -- apply run_microtasks_quiet, Hwf.
      * apply run_microtasks_quiet. cbn. apply Hwf.
  - apply list_find_None in Hfind. rewrite Forall_forall in Hfind.
    left. split; [|done]. intros l Hl Heq. by destruct (Hfind l Hl).
Qed.

(** The world after a timer has fired. *)
Lemma fire_timer_cases w x :
  wf w →
  let w1 := fire_timer w x in
  ((∀ t, t ∈ w_timers w → t_handle t ≠ t_handle x) ∧ w1 = w) ∨
  (∃ l k, l ∈ w_listeners w ∧ l_timeout l = t_handle x ∧
     w_promises w !! l_dispatch l
     = Some {| p_state := Pending; p_catch := k |} ∧
     w1 = set_trace
            (w_trace w ++
             match k with
             | Some options => job_effects (CatchJob options timeout_error)
             | None => []
             end)
            (set_promises
               (<[l_dispatch l := {| p_state := Rejected timeout_error;
                                     p_catch := k |}]> (w_promises w))
               (removeEventListener_message (l_dispatch l)
                  (clearTimeout (l_timeout l) w)))).
Proof.
  intros Hwf. cbv zeta. unfold fire_timer.
  destruct (list_find _ _) as [[i t]|] eqn:Hfind.
  - apply list_find_Some in Hfind as (Hin%list_elem_of_lookup_2 & Hh & _).
    right. destruct (wf_timer w Hwf t Hin) as (_ & _ & l & Hl & Hd & Hto).
    destruct (wf_listener w Hwf l Hl) as [Hpend _].
    destruct (lookup_pending w _ Hpend) as [k Hk].
    exists l, k. split_and!; try done; [congruence|].
    rewrite <- Hd, <- Hto. unfold timeout_callback, reject; cbn. rewrite Hk.
    rewrite run_microtasks_eq.
    destruct k as [options|]; cbn; rewrite (wf_quiet w Hwf); cbn;
      unfold set_trace, set_promises; cbn; f_equal.
    all: rewrite ?app_nil_r; try done; by rewrite (wf_quiet w Hwf).
  - apply list_find_None in Hfind. rewrite Forall_forall in Hfind.
    left. split; [|done]. intros t Ht Heq. by destruct (Hfind t Ht).
Qed.

End Turns.

(** ** The ledger *)

Lemma posted_app tr1 tr2 : posted (tr1 ++ tr2) = posted tr1 ++ posted tr2.
Proof.
  induction tr1 as [|e tr1 IH]; [done|]. destruct e; cbn; by rewrite ?IH.
Qed.

Lemma count_app {A} (f : A → bool) l1 l2 :
  count f (l1 ++ l2) = (count f l1 + count f l2)%nat.
Proof. unfold count. by rewrite List.filter_app, length_app. Qed.

Lemma count_insert {A} (f : A → bool) (l : list A) i x y :
  l !! i = Some x → f x = false →
  count f (<[i := y]> l) = ((if f y then 1 else 0) + count f l)%nat.
Proof.
  revert i. induction l as [|a l IH]; intros [|i] Hi Hx; try done.
  - injection Hi as ->. unfold count; cbn. rewrite Hx. by destruct (f y).
  - cbn in Hi. specialize (IH i Hi Hx).
    change (<[S i := y]> (a :: l)) with (a :: <[i := y]> l).
    unfold count in *. cbn [List.filter].
    destruct (f a); cbn [length]; rewrite IH; by destruct (f y).
Qed.

Lemma hook_effects_quiet h error rest :
  posted rest = [] → count is_timeout_warning rest = 0%nat →
  posted (hook_effects h error rest) = [] ∧
  count is_timeout_warning (hook_effects h error rest) = 0%nat.
Proof.
  intros Hp Hc. destruct h as [h|]; cbn; [|done].
  by destruct (hook_run h error).
Qed.

(** A run of the [.catch] handler posts nothing and warns once. *)
Lemma job_effects_ledger options :
  posted (job_effects (CatchJob options timeout_error)) = [] ∧
  count is_timeout_warning (job_effects (CatchJob options timeout_error))
  = 1%nat.
Proof.
  cbn [job_effects].
  destruct (hook_effects_quiet (captureError options) timeout_error [])
    as [Hp Hc]; [done..|].
  destruct (hook_effects_quiet (onError options) timeout_error _ Hp Hc)
    as [Hp' Hc'].
  split; [done|]. unfold count in *. cbn. by rewrite Hc'.
Qed.

Section Ledger.

Variable uuid : nat → string.
Hypothesis uuid_inj : Inj (=) (=) uuid.

#[local] Abbreviation wf := (wf uuid).
#[local] Abbreviation wf_listener := (wf_listener uuid).
#[local] Abbreviation wf_timer := (wf_timer uuid).
#[local] Abbreviation wf_quiet := (wf_quiet uuid).
#[local] Abbreviation ledger := (ledger uuid).
#[local] Abbreviation is_resize_post := (is_resize_post uuid).

Lemma invoke_listener_wf data w x : wf w → wf (invoke_listener data w x).
Proof.
  intros Hwf. destruct (invoke_listener_spec uuid data w x Hwf) as [Hhit Hmiss].
  destruct (decide (l_dispatch x ∈ l_dispatch <$> w_listeners w)) as [Hin|Hnin].
  - apply list_elem_of_fmap in Hin as (l & Hkey & Hl).
    specialize (Hhit l Hl (eq_sym Hkey)).
    destruct (is_response (l_command l) data).
    + by apply (retires_wf uuid w _ l Fulfilled).
    + by apply (same_tables_wf uuid w).
  - rewrite Hmiss; [done|]. intros l Hl Heq. apply Hnin. rewrite <- Heq.
    by apply list_elem_of_fmap_2.
Qed.

Lemma fire_timer_wf w x : wf w → wf (fire_timer w x).
Proof.
  intros Hwf. destruct (fire_timer_spec uuid w x Hwf) as [Hhit Hmiss].
  destruct (decide (t_handle x ∈ t_handle <$> w_timers w)) as [Hin|Hnin].
  - apply list_elem_of_fmap in Hin as (t & Hh & Ht).
    destruct (wf_timer w Hwf t Ht) as (_ & _ & l & Hl & _ & Hto).
    apply (retires_wf uuid w _ l (Rejected timeout_error)); try done.
    + by intros e [= <-].
    + apply Hhit; [done|congruence].
  - rewrite Hmiss; [done|]. intros t Ht Heq. apply Hnin. rewrite <- Heq.
    by apply list_elem_of_fmap_2.
Qed.

Lemma ledger_initial rs body : ledger (initial_world rs body).
Proof. split; cbn; try done. all: by intros. Qed.

Lemma ledger_invoke_listener data w x :
  wf w → ledger w → ledger (invoke_listener data w x).
Proof.
  intros Hwf [Hd Hp Hs Hh Hr].
  destruct (invoke_listener_cases uuid data w x Hwf)
    as [[_ ->]|[(l & _ & _ & _ & ->)|(l & k & Hl & _ & _ & Hk & ->)]];
    [done| |].
  - destruct (get_property data "receiver"); [done|].
    split; cbn; rewrite ?posted_app, ?count_app, ?app_nil_r; try done.
    rewrite Hr. unfold count at 2. cbn. lia.
  - split; cbn; rewrite ?length_insert; try done.
    + intros p pr. destruct (decide (p = l_dispatch l)) as [->|Hne].
      * rewrite list_lookup_insert_eq by by eapply lookup_lt_Some.
        intros [= <-]. cbn. by apply (Hh _ _ Hk).
      * rewrite list_lookup_insert_ne by done. apply Hh.
    + by rewrite (count_insert _ _ _ _ _ Hk).
Qed.

Lemma ledger_fire_timer w x : wf w → ledger w → ledger (fire_timer w x).
Proof.
  intros Hwf [Hd Hp Hs Hh Hr].
  destruct (fire_timer_cases uuid w x Hwf)
    as [[_ ->]|(l & k & Hl & _ & Hk & ->)]; [done|].
  destruct (Hh _ _ Hk) as [options Hopt]. cbn in Hopt. subst k.
  destruct (job_effects_ledger options) as [Hjp Hjc].
  split; cbn [w_uuids w_promises w_trace set_trace set_promises
              removeEventListener_message clearTimeout set_listeners
              set_timers];
    rewrite ?length_insert, ?posted_app, ?count_app, ?Hjp, ?Hjc, ?app_nil_r;
    try done.
  - intros p pr. destruct (decide (p = l_dispatch l)) as [->|Hne].
    + rewrite list_lookup_insert_eq by by eapply lookup_lt_Some.
      by intros [= <-].
    + rewrite list_lookup_insert_ne by done. apply Hh.
  - rewrite (count_insert _ _ _ _ _ Hk) by done. cbn. lia.
Qed.

Lemma body_warnings_ledger extra :
  Forall (λ e, e = body_warning) extra →
  posted extra = [] ∧ count is_timeout_warning extra = 0%nat.
Proof.
  induction 1 as [|e extra -> _ [IHp IHc]]; [done|].
  split; [done|]. by rewrite (count_app _ [body_warning] extra), IHc.
Qed.

Lemma lifecycle_step_refl w : w_microtasks w = [] → lifecycle_step w w.
Proof.
  intros Hq. split; try done. exists []. by rewrite app_nil_r.
Qed.

Lemma lifecycle_step_trans w1 w2 w3 :
  lifecycle_step w1 w2 → lifecycle_step w2 w3 → lifecycle_step w1 w3.
Proof.
  intros [Hu Hp (e1 & Ht1 & He1) _] [Hu' Hp' (e2 & Ht2 & He2) Hq].
  split; try congruence. exists (e1 ++ e2). split.
  - by rewrite Ht2, Ht1, app_assoc.
  - by apply Forall_app.
Qed.

Lemma initIFrameResizing_browser_lifecycle options w :
  w_microtasks w = [] →
  lifecycle_step w (initIFrameResizing_browser options w).2.
Proof.
  intros Hq. unfold initIFrameResizing_browser; cbn.
  destruct (w_body w); split; cbn; try done.
  - exists []. by rewrite app_nil_r.
  - exists [body_warning]. split; [done|]. by constructor.
Qed.

Lemma ready_listener_lifecycle l w :
  w_microtasks w = [] →
  lifecycle_step w (run_microtasks (ready_listener l w)).
Proof.
  intros Hq. rewrite run_microtasks_eq.
  unfold ready_listener, initIFrameResizing_browser; cbn.
  destruct (w_body w); cbn; rewrite Hq; split; cbn; try done.
  - exists []. by rewrite !app_nil_r.
  - exists [body_warning]. rewrite app_nil_r. split; [done|]. by constructor.
Qed.

Lemma fold_ready_listener_lifecycle ls w :
  w_microtasks w = [] →
  lifecycle_step w
    (fold_left (λ w l, run_microtasks (ready_listener l w)) ls w).
Proof.
  revert w. induction ls as [|l ls IH]; intros w Hq; cbn [fold_left].
  - by apply lifecycle_step_refl.
  - eapply lifecycle_step_trans; [by apply ready_listener_lifecycle|].
    apply IH. by apply ready_listener_lifecycle.
Qed.

(** Every event but a message, the passing of time and a notification
    is a step of the lifecycle. *)
Lemma lifecycle_events w ev :
  w_microtasks w = [] →
  match ev with
  | Message _ | Advance _ | Resize _ _ => True
  | _ => lifecycle_step w (step uuid w ev)
  end.
Proof.
  intros Hq. destruct ev as [data|dt|o entries| | |options|options|c];
    cbn [step]; try done.
  - unfold fire_DOMContentLoaded.
    destruct (w_readyState w); try by apply lifecycle_step_refl.
    eapply lifecycle_step_trans;
      [|by apply fold_ready_listener_lifecycle].
    split; cbn; try done. exists []. by rewrite app_nil_r.
  - unfold fire_load. destruct (w_readyState w);
      try by apply lifecycle_step_refl.
    split; cbn; try done. exists []. by rewrite app_nil_r.
  - by apply initIFrameResizing_browser_lifecycle.
  - unfold autoInitIFrameResizing_browser.
    destruct (w_readyState w); cbn;
      try by apply initIFrameResizing_browser_lifecycle.
    split; cbn; try done. exists []. by rewrite app_nil_r.
  - destruct c as [[|o]|cell]; cbn; try by apply lifecycle_step_refl.
    + split; cbn; try done. exists []. by rewrite app_nil_r.
    + destruct (default NoOp (w_cells w !! cell));
        [by apply lifecycle_step_refl|].
      split; cbn; try done. exists []. by rewrite app_nil_r.
Qed.

Lemma ledger_lifecycle_step w w' :
  ledger w → lifecycle_step w w' → ledger w'.
Proof.
  intros [Hd Hp Hs Hh Hr] [Hu Hpr (extra & Ht & Hextra) _].
  destruct (body_warnings_ledger extra Hextra) as [Hpe Hce].
  split; rewrite ?Hu, ?Hpr, ?Ht, ?posted_app, ?count_app, ?Hpe, ?Hce,
           ?app_nil_r; try done.
  lia.
Qed.

(** The world after a notification that dispatches. *)
Lemma observer_callback_fields options e rest w :
  w_microtasks w = [] →
  let w' := run_microtasks (observer_callback uuid options (e :: rest) w) in
  w_trace w'
  = w_trace w ++
    [PostMessage
       (l_command (new_listener uuid (rect_height (contentRect e)) w)) "*"] ∧
  w_promises w'
  = w_promises w ++ [{| p_state := Pending; p_catch := Some options |}] ∧
  w_uuids w' = S (w_uuids w) ∧
  w_observers w' = w_observers w ∧ w_cells w' = w_cells w ∧
  w_body w' = w_body w ∧ w_readyState w' = w_readyState w ∧
  w_ready_listeners w' = w_ready_listeners w.
Proof.
  intros Hq. cbv zeta. rewrite run_microtasks_eq.
  unfold observer_callback, sendResizeCommand, promise_catch; cbn.
  rewrite list_lookup_middle by done. cbn. rewrite Hq, app_nil_r.
  split_and!; try done.
  by rewrite insert_app_r_alt, Nat.sub_diag by done.
Qed.

Lemma ledger_notify o entries w :
  wf w → ledger w → ledger (notify uuid o entries w).
Proof.
  intros Hwf Hled. unfold notify.
  destruct (w_observers w !! o) as [[options [|tg tgs]]|]; try done.
  destruct entries as [|e rest].
  - cbn. by rewrite (run_microtasks_quiet w (wf_quiet w Hwf)).
  - destruct (observer_callback_fields options e rest w (wf_quiet w Hwf))
      as (Ht & Hp & Hu & _).
    destruct Hled as [Hd Hpo Hs Hh Hr].
    split; rewrite ?Ht, ?Hp, ?Hu, ?posted_app, ?count_app, ?length_app;
      cbn [posted length count].
    + lia.
    + cbn. lia.
    + intros i c o'. destruct (decide (i < length (posted (w_trace w)))%nat).
      * rewrite lookup_app_l by done. apply Hs.
      * rewrite lookup_app_r by lia.
        destruct (i - length (posted (w_trace w)))%nat as [|j] eqn:Hi;
          [|done].
        cbn. intros [= <- <-]. assert (i = w_uuids w) as -> by lia.
        split_and!; try done. by eexists.
    + intros p pr [Hin|[_ Hlast]]%lookup_app_Some; [by apply (Hh p)|].
      destruct (p - length (w_promises w))%nat; [|done].
      cbn in Hlast. injection Hlast as <-. by eexists.
    + unfold count at 2 4. cbn. lia.
Qed.

Lemma wf_fold_invoke_listener data ls w :
  wf w → ledger w →
  wf (fold_left (invoke_listener data) ls w) ∧
  ledger (fold_left (invoke_listener data) ls w).
Proof.
  revert w. induction ls as [|x ls IH]; intros w Hwf Hled; [done|].
  cbn [fold_left]. apply IH; [by apply invoke_listener_wf|].
  by apply ledger_invoke_listener.
Qed.

Lemma wf_fold_fire_timer ts w :
  wf w → ledger w →
  wf (fold_left fire_timer ts w) ∧ ledger (fold_left fire_timer ts w).
Proof.
  revert w. induction ts as [|x ts IH]; intros w Hwf Hled; [done|].
  cbn [fold_left]. apply IH; [by apply fire_timer_wf|].
  by apply ledger_fire_timer.
Qed.

Lemma posted_invoke_listener data w x :
  wf w → posted (w_trace (invoke_listener data w x)) = posted (w_trace w).
Proof.
  intros Hwf.
  destruct (invoke_listener_cases uuid data w x Hwf)
    as [[_ ->]|[(l & _ & _ & _ & ->)|(l & k & _ & _ & _ & _ & ->)]];
    try done.
  destruct (get_property data "receiver"); [done|].
  cbn. by rewrite posted_app, app_nil_r.
Qed.

Lemma posted_fire_timer w x :
  wf w → posted (w_trace (fire_timer w x)) = posted (w_trace w).
Proof.
  intros Hwf.
  destruct (fire_timer_cases uuid w x Hwf)
    as [[_ ->]|(l & k & _ & _ & _ & ->)]; [done|].
  cbn [w_trace set_trace]. rewrite posted_app.
  destruct k as [options|]; cbn [posted].
  - destruct (job_effects_ledger options) as [-> _]. by rewrite app_nil_r.
  - by rewrite app_nil_r.
Qed.

Lemma posted_fold_invoke_listener data ls w :
  wf w →
  posted (w_trace (fold_left (invoke_listener data) ls w))
  = posted (w_trace w).
Proof.
  revert w. induction ls as [|x ls IH]; intros w Hwf; [done|].
  cbn [fold_left]. rewrite IH by by apply invoke_listener_wf.
  by apply posted_invoke_listener.
Qed.

Lemma posted_fold_fire_timer ts w :
  wf w →
  posted (w_trace (fold_left fire_timer ts w)) = posted (w_trace w).
Proof.
  revert w. induction ts as [|x ts IH]; intros w Hwf; [done|].
  cbn [fold_left]. rewrite IH by by apply fire_timer_wf.
  by apply posted_fire_timer.
Qed.

Lemma ledger_step w ev : wf w → ledger w → ledger (step uuid w ev).
Proof.
  intros Hwf Hled.
  pose proof (lifecycle_events w ev (wf_quiet w Hwf)) as Hlife.
  destruct ev as [data|dt|o entries| | |options|options|c];
    try by apply (ledger_lifecycle_step w).
  - by apply wf_fold_invoke_listener.
  - cbn [step]. unfold advance. apply wf_fold_fire_timer.
    + apply wf_set_now; [done|lia].
    + destruct Hled. by split.
  - by apply ledger_notify.
Qed.

Lemma ledger_run evs w :
  wf w → ledger w → ledger (run uuid evs w).
Proof.
  revert w. induction evs as [|ev evs IH]; intros w Hwf Hled; [done|].
  cbn. apply IH; [by apply step_wf|by apply ledger_step].
Qed.

(** X1.  Whatever the page has gone through, what it has posted to its
    parent is one message for every dispatch it ever made, each with the
    target origin ['*'], and the message number [i] is a command from
    ['child'] to ['parent'] named "resize" whose payload is one row of one
    number and whose identifier is the one the generator handed out at its
    draw number [i].  As the generator never repeats, no two posted
    commands share an identifier.  A message, time passing, a cleanup or
    an initialization post nothing. *)
Theorem every_post_is_a_resize_command rs body evs :
  let w := run uuid evs (initial_world rs body) in
  length (posted (w_trace w)) = length (w_promises w) ∧
  w_uuids w = length (posted (w_trace w)) ∧
  (∀ i c o,
     posted (w_trace w) !! i = Some (c, o) →
     o = "*" ∧ c_id c = uuid i ∧ c_sender c = CHILD ∧ c_receiver c = PARENT
     ∧ c_name c = "resize" ∧ ∃ height, c_payload c = [[VNumber height]]) ∧
  NoDup ((λ p, c_id p.1) <$> posted (w_trace w)) ∧
  ∀ ev, match ev with
        | Resize _ _ => True
        | _ => posted (w_trace (step uuid w ev)) = posted (w_trace w)
        end.
Proof.
  intros w.
  assert (Hwf : wf w) by (apply run_wf, wf_initial; done).
  assert (Hled : ledger w)
    by (apply ledger_run; [apply wf_initial|apply ledger_initial]).
  destruct Hled as [Hd Hp Hs Hh Hr]. split_and!; try done.
  - by rewrite Hp.
  - apply NoDup_alt. intros i j x Hi Hj.
    apply list_lookup_fmap_Some in Hi as ([c o] & -> & Hi).
    apply list_lookup_fmap_Some in Hj as ([c' o'] & Heq & Hj).
    destruct (Hs _ _ _ Hi) as (_ & Hci & _).
    destruct (Hs _ _ _ Hj) as (_ & Hcj & _).
    cbn in Heq. apply uuid_inj. congruence.
  - intros ev.
    pose proof (lifecycle_events w ev (wf_quiet w Hwf)) as Hlife.
    destruct ev as [data|dt|o entries| | |options|options|c]; try done.
    1: by apply posted_fold_invoke_listener.
    1: { cbn [step]. unfold advance.
         rewrite posted_fold_fire_timer; [done|].
         apply wf_set_now; [done|lia]. }
    all: destruct Hlife as [_ _ (extra & -> & Hextra) _];
      rewrite posted_app;
      destruct (body_warnings_ledger extra Hextra) as [-> _];
      by rewrite app_nil_r.
Qed.

(** X2.  Whatever the page has gone through, it has warned of a timeout
    exactly as many times as it has rejected dispatches: the [.catch]
    handler ran once for every dispatch that timed out and for no other.
    Every dispatch has that handler, every rejection carries the timeout
    error, and no more dispatches were rejected than commands posted. *)
Theorem timeout_reported_once_per_rejected_dispatch rs body evs :
  let w := run uuid evs (initial_world rs body) in
  count is_timeout_warning (w_trace w) = count is_rejected (w_promises w) ∧
  (∀ p pr, w_promises w !! p = Some pr → is_Some (p_catch pr)) ∧
  (∀ p e, promise_state w p = Some (Rejected e) → e = timeout_error) ∧
  (count is_rejected (w_promises w) ≤ length (posted (w_trace w)))%nat.
Proof.
  intros w.
  assert (Hwf : wf w) by (apply run_wf, wf_initial; done).
  assert (Hled : ledger w)
    by (apply ledger_run; [apply wf_initial|apply ledger_initial]).
  destruct Hled as [Hd Hp Hs Hh Hr]. split_and!; try done.
  - apply Hwf.
  - rewrite Hp. unfold count. apply List.filter_length_le.
Qed.

(** ** No dispatch waits longer than its timer *)

Lemma timers_invoke_listener data w x t :
  wf w → t ∈ w_timers (invoke_listener data w x) → t ∈ w_timers w.
Proof.
  intros Hwf.
  destruct (invoke_listener_cases uuid data w x Hwf)
    as [[_ ->]|[(l & _ & _ & _ & ->)|(l & k & _ & _ & _ & _ & ->)]];
    try done.
  - by destruct (get_property data "receiver").
  - cbn. by intros [_ ?]%list_elem_of_filter.
Qed.

Lemma timers_fire_timer w x t :
  wf w → t ∈ w_timers (fire_timer w x) → t ∈ w_timers w.
Proof.
  intros Hwf.
  destruct (fire_timer_cases uuid w x Hwf)
    as [[_ ->]|(l & k & _ & _ & _ & ->)]; [done|].
  cbn. by intros [_ ?]%list_elem_of_filter.
Qed.

Lemma timers_fold_invoke_listener data ls w t :
  wf w → t ∈ w_timers (fold_left (invoke_listener data) ls w) →
  t ∈ w_timers w.
Proof.
  revert w. induction ls as [|x ls IH]; intros w Hwf; [done|].
  cbn [fold_left]. intros Ht%IH; [|by apply invoke_listener_wf].
  by apply (timers_invoke_listener data w x).
Qed.

Lemma timers_fold_fire_timer ts w t :
  wf w → t ∈ w_timers (fold_left fire_timer ts w) → t ∈ w_timers w.
Proof.
  revert w. induction ts as [|x ts IH]; intros w Hwf; [done|].
  cbn [fold_left]. intros Ht%IH; [|by apply fire_timer_wf].
  by apply (timers_fire_timer w x).
Qed.

Lemma punctual_initial rs body : punctual (initial_world rs body).
Proof. by intros t ?%elem_of_nil. Qed.

Lemma punctual_step w ev :
  wf w → punctual w → punctual (step uuid w ev).
Proof.
  intros Hwf Hpun.
  destruct (step_spec uuid uuid_inj w ev Hwf) as (Hwf' & Hnow & _ & _).
  pose proof (other_event_kind uuid w ev (wf_quiet w Hwf)) as Hkind.
  intros t Ht. rewrite Hnow.
  destruct ev as [data|dt|o entries| | |options|options|c].
  1: { rewrite N.add_0_r. apply Hpun.
       by apply (timers_fold_invoke_listener data (w_listeners w) w). }
  1: { cbn [step] in Ht, Hwf'. unfold advance in Ht, Hwf'.
       set (w0 := set_now (w_now w + dt) w) in *.
       assert (Hwf0 : wf w0) by (apply wf_set_now; [done|lia]).
       set (ts := filter (λ t, t_due t ≤ w_now w0) (w_timers w0)) in *.
       assert (Ht0 : t ∈ w_timers w0)
         by by apply (timers_fold_fire_timer ts w0).
       destruct (wf_timer w0 Hwf0 t Ht0) as (_ & _ & l & Hl & Hd & Hto).
       assert (Hfl : in_flight w0 l (t_due t)).
       { split; [done|]. rewrite Hd, Hto. by destruct t. }
       destruct (fold_fire_timer uuid ts w0 Hwf0)
         as (_ & _ & _ & Hfold).
       destruct (Hfold l (t_due t) Hfl) as [Hfired _].
       destruct (N.lt_ge_cases (w_now w + dt) (t_due t)) as [|Hdue];
         [done|exfalso].
       assert (Hrej : promise_state (fold_left fire_timer ts w0)
                        (l_dispatch l) = Some (Rejected timeout_error)).
       { apply Hfired. rewrite Hto. apply list_elem_of_fmap_2.
         apply list_elem_of_filter. by split. }
       destruct (wf_timer _ Hwf' t Ht) as (_ & _ & l' & Hl' & Hd' & _).
       destruct (wf_listener _ Hwf' l' Hl') as [Hpend _].
       rewrite Hd', <- Hd in Hpend. congruence. }
  all: rewrite N.add_0_r; destruct Hkind as [Hsame|[l0 Hstart]].
  all: try (apply Hpun; by rewrite <- (same_timers _ _ Hsame)).
  all: rewrite (starts_timers uuid _ _ _ Hstart) in Ht;
    apply elem_of_cons in Ht as [->|Ht]; [cbn; lia|by apply Hpun].
Qed.

Lemma punctual_run evs w :
  wf w → punctual w → punctual (run uuid evs w).
Proof.
  revert w. induction evs as [|ev evs IH]; intros w Hwf Hpun; [done|].
  cbn. apply IH; [by apply step_wf|by apply punctual_step].
Qed.

(** X3.  Whatever the page has gone through, its message listeners, its
    armed timers and its pending dispatches correspond one to one: a
    dispatch is pending exactly when it has a listener, exactly when it
    has a timer, no dispatch has two of either, and there are as many
    listeners as timers.  Every armed timer is due in the future, at
    most 20000 ms ahead: no dispatch has waited 20000 ms. *)
Theorem pending_dispatches_listeners_timers rs body evs :
  let w := run uuid evs (initial_world rs body) in
  (∀ p, promise_state w p = Some Pending
        ↔ p ∈ l_dispatch <$> w_listeners w) ∧
  (∀ p, promise_state w p = Some Pending
        ↔ p ∈ t_dispatch <$> w_timers w) ∧
  NoDup (l_dispatch <$> w_listeners w) ∧
  NoDup (t_dispatch <$> w_timers w) ∧
  length (w_listeners w) = length (w_timers w) ∧
  (∀ t, t ∈ w_timers w → w_now w < t_due t ∧ t_due t ≤ w_now w + 20000).
Proof.
  intros w.
  assert (Hwf : wf w) by (apply run_wf, wf_initial; done).
  assert (Hpun : punctual w)
    by (apply punctual_run; [apply wf_initial|apply punctual_initial]).
  assert (Hl : ∀ p, promise_state w p = Some Pending
                    ↔ p ∈ l_dispatch <$> w_listeners w).
  { intros p. split.
    - intros (l & Hin & <-)%(wf_pending uuid w Hwf).
      by apply list_elem_of_fmap_2.
    - intros (l & -> & Hin)%list_elem_of_fmap.
      apply (wf_listener w Hwf l Hin). }
  assert (Ht : ∀ p, p ∈ l_dispatch <$> w_listeners w
                    ↔ p ∈ t_dispatch <$> w_timers w).
  { intros p. split.
    - intros (l & -> & Hin)%list_elem_of_fmap.
      destruct (wf_listener w Hwf l Hin) as (_ & t & Htin & _ & <-).
      by apply list_elem_of_fmap_2.
    - intros (t & -> & Hin)%list_elem_of_fmap.
      destruct (wf_timer w Hwf t Hin) as (_ & _ & l & Hlin & <- & _).
      by apply list_elem_of_fmap_2. }
  assert (Hnd : NoDup (t_dispatch <$> w_timers w)).
  { apply NoDup_fmap_2_strong; [|eapply NoDup_fmap_1, Hwf].
    intros t1 t2 Ht1 Ht2 Heq.
    destruct (wf_timer w Hwf t1 Ht1) as (_ & _ & l1 & Hl1 & Hd1 & Hh1).
    destruct (wf_timer w Hwf t2 Ht2) as (_ & _ & l2 & Hl2 & Hd2 & Hh2).
    assert (l1 = l2) as ->.
    { apply (NoDup_fmap_eq l_dispatch (w_listeners w));
        [apply Hwf|done..|congruence]. }
    apply (NoDup_fmap_eq t_handle (w_timers w));
      [apply Hwf|done..|congruence]. }
  split_and!; try done.
  - intros p. by rewrite Hl, Ht.
  - apply Hwf.
  - rewrite <- (length_fmap l_dispatch), <- (length_fmap t_dispatch).
    apply Permutation_length, NoDup_Permutation; [apply Hwf|done..].
  - intros t Hin. split; [by apply Hpun|apply (wf_timer w Hwf t Hin)].
Qed.

(** ** A message event, in full *)

Lemma wf_set_trace tr w : wf w → wf (set_trace tr w).
Proof. intros Hwf. split; cbn; apply Hwf. Qed.

Lemma set_trace_nil w : set_trace (w_trace w ++ []) w = w.
Proof. destruct w. unfold set_trace; cbn. by rewrite app_nil_r. Qed.

(** Only one registered listener can take [data] for its response. *)
Lemma response_unique w data l l' :
  wf w → l ∈ w_listeners w → l' ∈ w_listeners w →
  is_response (l_command l) data = true →
  is_response (l_command l') data = true → l' = l.
Proof.
  intros Hwf Hl Hl' [_ Hi]%is_response_spec [_ Hi']%is_response_spec.
  apply (NoDup_fmap_eq (λ l, c_id (l_command l)) (w_listeners w));
    [apply Hwf|done..|congruence].
Qed.

Lemma fold_invoke_listener_unrelated data ls w :
  wf w →
  (∀ l, l ∈ w_listeners w → is_response (l_command l) data = false) →
  (∀ x, x ∈ ls → x ∈ w_listeners w) →
  fold_left (invoke_listener data) ls w
  = match get_property data "receiver" with
    | Some _ => w
    | None =>
        set_trace (w_trace w ++ replicate (length ls) UncaughtError) w
    end.
Proof.
  revert w. induction ls as [|x ls IH]; intros w Hwf Hno Hsub.
  { cbn. rewrite set_trace_nil. by destruct (get_property _ _). }
  cbn [fold_left].
  assert (Hx : x ∈ w_listeners w) by (apply Hsub, elem_of_cons; by left).
  destruct (invoke_listener_cases uuid data w x Hwf)
    as [[Hgone _]|[(l & _ & _ & _ & ->)|(l & k & Hl & _ & Hyes & _)]].
  - by destruct (Hgone x Hx).
  - destruct (get_property data "receiver") eqn:Hr.
    + apply IH; [done..|].
      intros y Hy. apply Hsub, elem_of_cons. by right.
    + rewrite IH; [|by apply wf_set_trace|done|].
      * unfold emit, set_trace; cbn. by rewrite <- app_assoc.
      * intros y Hy. apply Hsub, elem_of_cons. by right.
  - by rewrite (Hno l Hl) in Hyes.
Qed.

Lemma fold_invoke_listener_ignores data ls w :
  wf w → is_Some (get_property data "receiver") →
  (∀ x l, x ∈ ls → l ∈ w_listeners w → l_dispatch l = l_dispatch x →
          is_response (l_command l) data = false) →
  fold_left (invoke_listener data) ls w = w.
Proof.
  intros Hwf [r Hr] Hno. induction ls as [|x ls IH]; [done|].
  cbn [fold_left].
  assert (invoke_listener data w x = w) as ->.
  { destruct (invoke_listener_cases uuid data w x Hwf)
      as [[_ ->]|[(l & _ & _ & _ & ->)|(l & k & Hl & Hkey & Hyes & _)]];
      [done|by rewrite Hr|].
    rewrite (Hno x l) in Hyes; [done|by apply elem_of_cons; left|done..]. }
  apply IH. intros y l Hy. apply Hno, elem_of_cons. by right.
Qed.

(** X4.  A message that acknowledges no dispatch in flight changes
    nothing on the page, whatever the page has gone through: no promise,
    listener or timer is touched, nothing is posted or logged, no hook is
    called.  That holds of every message whose [receiver] is not
    ['child'].  The exception is a message whose data is [null] or
    [undefined]: reading [receiver] throws in every registered listener,
    the platform reports one error for each, and nothing else changes. *)
Theorem unrelated_message_changes_nothing rs body evs data :
  let w := run uuid evs (initial_world rs body) in
  (is_Some (get_property data "receiver") →
   (∀ l, l ∈ w_listeners w → is_response (l_command l) data = false) →
   step uuid w (Message data) = w) ∧
  (∀ receiver, get_property data "receiver" = Some receiver →
     receiver ≠ VString "child" → step uuid w (Message data) = w) ∧
  (get_property data "receiver" = None →
   step uuid w (Message data)
   = set_trace
       (w_trace w ++ replicate (length (w_listeners w)) UncaughtError) w).
Proof.
  intros w.
  assert (Hwf : wf w) by (apply run_wf, wf_initial; done).
  assert (Hignored : is_Some (get_property data "receiver") →
    (∀ l, l ∈ w_listeners w → is_response (l_command l) data = false) →
    step uuid w (Message data) = w).
  { intros [r Hr] Hno. cbn [step]. unfold dispatch_message.
    rewrite fold_invoke_listener_unrelated; [by rewrite Hr|done..]. }
  split_and!; [done| |].
  - intros receiver Hr Hne. apply Hignored; [by eexists|].
    intros l Hl. unfold is_response. rewrite Hr.
    rewrite (wf_sender uuid w Hwf l Hl).
    destruct (get_property data "correspondingCommandId"); [|done].
    destruct (strict_equals _ receiver) eqn:Heq; [|done].
    by apply strict_equals_string in Heq.
  - intros Hr. cbn [step]. unfold dispatch_message.
    rewrite fold_invoke_listener_unrelated; [by rewrite Hr|done| |done].
    intros l _. unfold is_response. by rewrite Hr.
Qed.

Lemma trace_of_retired ps d h w :
  w_trace (set_promises ps
             (removeEventListener_message d (clearTimeout h w)))
  = w_trace w.
Proof. done. Qed.

Lemma dispatch_message_acknowledged data w l :
  wf w → l ∈ w_listeners w → is_response (l_command l) data = true →
  ∃ k,
    w_promises w !! l_dispatch l
    = Some {| p_state := Pending; p_catch := k |} ∧
    dispatch_message data w
    = set_promises
        (<[l_dispatch l := {| p_state := Fulfilled; p_catch := k |}]>
           (w_promises w))
        (removeEventListener_message (l_dispatch l)
           (clearTimeout (l_timeout l) w)).
Proof.
  intros Hwf Hl Hyes.
  assert (Hsome : is_Some (get_property data "receiver")).
  { apply is_response_spec in Hyes as [-> _]. by eexists. }
  assert (Hnd : NoDup (w_listeners w)) by (eapply NoDup_fmap_1, Hwf).
  assert (Hkeys : ∀ x y, x ∈ w_listeners w → y ∈ w_listeners w →
                         l_dispatch x = l_dispatch y → x = y).
  { intros x y Hx Hy. apply (NoDup_fmap_eq l_dispatch (w_listeners w));
      [apply Hwf|done..]. }
  destruct (list_elem_of_split _ _ Hl) as (l1 & l2 & Hsplit).
  rewrite Hsplit in Hnd. apply NoDup_app in Hnd as (_ & Hfront & Hback).
  apply NoDup_cons in Hback as [Hback _].
  assert (Hturns : dispatch_message data w
                   = fold_left (invoke_listener data) l2
                       (invoke_listener data w l)).
  { unfold dispatch_message. rewrite Hsplit at 1.
    rewrite fold_left_app. cbn [fold_left].
    rewrite (fold_invoke_listener_ignores data l1 w); [done..|].
    intros x l' Hx Hl' Hkey.
    destruct (is_response (l_command l') data) eqn:Hresp; [|done].
    assert (l' = l) as -> by by apply (response_unique w data).
    assert (l = x) as ->.
    { apply Hkeys; [done| |done]. rewrite Hsplit. apply elem_of_app.
      by left. }
    destruct (Hfront x Hx). apply elem_of_cons. by left. }
  rewrite Hturns.
  destruct (invoke_listener_cases uuid data w l Hwf)
    as [[Hgone _]|[(l' & Hl' & Hkey & Hno & _)|
                   (l' & k & Hl' & Hkey & _ & Hk & Hturn)]].
  - by destruct (Hgone l Hl).
  - apply Hkeys in Hkey; [|done..]. subst l'. by rewrite Hyes in Hno.
  - apply Hkeys in Hkey; [|done..]. subst l'.
    exists k. split; [done|].
    rewrite Hturn. apply fold_invoke_listener_ignores; [|done|].
    { rewrite <- Hturn. by apply invoke_listener_wf. }
    cbn. intros x l0 _ [Hne Hl0]%list_elem_of_filter _.
    destruct (is_response (l_command l0) data) eqn:Hresp; [|done].
    destruct Hne. f_equal. by apply (response_unique w data).
Qed.

(** X5.  An acknowledgment retires the dispatch it names and does
    nothing else: the timer of that dispatch is cleared, its listener is
    removed, its promise is fulfilled, and the page is otherwise exactly
    as it was.  In particular nothing is posted or logged, no hook is
    called and no other dispatch changes. *)
Theorem acknowledgment_retires_one_dispatch rs body evs data l :
  let w := run uuid evs (initial_world rs body) in
  l ∈ w_listeners w → is_response (l_command l) data = true →
  ∃ options,
    w_promises w !! l_dispatch l
    = Some {| p_state := Pending; p_catch := Some options |} ∧
    step uuid w (Message data)
    = set_promises
        (<[l_dispatch l := {| p_state := Fulfilled;
                              p_catch := Some options |}]> (w_promises w))
        (removeEventListener_message (l_dispatch l)
           (clearTimeout (l_timeout l) w)).
Proof.
  intros w Hl Hyes.
  assert (Hwf : wf w) by (apply run_wf, wf_initial; done).
  assert (Hled : ledger w)
    by (apply ledger_run; [apply wf_initial|apply ledger_initial]).
  destruct (dispatch_message_acknowledged data w l Hwf Hl Hyes)
    as (k & Hk & Heq).
  destruct (ledger_handlers uuid w Hled _ _ Hk) as [options Hopt].
  cbn in Hopt. subst k. by exists options.
Qed.

Lemma filter_comm {A} (P Q : A → Prop) `{∀ x, Decision (P x)}
    `{∀ x, Decision (Q x)} (l : list A) :
  filter P (filter Q l) = filter Q (filter P l).
Proof.
  induction l as [|a l IH]; [done|]. rewrite !(filter_cons _ a).
  destruct (decide (P a)), (decide (Q a)); rewrite ?filter_cons;
    rewrite ?decide_True, ?decide_False by done; by rewrite IH.
Qed.

(** X6.  Acknowledgments commute: when two dispatches are in flight and
    each is acknowledged, the page ends in the same state whichever
    acknowledgment arrives first. *)
Theorem acknowledgments_commute rs body evs l1 l2 data1 data2 :
  let w := run uuid evs (initial_world rs body) in
  l1 ∈ w_listeners w → l2 ∈ w_listeners w → l1 ≠ l2 →
  is_response (l_command l1) data1 = true →
  is_response (l_command l2) data2 = true →
  run uuid [Message data1; Message data2] w
  = run uuid [Message data2; Message data1] w.
Proof.
  intros w Hl1 Hl2 Hne Hyes1 Hyes2.
  assert (Hwf : wf w) by (apply run_wf, wf_initial; done).
  assert (Hkey : l_dispatch l1 ≠ l_dispatch l2).
  { intros Heq. destruct Hne.
    by apply (NoDup_fmap_eq l_dispatch (w_listeners w)); [apply Hwf|..]. }
  assert (Hafter : ∀ la lb dataa datab,
    la ∈ w_listeners w → lb ∈ w_listeners w →
    l_dispatch la ≠ l_dispatch lb →
    is_response (l_command la) dataa = true →
    is_response (l_command lb) datab = true →
    ∃ ka kb,
      w_promises w !! l_dispatch la
      = Some {| p_state := Pending; p_catch := ka |} ∧
      w_promises w !! l_dispatch lb
      = Some {| p_state := Pending; p_catch := kb |} ∧
      run uuid [Message dataa; Message datab] w
      = set_promises
          (<[l_dispatch lb := {| p_state := Fulfilled; p_catch := kb |}]>
             (<[l_dispatch la := {| p_state := Fulfilled; p_catch := ka |}]>
                (w_promises w)))
          (set_listeners
             (filter (λ x, l_dispatch x ≠ l_dispatch lb)
                (filter (λ x, l_dispatch x ≠ l_dispatch la) (w_listeners w)))
             (set_timers (w_next_timer w)
                (filter (λ t, t_handle t ≠ l_timeout lb)
                   (filter (λ t, t_handle t ≠ l_timeout la) (w_timers w)))
                w))).
  { intros la lb dataa datab Hla Hlb Hk Hya Hyb.
    destruct (dispatch_message_acknowledged dataa w la Hwf Hla Hya)
      as (ka & Hka & Heqa).
    assert (Hwfa : wf (dispatch_message dataa w))
      by apply (dispatch_message_spec uuid dataa w Hwf).
    assert (Hlb' : lb ∈ w_listeners (dispatch_message dataa w)).
    { rewrite Heqa. cbn. apply list_elem_of_filter. split; [congruence|done]. }
    destruct (dispatch_message_acknowledged datab _ lb Hwfa Hlb' Hyb)
      as (kb & Hkb & Heqb).
    rewrite Heqa in Hkb. cbn in Hkb.
    rewrite list_lookup_insert_ne in Hkb by done.
    exists ka, kb. split_and!; [done..|].
    change (run uuid [Message dataa; Message datab] w)
      with (dispatch_message datab (dispatch_message dataa w)).
    rewrite Heqb, Heqa. done. }
  destruct (Hafter l1 l2 data1 data2) as (k1 & k2 & Hk1 & Hk2 & ->);
    [done..|].
  destruct (Hafter l2 l1 data2 data1) as (k2' & k1' & Hk2' & Hk1' & ->);
    [first [done|congruence]..|].
  assert (k1' = k1) as -> by congruence.
  assert (k2' = k2) as -> by congruence.
  rewrite (list_insert_insert_ne _ (l_dispatch l2) (l_dispatch l1)) by done.
  by rewrite (filter_comm (λ x, l_dispatch x ≠ l_dispatch l2)),
    (filter_comm (λ t, t_handle t ≠ l_timeout l2)).
Qed.

(** ** The example parent page answers the child *)

(** X7.  The [message] listener of the example server's page and the
    child fit together.  Given the command a dispatch has posted, the
    listener sets the frame's height to the number followed by [px],
    logs it, and posts to the frame, for every origin, a message that
    acknowledges that command: delivered to the child it fulfils the
    dispatch.  On a page without an element [testFrame] the listener
    throws at [iframe.style] and posts nothing.  A message that is not
    named [resize] or does not come from [child] it ignores. *)
Theorem example_parent_acknowledges_the_command
    to_string first_code_unit first_code_point rs body evs height handler :
  let w := run uuid evs (initial_world rs body) in
  let l := new_listener uuid height w in
  let w1 := dispatched uuid height handler w in
  let page := parent_listener to_string first_code_unit first_code_point in
  w_trace w1 = w_trace w ++ [PostMessage (l_command l) "*"] ∧
  (∃ reply,
     page true (command_data (l_command l))
     = (Normal,
        [SetFrameHeight (to_string (VNumber height) ++ "px");
         ConsoleLog [VString "Received resize message:"; VNumber height];
         PostToFrame reply "*"]) ∧
     acknowledges (l_command l) reply ∧
     promise_state (step uuid w1 (Message reply)) (l_dispatch l)
     = Some Fulfilled) ∧
  page false (command_data (l_command l)) = (Throw, []) ∧
  (∀ testFrame data name sender,
     get_property data "name" = Some name →
     get_property data "sender" = Some sender →
     name ≠ VString "resize" ∨ sender ≠ VString "child" →
     page testFrame data = (Normal, [])).
Proof.
  intros w l w1 page.
  assert (Hwf : wf w) by (apply run_wf, wf_initial; done).
  pose proof (wf_quiet w Hwf) as Hq.
  split_and!.
  - subst w1. unfold dispatched, sendResizeCommand, promise_catch; cbn.
    destruct handler as [options|]; [|done].
    by rewrite list_lookup_middle.
  - set (reply :=
      VObject [("id", VString (c_id (l_command l)));
               ("sender", VString "parent"); ("receiver", VString "child");
               ("correspondingCommandId", VString (c_id (l_command l)))]).
    exists reply. split; [reflexivity|].
    assert (Hack : acknowledges (l_command l) reply) by done.
    split; [exact Hack|].
    assert (Hwf1 : wf w1).
    { apply (starts_wf uuid uuid_inj w w1 l Hwf).
      by apply dispatched_starts. }
    destruct (step_spec uuid uuid_inj w1 (Message reply) Hwf1)
      as (_ & _ & _ & Hfl).
    specialize (Hfl l (w_now w + 20000)
                  (dispatched_in_flight uuid height handler w Hq)).
    apply is_response_spec in Hack. cbn in Hack. cbn in Hfl.
    by rewrite Hack in Hfl.
  - done.
  - intros testFrame data name sender Hname Hsender Hother.
    unfold page, parent_listener. rewrite Hname, Hsender.
    assert (Hneq : ∀ v x, v ≠ VString x → strict_equals v (VString x) = false).
    { intros v x Hv. destruct v; try done. cbn. apply String.eqb_neq.
      congruence. }
    destruct Hother as [Hn|Hs].
    + by rewrite (Hneq _ _ Hn).
    + rewrite (Hneq _ _ Hs). by destruct (negb _).
Qed.

(** ** The child and the example parent page together *)

Lemma filter_insert_timer (P : Timer → Prop) `{∀ t, Decision (P t)} t ts :
  ¬ P t → filter P (insert_timer t ts) = filter P ts.
Proof.
  intros Hno. induction ts as [|t' ts IH]; cbn [insert_timer].
  - by rewrite filter_cons, decide_False.
  - destruct (t_due t <? t_due t').
    + by rewrite (filter_cons _ t), decide_False.
    + by rewrite !(filter_cons _ t'), IH.
Qed.

Lemma filter_all {A} (P : A → Prop) `{∀ x, Decision (P x)} (l : list A) :
  (∀ x, x ∈ l → P x) → filter P l = l.
Proof.
  induction l as [|a l IH]; intros Hall; [done|].
  rewrite filter_cons, decide_True by (apply Hall, elem_of_cons; by left).
  rewrite IH; [done|]. intros x Hx. apply Hall, elem_of_cons. by right.
Qed.

Lemma observer_callback_tables options e rest w :
  let w' := run_microtasks (observer_callback uuid options (e :: rest) w) in
  let l := new_listener uuid (rect_height (contentRect e)) w in
  w_listeners w' = w_listeners w ++ [l] ∧
  w_timers w'
  = insert_timer {| t_handle := l_timeout l; t_due := w_now w + 20000;
                    t_dispatch := l_dispatch l |} (w_timers w).
Proof.
  cbv zeta. rewrite run_microtasks_eq.
  unfold observer_callback, sendResizeCommand, promise_catch; cbn.
  by rewrite list_lookup_middle.
Qed.

Lemma parent_replies_resize to_string first_code_unit first_code_point i h :
  parent_replies
    (parent_listener to_string first_code_unit first_code_point true)
    {| c_id := i; c_sender := CHILD; c_receiver := PARENT;
       c_name := "resize"; c_payload := [[VNumber h]] |}
  = [VObject [("id", VString i); ("sender", VString "parent");
              ("receiver", VString "child");
              ("correspondingCommandId", VString i)]].
Proof. done. Qed.

Lemma notify_and_answer_spec
    to_string first_code_unit first_code_point o entries w :
  wf w →
  let page := parent_listener to_string first_code_unit first_code_point
                true in
  let w' := notify_and_answer uuid page o w entries in
  wf w' ∧ w_listeners w' = w_listeners w ∧ w_timers w' = w_timers w ∧
  w_observers w' = w_observers w ∧
  (w' = w ∨
   ∃ c k, w_trace w' = w_trace w ++ [PostMessage c "*"] ∧
          w_promises w'
          = w_promises w ++ [{| p_state := Fulfilled; p_catch := k |}]) ∧
  (∀ options, attached o options w →
     length (w_promises w')
     = (length (w_promises w) + length (first_heights [entries]))%nat).
Proof.
  intros Hwf. cbv zeta. pose proof (wf_quiet w Hwf) as Hq.
  assert (Hidle :
    (notify_and_answer uuid
       (parent_listener to_string first_code_unit first_code_point true)
       o w entries = w ∧
     (entries = [] ∨ ∀ options, ¬ attached o options w)) ∨
    ∃ options e rest, entries = e :: rest ∧
      step uuid w (Resize o entries)
      = run_microtasks (observer_callback uuid options entries w)).
  { unfold notify_and_answer. cbn [step]. unfold notify.
    destruct (w_observers w !! o) as [[options [|tg tgs]]|] eqn:Hob.
    - left. rewrite drop_all. split; [done|]. right.
      intros options' (ob & Hob' & _ & Htg). by simplify_eq.
    - destruct entries as [|e rest]; [|right; by eauto].
      left. cbn [observer_callback].
      rewrite run_microtasks_quiet by done. rewrite drop_all. by eauto.
    - left. rewrite drop_all. split; [done|]. right.
      intros options' (ob & Hob' & _). by simplify_eq. }
  destruct Hidle as [[-> Hwhy]|(options & e & rest & -> & Hstep)].
  { split_and!; try done; [by left|]. intros options Hatt.
    destruct Hwhy as [->|Hno]; [cbn; lia|by destruct (Hno options)]. }
  unfold notify_and_answer. rewrite Hstep.
  set (w1 := run_microtasks (observer_callback uuid options (e :: rest) w)).
  set (l := new_listener uuid (rect_height (contentRect e)) w).
  destruct (observer_callback_fields options e rest w Hq)
    as (Htrace & Hpromises & _ & Hobs & _).
  destruct (observer_callback_tables options e rest w) as (Hls & Hts).
  fold w1 l in Htrace, Hpromises, Hobs, Hls, Hts.
  assert (Hwf1 : wf w1).
  { apply (starts_wf uuid uuid_inj w w1 l Hwf).
    apply observer_callback_cons. }
  rewrite Htrace, posted_app, drop_app_length.
  cbn [posted flat_map fst l_command l new_listener].
  rewrite parent_replies_resize. cbn [app fmap list_fmap].
  set (reply := VObject _).
  change (run uuid [Message reply] w1) with (dispatch_message reply w1).
  assert (Hl1 : l ∈ w_listeners w1).
  { rewrite Hls. apply elem_of_app. right. by apply list_elem_of_singleton. }
  assert (Hyes : is_response (l_command l) reply = true).
  { apply is_response_spec. by split. }
  destruct (dispatch_message_spec uuid reply w1 Hwf1) as (Hwf' & _).
  destruct (dispatch_message_acknowledged reply w1 l Hwf1 Hl1 Hyes)
    as (k & Hk & Heq).
  rewrite Heq in Hwf' |- *.
  assert (Hmade : w_promises
            (set_promises
               (<[l_dispatch l := {| p_state := Fulfilled; p_catch := k |}]>
                  (w_promises w1))
               (removeEventListener_message (l_dispatch l)
                  (clearTimeout (l_timeout l) w1)))
          = w_promises w ++ [{| p_state := Fulfilled; p_catch := k |}]).
  { cbn. rewrite Hpromises in Hk |- *. cbn in Hk |- *.
    rewrite list_lookup_middle in Hk by done. injection Hk as <-.
    by rewrite insert_app_r_alt, Nat.sub_diag by done. }
  split_and!; [done| | |done| |].
  - cbn. rewrite Hls, filter_app, filter_all.
    + rewrite filter_cons, decide_False by (intros Hne; by apply Hne).
      apply app_nil_r.
    + intros x Hx. destruct (wf_listener w Hwf x Hx) as [Hpend _].
      apply promise_state_lt in Hpend. cbn. lia.
  - cbn. rewrite Hts, filter_insert_timer by (intros Hne; by apply Hne).
    apply filter_all. intros t Ht.
    destruct (wf_timer w Hwf t Ht) as (Hlt & _). cbn. lia.
  - right. eexists _, k. split; [exact Htrace|exact Hmade].
  - intros _ _. rewrite Hmade, length_app. done.
Qed.

Lemma first_heights_cons entries batches :
  first_heights (entries :: batches)
  = first_heights [entries] ++ first_heights batches.
Proof. unfold first_heights. cbn. by destruct (head entries). Qed.

(** On a document that has the frame, every dispatch is answered. *)
Lemma exchange_with_frame
    to_string first_code_unit first_code_point rs body evs o batches :
  let page := parent_listener to_string first_code_unit first_code_point
                true in
  let w := run uuid evs (initial_world rs body) in
  let w' := fold_left (notify_and_answer uuid page o) batches w in
  w_listeners w' = w_listeners w ∧ w_timers w' = w_timers w ∧
  ∃ made extra,
    w_promises w' = w_promises w ++ made ∧
    Forall (λ p, p_state p = Fulfilled) made ∧
    w_trace w' = w_trace w ++ extra ∧
    Forall (λ e, ∃ c, e = PostMessage c "*") extra ∧
    length made = length extra ∧
    (∀ options, attached o options w →
       length made = length (first_heights batches)).
Proof.
  intros page w.
  assert (Hwf : wf w) by (apply run_wf, wf_initial; done).
  clearbody w. cbv zeta. revert w Hwf.
  induction batches as [|entries batches IH]; intros w Hwf.
  { split_and!; try done. exists [], []. by rewrite !app_nil_r. }
  cbn [fold_left].
  destruct (notify_and_answer_spec to_string first_code_unit
              first_code_point o entries w Hwf)
    as (Hwf1 & Hls & Hts & Hobs & Hone & Hcount).
  fold page in Hwf1, Hls, Hts, Hobs, Hone, Hcount.
  destruct (IH _ Hwf1) as (IHls & IHts & made & extra & Hp & Hmade & Ht
                           & Hextra & Hlen & IHcount).
  rewrite IHls, IHts, Hls, Hts. split_and!; try done.
  assert (Hatt : ∀ options, attached o options w →
            attached o options (notify_and_answer uuid page o w entries)).
  { intros options Hatt. unfold attached. by rewrite Hobs. }
  destruct Hone as [Heq|(c & k & Htrace & Hpromises)].
  - exists made, extra. rewrite Hp, Ht, Heq. split_and!; try done.
    intros options Ha. rewrite (IHcount options (Hatt options Ha)).
    specialize (Hcount options Ha). rewrite Heq in Hcount.
    rewrite first_heights_cons, length_app. lia.
  - exists ({| p_state := Fulfilled; p_catch := k |} :: made),
      (PostMessage c "*" :: extra).
    rewrite Hp, Ht, Hpromises, Htrace, <- !app_assoc.
    split_and!; try done; [by constructor|constructor; by eauto
                          |cbn; by rewrite Hlen|].
    intros options Ha. cbn [length].
    rewrite (IHcount options (Hatt options Ha)).
    specialize (Hcount options Ha).
    rewrite Hpromises, length_app in Hcount. cbn [length] in Hcount.
    rewrite first_heights_cons, length_app. lia.
Qed.

(** Without the frame the parent page posts nothing, whatever arrives. *)
Lemma parent_listener_without_frame
    to_string first_code_unit first_code_point data :
  (parent_listener to_string first_code_unit first_code_point false data).2
  = [].
Proof. unfold parent_listener. by repeat case_match. Qed.

Lemma notify_and_answer_without_frame
    to_string first_code_unit first_code_point o w entries :
  notify_and_answer uuid
    (parent_listener to_string first_code_unit first_code_point false)
    o w entries
  = step uuid w (Resize o entries).
Proof.
  unfold notify_and_answer.
  generalize (drop (length (posted (w_trace w)))
                (posted (w_trace (step uuid w (Resize o entries))))).
  intros commands.
  assert (flat_map
            (λ p, parent_replies
                    (parent_listener to_string first_code_unit
                       first_code_point false) p.1) commands = []) as ->; [|done].
  induction commands as [|p commands IH]; [done|].
  cbn [flat_map]. rewrite IH. unfold parent_replies.
  by rewrite parent_listener_without_frame.
Qed.

Lemma promise_state_None w p :
  promise_state w p = None ↔ (length (w_promises w) ≤ p)%nat.
Proof.
  unfold promise_state. rewrite fmap_None. apply lookup_ge_None.
Qed.

(** A notification settles nothing: the promises there are keep their
    state, and a promise it makes is pending. *)
Lemma resize_step_promises o entries w :
  wf w →
  let w1 := step uuid w (Resize o entries) in
  wf w1 ∧ w_observers w1 = w_observers w ∧
  (∀ p, promise_state w p ≠ None → promise_state w1 p = promise_state w p) ∧
  (∀ p, promise_state w p = None →
        promise_state w1 p = None ∨ promise_state w1 p = Some Pending) ∧
  (∀ options, attached o options w →
     length (w_promises w1)
     = (length (w_promises w) + length (first_heights [entries]))%nat).
Proof.
  intros Hwf. cbv zeta. pose proof (wf_quiet w Hwf) as Hq.
  assert (Hidle :
    (step uuid w (Resize o entries) = w ∧
     (entries = [] ∨ ∀ options, ¬ attached o options w)) ∨
    ∃ options e rest, entries = e :: rest ∧
      step uuid w (Resize o entries)
      = run_microtasks (observer_callback uuid options entries w)).
  { cbn [step]. unfold notify.
    destruct (w_observers w !! o) as [[options [|tg tgs]]|] eqn:Hob.
    - left. split; [done|]. right.
      intros options' (ob & Hob' & _ & Htg). by simplify_eq.
    - destruct entries as [|e rest]; [|right; by eauto].
      left. cbn [observer_callback].
      rewrite run_microtasks_quiet by done. by eauto.
    - left. split; [done|]. right.
      intros options' (ob & Hob' & _). by simplify_eq. }
  destruct Hidle as [[-> Hwhy]|(options & e & rest & -> & ->)].
  { split_and!; try done; [by left|]. intros options Hatt.
    destruct Hwhy as [->|Hno]; [cbn; lia|by destruct (Hno options)]. }
  destruct (observer_callback_fields options e rest w Hq)
    as (_ & Hpromises & _ & Hobs & _).
  split_and!; [|done| | |].
  - apply (starts_wf uuid uuid_inj w _
             (new_listener uuid (rect_height (contentRect e)) w) Hwf).
    apply observer_callback_cons.
  - intros p Hp. unfold promise_state in *. rewrite Hpromises.
    rewrite lookup_app_l; [done|]. apply lookup_lt_is_Some.
    by destruct (w_promises w !! p); [eexists|].
  - intros p Hp%promise_state_None. unfold promise_state.
    rewrite Hpromises, lookup_app_r by done.
    destruct (p - length (w_promises w))%nat as [|j]; [by right|by left].
  - intros _ _. rewrite Hpromises, length_app. done.
Qed.

Lemma resize_run_kept o batches w p :
  wf w → promise_state w p ≠ None →
  promise_state (run uuid (Resize o <$> batches) w) p = promise_state w p.
Proof.
  revert w. induction batches as [|entries batches IH]; intros w Hwf Hp;
    [done|].
  change (run uuid (Resize o <$> entries :: batches) w)
    with (run uuid (Resize o <$> batches) (step uuid w (Resize o entries))).
  destruct (resize_step_promises o entries w Hwf) as (Hwf1 & _ & Hkept & _).
  rewrite IH; [by apply Hkept|done|]. by rewrite Hkept.
Qed.

Lemma resize_run_promises o batches w :
  wf w →
  let w' := run uuid (Resize o <$> batches) w in
  wf w' ∧
  (∀ p, promise_state w p = None →
        promise_state w' p = None ∨ promise_state w' p = Some Pending) ∧
  (∀ options, attached o options w →
     length (w_promises w')
     = (length (w_promises w) + length (first_heights batches))%nat).
Proof.
  cbv zeta. revert w. induction batches as [|entries batches IH];
    intros w Hwf.
  { split_and!; [done|by left|]. intros. cbn. lia. }
  change (run uuid (Resize o <$> entries :: batches) w)
    with (run uuid (Resize o <$> batches) (step uuid w (Resize o entries))).
  destruct (resize_step_promises o entries w Hwf)
    as (Hwf1 & Hobs & Hkept & Hnew & Hcount).
  cbv zeta in Hwf1, Hobs, Hkept, Hnew, Hcount.
  destruct (IH _ Hwf1) as (IHwf & IHnew & IHcount).
  split_and!; [done| |].
  - intros p Hp. destruct (Hnew p Hp) as [Hnone|Hpend]; [by apply IHnew|].
    right. rewrite resize_run_kept; [done..|]. by rewrite Hpend.
  - intros options Hatt.
    rewrite (IHcount options), (Hcount options Hatt);
      [|unfold attached; by rewrite Hobs].
    rewrite (first_heights_cons entries batches), length_app. lia.
Qed.

(** A pending dispatch is rejected once 20000 ms have passed. *)
Lemma pending_times_out w p :
  wf w → promise_state w p = Some Pending →
  promise_state (step uuid w (Advance 20000)) p
  = Some (Rejected timeout_error).
Proof.
  intros Hwf (l & Hl & <-)%(wf_pending uuid w Hwf).
  destruct (wf_listener w Hwf l Hl) as (_ & t & Ht & Hh & Hd).
  destruct (wf_timer w Hwf t Ht) as (_ & Hdue & _).
  destruct (step_spec uuid uuid_inj w (Advance 20000) Hwf)
    as (_ & _ & _ & Hfl).
  destruct (Hfl l (t_due t)) as [Hfired _]; [|by apply Hfired].
  split; [done|]. rewrite <- Hh, <- Hd. by destruct t.
Qed.

(** X8.  The child and the example parent page together.  The page as
    the example server sends it has no element [testFrame]: its
    listener throws on every command and posts nothing, so a run of
    notifications with that page on the other side is the run of the
    notifications alone, and every promise made on the way stays
    pending and is rejected with the timeout error once 20000 ms have
    passed.  On a document that has the frame, every notification is
    answered: every promise made on the way is fulfilled, the listeners
    and timers are those there were before, and the child has written
    nothing but the posted commands, one for each promise: no warning,
    no call of a hook.  Either way an observer that observes something
    makes one promise for every batch that is not empty. *)
Theorem exchange_with_the_example_page
    to_string first_code_unit first_code_point (testFrame : bool)
    rs body evs o batches :
  let page := parent_listener to_string first_code_unit first_code_point
                testFrame in
  let w := run uuid evs (initial_world rs body) in
  let w' := fold_left (notify_and_answer uuid page o) batches w in
  (∀ options, attached o options w →
     length (w_promises w')
     = (length (w_promises w) + length (first_heights batches))%nat) ∧
  if testFrame
  then
    w_listeners w' = w_listeners w ∧ w_timers w' = w_timers w ∧
    ∃ made extra,
      w_promises w' = w_promises w ++ made ∧
      Forall (λ p, p_state p = Fulfilled) made ∧
      w_trace w' = w_trace w ++ extra ∧
      Forall (λ e, ∃ c, e = PostMessage c "*") extra ∧
      length made = length extra
  else
    w' = run uuid (Resize o <$> batches) w ∧
    ∀ p, promise_state w p = None →
      promise_state w' p = None ∨
      (promise_state w' p = Some Pending ∧
       promise_state (step uuid w' (Advance 20000)) p
       = Some (Rejected timeout_error)).
Proof.
  intros page w w'. destruct testFrame.
  - destruct (exchange_with_frame to_string first_code_unit
                first_code_point rs body evs o batches)
      as (Hls & Hts & made & extra & Hp & Hmade & Ht & Hextra & Hlen
          & Hcount).
    fold page w in Hls, Hts, Hp, Ht, Hcount. fold w' in Hls, Hts, Hp, Ht.
    split.
    + intros options Hatt. rewrite Hp, length_app.
      by rewrite (Hcount options Hatt).
    + split_and!; try done. by exists made, extra.
  - assert (Hwf : wf w) by (apply run_wf, wf_initial; done).
    assert (Hrun : w' = run uuid (Resize o <$> batches) w).
    { subst w' page. clearbody w. revert w Hwf.
      induction batches as [|entries batches IH]; intros w Hwf; [done|].
      cbn [fold_left]. rewrite notify_and_answer_without_frame.
      apply IH. by apply step_wf. }
    destruct (resize_run_promises o batches w Hwf) as (Hwf' & Hnew & Hcount).
    cbv zeta in Hwf', Hnew, Hcount. rewrite <- Hrun in Hwf', Hnew, Hcount.
    split_and!; try done.
    intros p Hp. destruct (Hnew p Hp) as [?|Hpend]; [by left|right].
    split; [done|]. by apply pending_times_out.
Qed.

(** ** A hook that throws *)

(** X9.  When [onError] throws, the handler ends there:
    [captureError] is not called, and the promise [.catch] returned is
    rejected with nothing to handle it.  So when the timer of a dispatch
    fires whose [onError] throws, the page writes the warning, the call
    of [onError] and the unhandled rejection, and nothing else; the
    dispatch is rejected and retired all the same, and the tables of the
    page stay consistent. *)
Theorem throwing_onError_skips_captureError rs body evs t options h :
  let w := run uuid evs (initial_world rs body) in
  t ∈ w_timers w →
  p_catch <$> (w_promises w !! t_dispatch t) = Some (Some options) →
  onError options = Some h → hook_run h timeout_error = Throw →
  let w' := fire_timer w t in
  (∀ x, catch_handler options timeout_error x
        = (Throw,
           set_trace
             (w_trace x ++ [ConsoleWarn (message timeout_error);
                            Invoke h timeout_error]) x)) ∧
  w_trace w'
  = w_trace w ++ [ConsoleWarn "Timeout exceeded for command resize";
                  Invoke h timeout_error; UnhandledRejection] ∧
  promise_state w' (t_dispatch t) = Some (Rejected timeout_error) ∧
  (t ∉ w_timers w') ∧
  (∀ l, l ∈ w_listeners w' → l_dispatch l ≠ t_dispatch t) ∧
  wf w'.
Proof.
  intros w Ht Hcatch Hh Hthrow w'.
  assert (Hwf : wf w) by (apply run_wf, wf_initial; done).
  split_and!.
  - intros x. unfold catch_handler, invoke. rewrite Hh, Hthrow.
    unfold console_warn, emit, set_trace; cbn. by rewrite <- !app_assoc.
  - subst w'. destruct (fire_timer_cases uuid w t Hwf)
      as [[Hgone _]|(l & k & Hl & Hto & Hk & ->)]; [by destruct (Hgone t Ht)|].
    destruct (wf_listener w Hwf l Hl) as (_ & t0 & Ht0 & Hh0 & Hd0).
    assert (t0 = t) as ->.
    { apply (NoDup_fmap_eq t_handle (w_timers w)); [apply Hwf|done..|].
      congruence. }
    rewrite Hd0, Hk in Hcatch. injection Hcatch as ->.
    unfold set_trace at 1. cbn [w_trace]. unfold job_effects, hook_effects.
    by rewrite Hh, Hthrow.
  - subst w'. destruct (fire_timer_cases uuid w t Hwf)
      as [[Hgone _]|(l & k & Hl & Hto & Hk & ->)]; [by destruct (Hgone t Ht)|].
    destruct (wf_listener w Hwf l Hl) as (_ & t0 & Ht0 & Hh0 & Hd0).
    assert (t0 = t) as ->.
    { apply (NoDup_fmap_eq t_handle (w_timers w)); [apply Hwf|done..|].
      congruence. }
    unfold promise_state. cbn. rewrite Hd0.
    rewrite list_lookup_insert_eq; [done|]. by eapply lookup_lt_Some.
  - subst w'. destruct (fire_timer_cases uuid w t Hwf)
      as [[Hgone _]|(l & k & Hl & Hto & Hk & ->)]; [by destruct (Hgone t Ht)|].
    cbn. intros [Hne _]%list_elem_of_filter. by destruct Hne.
  - subst w'. destruct (fire_timer_cases uuid w t Hwf)
      as [[Hgone _]|(l & k & Hl & Hto & Hk & ->)]; [by destruct (Hgone t Ht)|].
    destruct (wf_listener w Hwf l Hl) as (_ & t0 & Ht0 & Hh0 & Hd0).
    assert (t0 = t) as ->.
    { apply (NoDup_fmap_eq t_handle (w_timers w)); [apply Hwf|done..|].
      congruence. }
    cbn. intros x [Hne _]%list_elem_of_filter. congruence.
  - by apply fire_timer_wf.
Qed.

End Ledger.

(** ** Observers: who is notified, and what that posts *)

Section Observers.

Variable uuid : nat → string.

Lemma posted_job_effects js : posted (flat_map job_effects js) = [].
Proof.
  induction js as [|[[[h1|] [h2|]] error] js IH]; [done|..];
    cbn [flat_map]; rewrite posted_app, IH; cbn;
    try destruct (hook_run h1 error); try destruct (hook_run h2 error); done.
Qed.

Lemma observers_run_microtasks w :
  w_observers (run_microtasks w) = w_observers w.
Proof. by rewrite run_microtasks_eq. Qed.

Lemma observers_invoke_listener data w x :
  w_observers (invoke_listener data w x) = w_observers w.
Proof.
  unfold invoke_listener. destruct (list_find _ _) as [[i l]|]; [|done].
  assert (Hl : w_observers (listener l data w).2 = w_observers w).
  { unfold listener. destruct (get_property data "receiver"); [|done].
    destruct (negb _); [done|].
    destruct (get_property data "correspondingCommandId"); [|done].
    destruct (negb _); [done|]. cbn. unfold resolve; cbn.
    by destruct (w_promises w !! l_dispatch l) as [[[] ?]|]. }
  destruct (listener l data w) as [[] w1]; cbn in Hl;
    by rewrite observers_run_microtasks.
Qed.

Lemma observers_fire_timer w t :
  w_observers (fire_timer w t) = w_observers w.
Proof.
  unfold fire_timer. destruct (list_find _ _) as [[i t']|]; [|done].
  rewrite observers_run_microtasks. unfold timeout_callback, reject; cbn.
  by destruct (w_promises w !! t_dispatch t') as [[[] [k|]]|].
Qed.

Lemma observers_dispatch_message data w :
  w_observers (dispatch_message data w) = w_observers w.
Proof.
  unfold dispatch_message. generalize (w_listeners w) as ls.
  intros ls. revert w. induction ls as [|x ls IH]; intros w; [done|].
  cbn [fold_left]. by rewrite IH, observers_invoke_listener.
Qed.

Lemma observers_advance dt w : w_observers (advance dt w) = w_observers w.
Proof.
  unfold advance. generalize (filter (λ t, t_due t ≤ w_now (set_now (w_now w + dt) w))
                                (w_timers (set_now (w_now w + dt) w))) as ts.
  change (w_observers w) with (w_observers (set_now (w_now w + dt) w)).
  generalize (set_now (w_now w + dt) w) as w0.
  intros w0 ts. revert w0. induction ts as [|x ts IH]; intros w0; [done|].
  cbn [fold_left]. by rewrite IH, observers_fire_timer.
Qed.

(** What a notification of an observer with a target does. *)
Lemma notify_attached o options entries w :
  attached o options w →
  notify uuid o entries w
  = run_microtasks (observer_callback uuid options entries w).
Proof.
  intros (ob & Hob & <- & Htg). unfold notify. rewrite Hob.
  by destruct ob as [options [|tg tgs]].
Qed.

Lemma notify_detached o entries w :
  detached o w → notify uuid o entries w = w.
Proof.
  intros (ob & Hob & Htg). unfold notify. rewrite Hob.
  destruct ob as [options tgs]. cbn in Htg. by subst tgs.
Qed.

Lemma observers_notify o entries w :
  w_observers (notify uuid o entries w) = w_observers w.
Proof.
  unfold notify.
  destruct (w_observers w !! o) as [[options [|tg tgs]]|]; try done.
  rewrite observers_run_microtasks. destruct entries as [|e rest]; [done|].
  unfold observer_callback, sendResizeCommand, promise_catch; cbn.
  by rewrite list_lookup_middle.
Qed.

Lemma observers_ready_fold rls x :
  ∃ obs,
    w_observers
      (fold_left (λ w l, run_microtasks (ready_listener l w)) rls x)
    = w_observers x ++ obs.
Proof.
  revert x. induction rls as [|rl rls IH]; intros x.
  - exists []. by rewrite app_nil_r.
  - cbn [fold_left].
    destruct (IH (run_microtasks (ready_listener rl x))) as [obs ->].
    destruct (ready_turn_spec rl x) as (-> & _). eexists.
    by rewrite <- app_assoc.
Qed.

(** Every step keeps the observers there are and makes new ones only
    at the end of the table; only the call of a cleanup disconnects
    one. *)
Lemma observers_step w ev :
  match ev with
  | CallCleanup c =>
      w_observers (step uuid w ev)
      = match cleanup_target c w with
        | Some o =>
            alter (λ ob, {| o_options := o_options ob; o_targets := [] |})
              o (w_observers w)
        | None => w_observers w
        end
  | _ => ∃ obs, w_observers (step uuid w ev) = w_observers w ++ obs
  end.
Proof.
  assert (Hsame : ∀ w', w_observers w' = w_observers w →
    ∃ obs, w_observers w' = w_observers w ++ obs).
  { intros w' ->. exists []. by rewrite app_nil_r. }
  destruct ev as [data|dt|o entries| | |options|options|c]; cbn [step].
  - apply Hsame, observers_dispatch_message.
  - apply Hsame, observers_advance.
  - apply Hsame, observers_notify.
  - unfold fire_DOMContentLoaded.
    destruct (w_readyState w); try by apply Hsame.
    apply (observers_ready_fold _ (set_readyState Interactive w)).
  - apply Hsame. unfold fire_load. by destruct (w_readyState w).
  - destruct (initIFrameResizing_browser_spec options w)
      as (_ & -> & _). by eexists.
  - unfold autoInitIFrameResizing_browser.
    destruct (w_readyState w); try by apply Hsame.
    all: destruct (initIFrameResizing_browser_spec options w)
      as (_ & Ho & _);
      destruct (initIFrameResizing_browser options w) as [f w1];
      cbn in *; rewrite Ho; by eexists.
  - unfold call_cleanup, cleanup_target.
    destruct c as [[|o]|cell]; try done.
    by destruct (w_cells w !! cell) as [[|o]|].
Qed.

Lemma detached_step o w ev : detached o w → detached o (step uuid w ev).
Proof.
  intros (ob & Hob & Htg). unfold detached.
  pose proof (observers_step w ev) as Hobs.
  destruct ev as [data|dt|o' entries| | |options|options|c].
  1-7: destruct Hobs as [obs ->]; exists ob; (split; [|done]);
       by apply lookup_app_l_Some.
  rewrite Hobs. destruct (cleanup_target c w) as [o'|]; [|by exists ob].
  rewrite list_lookup_alter. destruct (decide (o' = o)) as [->|Hne].
  - rewrite Hob. by eexists.
  - by exists ob.
Qed.

Lemma run_detached o evs w :
  detached o w →
  run uuid evs w = run uuid (without_resize o evs) w ∧
  detached o (run uuid evs w).
Proof.
  revert w. induction evs as [|ev evs IH]; intros w Hdet; [done|].
  assert (Hnext : detached o (step uuid w ev)) by by apply detached_step.
  destruct (IH _ Hnext) as [Hrun Hdet']. split; [|done].
  change (run uuid (ev :: evs) w) with (run uuid evs (step uuid w ev)).
  destruct ev as [data|dt|o' entries| | |options|options|c];
    try (cbn [without_resize List.filter]; exact Hrun).
  cbn [without_resize List.filter].
  destruct (Nat.eqb_spec o' o) as [->|Hne]; cbn [negb].
  - cbn [step] in *. rewrite notify_detached in * by done. by apply IH.
  - exact Hrun.
Qed.

(** X10.  An observer without a target never dispatches: the page goes
    through a sequence of events exactly as it does through the sequence
    without that observer's notifications, and nothing attaches the
    observer again.  Such is every observer after the cleanup
    [() => { observer.disconnect(); }] has been called, and the observer
    [initIFrameResizing] makes on a page without a body. *)
Theorem detached_observer_never_dispatches o w evs :
  let unnoticed x := run uuid evs x = run uuid (without_resize o evs) x in
  (detached o w → unnoticed w ∧ detached o (run uuid evs w)) ∧
  ((o < length (w_observers w))%nat →
   unnoticed (call_cleanup (Direct (Disconnect o)) w)) ∧
  (∀ options, w_body w = None → o = length (w_observers w) →
     (initIFrameResizing_browser options w).1 = Disconnect o ∧
     unnoticed (initIFrameResizing_browser options w).2).
Proof.
  cbv zeta. split_and!.
  - apply run_detached.
  - intros [ob Hob]%lookup_lt_is_Some_2. apply run_detached.
    unfold detached, call_cleanup, call_init_cleanup, disconnect; cbn.
    rewrite list_lookup_alter_eq, Hob. by eexists.
  - intros options Hbody ->.
    destruct (initIFrameResizing_browser_spec options w) as (Hc & Ho & _).
    split; [done|]. apply run_detached. unfold detached. rewrite Ho.
    rewrite list_lookup_middle by done. eexists. split; [done|].
    unfold body_targets. by rewrite Hbody.
Qed.

Lemma notify_post o options entries w :
  attached o options w →
  let w' := notify uuid o entries w in
  posted (w_trace w')
  = posted (w_trace w) ++
    match entries with
    | [] => []
    | e :: _ =>
        [({| c_id := uuid (w_uuids w); c_sender := CHILD;
             c_receiver := PARENT; c_name := "resize";
             c_payload := [[VNumber (rect_height (contentRect e))]] |}, "*")]
    end ∧
  w_uuids w' = match entries with [] => w_uuids w | _ => S (w_uuids w) end ∧
  attached o options w'.
Proof.
  intros Hatt. cbv zeta. split_and!.
  - rewrite (notify_attached o options) by done. rewrite run_microtasks_eq.
    destruct entries as [|e rest].
    + cbn. by rewrite posted_app, posted_job_effects.
    + unfold observer_callback, sendResizeCommand, promise_catch; cbn.
      rewrite list_lookup_middle by done. cbn.
      by rewrite !posted_app, posted_job_effects, app_nil_r.
  - rewrite (notify_attached o options) by done. rewrite run_microtasks_eq.
    destruct entries as [|e rest]; [done|].
    unfold observer_callback, sendResizeCommand, promise_catch; cbn.
    by rewrite list_lookup_middle.
  - unfold attached. by rewrite observers_notify.
Qed.

(** X11.  Notifications are neither dropped nor merged nor reordered:
    after a sequence of notification batches for an observer that
    observes something, the commands posted are, in the order of the
    batches, one for every batch that is not empty, with the height of
    its first entry as it is and the next identifier of the generator.
    The observer stays attached. *)
Theorem notifications_post_in_order o options w batches :
  attached o options w →
  let w' := run uuid (Resize o <$> batches) w in
  posted (w_trace w')
  = posted (w_trace w) ++
    imap (λ i height,
            ({| c_id := uuid (w_uuids w + i); c_sender := CHILD;
                c_receiver := PARENT; c_name := "resize";
                c_payload := [[VNumber height]] |}, "*"))
      (first_heights batches) ∧
  w_uuids w' = (w_uuids w + length (first_heights batches))%nat ∧
  attached o options w'.
Proof.
  cbv zeta. revert w.
  induction batches as [|entries batches IH]; intros w Hatt.
  { cbn. by rewrite app_nil_r, Nat.add_0_r. }
  destruct (notify_post o options entries w Hatt) as (Hpost & Hdrawn & Hatt').
  cbv zeta in Hpost, Hdrawn, Hatt'.
  destruct (IH _ Hatt') as (IHpost & IHdrawn & IHatt).
  change (run uuid (Resize o <$> entries :: batches) w)
    with (run uuid (Resize o <$> batches) (notify uuid o entries w)).
  rewrite IHpost, IHdrawn, Hpost, Hdrawn.
  destruct entries as [|e rest].
  - rewrite app_nil_r. by change (first_heights ([] :: batches))
      with (first_heights batches).
  - change (first_heights ((e :: rest) :: batches))
      with (rect_height (contentRect e) :: first_heights batches).
    rewrite imap_cons, Nat.add_0_r, <- app_assoc. cbn [length app].
    split_and!; [|lia|done]. do 2 f_equal. apply imap_ext.
    intros i height _. cbn. by rewrite Nat.add_succ_r.
Qed.

(** X12.  An observer that observes something keeps its options and
    its targets through every event except the call of a cleanup that
    disconnects it: the cleanup of another initialization, a message, a
    timeout, a notification or a later initialization do not detach
    it.  The call of its own cleanup detaches it. *)
Theorem observer_stays_attached_until_its_cleanup o options w ev :
  attached o options w →
  match ev with
  | CallCleanup c =>
      if decide (cleanup_target c w = Some o)
      then detached o (step uuid w ev)
      else attached o options (step uuid w ev)
  | _ => attached o options (step uuid w ev)
  end.
Proof.
  intros (ob & Hob & Hopt & Htg).
  pose proof (observers_step w ev) as Hobs.
  destruct ev as [data|dt|o' entries| | |options'|options'|c].
  1-7: destruct Hobs as [obs Hobs]; exists ob; rewrite Hobs;
       split_and!; try done; by apply lookup_app_l_Some.
  unfold detached, attached. rewrite Hobs.
  destruct (cleanup_target c w) as [o'|].
  - rewrite list_lookup_alter.
    destruct (decide (Some o' = Some o)) as [[= ->]|Hne].
    + rewrite decide_True, Hob by done. by eexists.
    + rewrite decide_False by congruence. by exists ob.
  - rewrite decide_False by done. by exists ob.
Qed.

End Observers.

(** ** Where there is no [window] *)

(** X13.  Without a [window] the module is inert.  Whatever a program
    does with it, loading it, calling its functions, calling what they
    returned, the realm stays server side and the console gets the
    warning of [initIFrameResizing] once for every call of that function
    and nothing else; [autoInitIFrameResizing] is silent.  Every cleanup
    handed out there is [() => {}]. *)
Theorem server_side_is_inert console uses :
  fold_left use uses (ServerSide console)
  = ServerSide
      (console ++ replicate (count is_init_call uses) server_side_warning) ∧
  ∀ f options, (call_exported f options (ServerSide console)).1 = Direct NoOp.
Proof.
  split; [|by intros []].
  revert console. induction uses as [|u uses IH]; intros console.
  { unfold count; cbn. by rewrite app_nil_r. }
  cbn [fold_left].
  destruct u as [|[] options|c]; cbn [use load_module call_exported
    initIFrameResizing autoInitIFrameResizing call_cleanup_in snd];
    rewrite IH; unfold count; cbn [List.filter is_init_call length replicate];
    try done.
  by rewrite <- app_assoc.
Qed.

(** ** Several deferred initializations *)

Section Deferred.

Variable uuid : nat → string.

Lemma autoInitIFrameResizing_browser_loading options w :
  w_readyState w = Loading →
  autoInitIFrameResizing_browser options w
  = (CallVariable (length (w_cells w)),
     addEventListener_DOMContentLoaded
       {| rl_options := options; rl_cell := length (w_cells w) |}
       (set_cells (w_cells w ++ [NoOp]) w)).
Proof. intros Hrs. unfold autoInitIFrameResizing_browser. by rewrite Hrs. Qed.

Lemma run_autoInit_loading optionss w :
  w_readyState w = Loading →
  let w' := run uuid (CallAutoInit <$> optionss) w in
  w_readyState w' = Loading ∧ w_observers w' = w_observers w ∧
  w_body w' = w_body w ∧
  w_cells w' = w_cells w ++ replicate (length optionss) NoOp ∧
  w_ready_listeners w'
  = w_ready_listeners w ++
    imap (λ i options, {| rl_options := options;
                          rl_cell := length (w_cells w) + i |}) optionss.
Proof.
  cbv zeta. revert w.
  induction optionss as [|options optionss IH]; intros w Hrs.
  { cbn. by rewrite !app_nil_r. }
  change (run uuid (CallAutoInit <$> options :: optionss) w)
    with (run uuid (CallAutoInit <$> optionss)
            (autoInitIFrameResizing_browser options w).2).
  rewrite autoInitIFrameResizing_browser_loading by done.
  cbn [snd]. set (w1 := addEventListener_DOMContentLoaded _ _).
  destruct (IH w1) as (Hrs' & Ho & Hb & Hc & Hrl); [done|].
  rewrite Hrs', Ho, Hb, Hc, Hrl. split_and!; try done.
  - subst w1. cbn. by rewrite <- app_assoc.
  - subst w1. cbn. rewrite <- app_assoc, Nat.add_0_r. do 2 f_equal.
    apply imap_ext. intros i x _. cbn. f_equal. rewrite length_app. cbn. lia.
Qed.

Lemma ready_fold_cells optionss x c0 :
  (c0 + length optionss ≤ length (w_cells x))%nat →
  let rls := imap (λ i options, {| rl_options := options;
                                   rl_cell := c0 + i |}) optionss in
  let x' := fold_left (λ w l, run_microtasks (ready_listener l w)) rls x in
  w_observers x'
  = w_observers x ++
    ((λ options, {| o_options := options; o_targets := body_targets x |})
       <$> optionss) ∧
  length (w_cells x') = length (w_cells x) ∧
  (∀ j, (j < c0)%nat → w_cells x' !! j = w_cells x !! j) ∧
  (∀ i, (i < length optionss)%nat →
        w_cells x' !! (c0 + i)%nat
        = Some (Disconnect (length (w_observers x) + i))).
Proof.
  cbv zeta. revert x c0.
  induction optionss as [|options optionss IH]; intros x c0 Hlen.
  { cbn. rewrite app_nil_r. split_and!; try done. intros i. lia. }
  rewrite imap_cons. cbn [fold_left].
  set (rl := {| rl_options := options; rl_cell := c0 + 0 |}).
  set (x1 := run_microtasks (ready_listener rl x)).
  destruct (ready_turn_spec rl x) as (Ho & Hc & Hb & _).
  fold x1 in Ho, Hc, Hb. cbn [rl_options rl_cell rl] in Ho, Hc.
  rewrite Nat.add_0_r in Hc.
  assert (Hlen1 : length (w_cells x1) = length (w_cells x))
    by by rewrite Hc, length_insert.
  assert (Hbt : body_targets x1 = body_targets x)
    by (unfold body_targets; by rewrite Hb).
  rewrite (imap_ext _ (λ i options, {| rl_options := options;
                                       rl_cell := S c0 + i |}))
    by (intros i y _; cbn; f_equal; lia).
  cbn [length] in Hlen.
  destruct (IH x1 (S c0)) as (IHo & IHlen & IHframe & IHcells); [lia|].
  rewrite IHo, IHlen, Ho, Hbt, <- app_assoc. split_and!; try done.
  - intros j Hj. rewrite IHframe by lia. rewrite Hc.
    apply list_lookup_insert_ne. lia.
  - intros [|i] Hi.
    + rewrite !Nat.add_0_r, IHframe by lia. rewrite Hc.
      apply list_lookup_insert_eq. lia.
    + replace (c0 + S i)%nat with (S c0 + i)%nat by lia.
      rewrite IHcells by (cbn in Hi; lia). rewrite Ho, length_app. cbn.
      do 2 f_equal. lia.
Qed.

(** X14.  Every deferred initialization happens, each bound to its own
    cleanup.  When [autoInitIFrameResizing] is called several times
    while the document is loading, no observer is made until the ready
    event; the ready event makes one observer for every call, in the
    order of the calls and with the options of each; before the event
    the cleanup a call returned does nothing, after it that cleanup
    disconnects the observer of that call. *)
Theorem deferred_initializations_all_happen optionss w :
  w_readyState w = Loading → w_ready_listeners w = [] →
  let w1 := run uuid (CallAutoInit <$> optionss) w in
  let w3 := step uuid w1 DOMContentLoaded in
  w_observers w1 = w_observers w ∧
  w_observers w3
  = w_observers w ++
    ((λ options, {| o_options := options; o_targets := body_targets w |})
       <$> optionss) ∧
  ∀ i options, optionss !! i = Some options →
    let c := CallVariable (length (w_cells w) + i) in
    (autoInitIFrameResizing_browser options
       (run uuid (CallAutoInit <$> take i optionss) w)).1 = c ∧
    call_cleanup c w1 = w1 ∧
    cleanup_target c w3 = Some (length (w_observers w) + i)%nat.
Proof.
  intros Hrs Hnone w1 w3. subst w3. cbn [step].
  set (w3 := fire_DOMContentLoaded w1).
  destruct (run_autoInit_loading optionss w Hrs)
    as (Hrs1 & Ho1 & Hb1 & Hc1 & Hrl1).
  fold w1 in Hrs1, Ho1, Hb1, Hc1, Hrl1. rewrite Hnone in Hrl1. cbn in Hrl1.
  assert (Hw3 : w3 = fold_left (λ w l, run_microtasks (ready_listener l w))
                       (w_ready_listeners w1) (set_readyState Interactive w1)).
  { subst w3. unfold fire_DOMContentLoaded. by rewrite Hrs1. }
  clearbody w3. rewrite Hrl1 in Hw3.
  destruct (ready_fold_cells optionss (set_readyState Interactive w1)
              (length (w_cells w))) as (Ho3 & _ & _ & Hcells).
  { cbn. rewrite Hc1, length_app, length_replicate. lia. }
  rewrite <- Hw3 in Ho3, Hcells. cbn in Ho3, Hcells.
  assert (Hbt : body_targets (set_readyState Interactive w1) = body_targets w).
  { unfold body_targets. cbn. by rewrite Hb1. }
  split_and!; [done|by rewrite Ho3, Hbt, Ho1|].
  intros i options Hi. cbv zeta.
  assert (Hlt : (i < length optionss)%nat) by by eapply lookup_lt_Some.
  split_and!.
  - destruct (run_autoInit_loading (take i optionss) w Hrs)
      as (Hrsi & _ & _ & Hci & _).
    rewrite autoInitIFrameResizing_browser_loading by done.
    cbn [fst]. f_equal. rewrite Hci, length_app, length_replicate.
    rewrite length_take. lia.
  - cbn [call_cleanup]. rewrite Hc1.
    rewrite lookup_app_r by lia.
    replace (length (w_cells w) + i - length (w_cells w))%nat with i by lia.
    by rewrite lookup_replicate_2.
  - cbn [cleanup_target]. rewrite Hcells by done. by rewrite Ho1.
Qed.

End Deferred.

(** ** The example application *)

(** X15.  The class [MyApplication] of the examples.  [destroy] calls
    the cleanup once and forgets it, so a second [destroy] does
    nothing.  On a document past loading, [init] attaches an observer
    and [destroy] detaches it.  On a document still loading, [destroy]
    before the ready event calls a cleanup that does nothing and forgets
    it: the ready event still makes the observer, with the options of
    the application, and [destroy] no longer disconnects it. *)
Theorem example_application_destroy app w :
  let started := MyApplication_init app w in
  let stopped := MyApplication_destroy started.1 started.2 in
  let o := length (w_observers w) in
  MyApplication_destroy stopped.1 stopped.2 = stopped ∧
  resizeCleanup stopped.1 = None ∧
  (w_readyState w ≠ Loading →
   w_observers started.2 !! o
   = Some {| o_options := MyApplication_options;
             o_targets := body_targets w |} ∧
   detached o stopped.2) ∧
  (w_readyState w = Loading →
   stopped.2 = started.2 ∧ w_observers stopped.2 = w_observers w ∧
   let w3 := fire_DOMContentLoaded stopped.2 in
   (∃ o', w_observers w3 !! o'
          = Some {| o_options := MyApplication_options;
                    o_targets := body_targets w |}) ∧
   MyApplication_destroy stopped.1 w3 = (stopped.1, w3)).
Proof.
  cbv zeta. unfold MyApplication_init, MyApplication_destroy.
  destruct (w_readyState w) eqn:Hrs.
  - rewrite autoInitIFrameResizing_browser_loading by done.
    cbn [fst snd resizeCleanup call_cleanup].
    set (rl := {| rl_options := MyApplication_options;
                  rl_cell := length (w_cells w) |}).
    set (w1 := addEventListener_DOMContentLoaded rl _).
    assert (Hcell : w_cells w1 !! length (w_cells w) = Some NoOp).
    { subst w1. cbn. by rewrite list_lookup_middle. }
    rewrite Hcell. cbn [default call_init_cleanup].
    split_and!; try done. intros _. split_and!; try done.
    destruct (fire_DOMContentLoaded_last w1 rl) as (_ & _ & o' & _ & Ho');
      [done| |by eapply lookup_lt_Some|].
    { subst w1. cbn. by rewrite removelast_last. }
    by exists o'.
  - unfold autoInitIFrameResizing_browser. rewrite Hrs.
    destruct (initIFrameResizing_browser_spec MyApplication_options w)
      as (Hc & Ho & _).
    destruct (initIFrameResizing_browser MyApplication_options w) as [f w1].
    cbn in Hc, Ho |- *. subst f. cbn.
    split_and!; try done. intros _. split.
    + rewrite Ho. by apply list_lookup_middle.
    + unfold detached. cbn. rewrite list_lookup_alter_eq, Ho.
      rewrite list_lookup_middle by done. by eexists.
  - unfold autoInitIFrameResizing_browser. rewrite Hrs.
    destruct (initIFrameResizing_browser_spec MyApplication_options w)
      as (Hc & Ho & _).
    destruct (initIFrameResizing_browser MyApplication_options w) as [f w1].
    cbn in Hc, Ho |- *. subst f. cbn.
    split_and!; try done. intros _. split.
    + rewrite Ho. by apply list_lookup_middle.
    + unfold detached. cbn. rewrite list_lookup_alter_eq, Ho.
      rewrite list_lookup_middle by done. by eexists.
Qed.

(** ** The stand-in for [crypto.randomUUID] *)

Lemma toString_16_digit v :
  v < 16 →
  ∃ a, toString_16 v = String a EmptyString ∧ is_hex_digit a = true ∧
       (8 ≤ v → v < 12 → is_variant_digit a = true).
Proof.
  intros Hv.
  assert (Hcases : v = 0 ∨ v = 1 ∨ v = 2 ∨ v = 3 ∨ v = 4 ∨ v = 5 ∨ v = 6
                   ∨ v = 7 ∨ v = 8 ∨ v = 9 ∨ v = 10 ∨ v = 11 ∨ v = 12
                   ∨ v = 13 ∨ v = 14 ∨ v = 15) by lia.
  repeat destruct Hcases as [->|Hcases]; try subst v;
    (eexists; split_and!; [reflexivity|reflexivity|]);
    intros; first [reflexivity|lia].
Qed.

Lemma variant_bits r : r < 16 → 8 ≤ N.lor (N.land r 3) 8 < 12.
Proof.
  intros Hr.
  assert (Hcases : r = 0 ∨ r = 1 ∨ r = 2 ∨ r = 3 ∨ r = 4 ∨ r = 5 ∨ r = 6
                   ∨ r = 7 ∨ r = 8 ∨ r = 9 ∨ r = 10 ∨ r = 11 ∨ r = 12
                   ∨ r = 13 ∨ r = 14 ∨ r = 15) by lia.
  repeat destruct Hcases as [->|Hcases]; try subst r;
    (split; [by vm_compute|by vm_compute]).
Qed.

Lemma replace_xy_spec random16 template n :
  (∀ k, random16 k < 16) →
  matches_template template (replace_xy random16 template n).1 = true ∧
  (replace_xy random16 template n).2 = (n + count_xy template)%nat.
Proof.
  intros Hdraw. revert n.
  induction template as [|c rest IH]; intros n; [by cbn; rewrite Nat.add_0_r|].
  cbn [replace_xy count_xy].
  destruct (Ascii.eqb c "x"%char) eqn:Hx; cbn [orb].
  - destruct (IH (S n)) as [Hm Hn].
    destruct (replace_xy random16 rest (S n)) as [s n']. cbn [fst snd] in *.
    unfold replacement. rewrite Hx. cbv zeta.
    destruct (toString_16_digit (random16 n) (Hdraw n)) as (a & -> & Ha & _).
    change (String.append (String a EmptyString) s) with (String a s).
    cbn [matches_template]. rewrite Hx, Ha, Hm. split; [done|lia].
  - destruct (Ascii.eqb c "y"%char) eqn:Hy.
    + destruct (IH (S n)) as [Hm Hn].
      destruct (replace_xy random16 rest (S n)) as [s n']. cbn [fst snd] in *.
      unfold replacement. rewrite Hx. cbv zeta.
      destruct (variant_bits (random16 n) (Hdraw n)) as [Hlo Hhi].
      destruct (toString_16_digit (N.lor (N.land (random16 n) 3) 8))
        as (a & -> & _ & Ha); [lia|].
      change (String.append (String a EmptyString) s) with (String a s).
      cbn [matches_template]. rewrite Hx, Hy, Ha, Hm by done.
      split; [done|lia].
    + destruct (IH n) as [Hm Hn].
      destruct (replace_xy random16 rest n) as [s n']. cbn [fst snd] in *.
      cbn [matches_template fst snd].
      rewrite Hx, Hy, Hm, Ascii.eqb_refl. split; [done|lia].
Qed.

Lemma matches_template_length template s :
  matches_template template s = true → String.length s = String.length template.
Proof.
  revert s. induction template as [|t template IH]; intros [|a s]; cbn;
    try done.
  intros [_ Hs]%andb_true_iff. f_equal. by apply IH.
Qed.

(** X16.  The stand-in for [crypto.randomUUID] of the test setup makes
    the text of a version 4 identifier whenever every draw
    [(Math.random() * 16) | 0] is below 16: 36 characters, hyphens after
    the 8th, 13th, 18th and 23rd, the digit [4] at the head of the third
    group, one of [8], [9], [a], [b] at the head of the fourth, and
    lower case hexadecimal digits elsewhere.  One call makes 31
    draws. *)
Theorem mock_randomUUID_is_version_4 random16 n :
  (∀ k, random16 k < 16) →
  let r := randomUUID random16 n in
  matches_template "xxxxxxxx-xxxx-4xxx-yxxx-xxxxxxxxxxxx" r.1 = true ∧
  String.length r.1 = 36%nat ∧
  r.2 = (n + 31)%nat.
Proof.
  intros Hdraw r.
  destruct (replace_xy_spec random16 "xxxxxxxx-xxxx-4xxx-yxxx-xxxxxxxxxxxx"
              n Hdraw) as [Hm Hn].
  fold (randomUUID random16 n) in Hm, Hn. fold r in Hm, Hn.
  split_and!; [done| |done].
  by rewrite (matches_template_length _ _ Hm).
Qed.

(** * The model on the sample page *)

Example sample_world_posts :
  w_trace sample_world
  = [PostMessage (sample_command 0 120.5) "*";
     PostMessage (sample_command 1 300) "*"].
Proof. vm_compute. reflexivity. Qed.

Example sample_ack_settles_one :
  let w := dispatch_message (sample_ack "1") sample_world in
  p_state <$> w_promises w = [Pending; Fulfilled] ∧
  l_dispatch <$> w_listeners w = [0%nat] ∧
  t_due <$> w_timers w = [20000].
Proof. vm_compute. done. Qed.

Example sample_null_message_is_reported :
  let w := dispatch_message VNull sample_world in
  p_state <$> w_promises w = [Pending; Pending] ∧
  skipn 2 (w_trace w) = [UncaughtError; UncaughtError].
Proof. vm_compute. done. Qed.

Example sample_timeouts :
  let w := run sample_uuid [Advance 15000; Message (sample_ack "0"); Advance 5000]
             sample_world in
  p_state <$> w_promises w
  = [Rejected timeout_error; Rejected timeout_error] ∧
  w_listeners w = [] ∧ w_timers w = [] ∧
  skipn 2 (w_trace w)
  = [ConsoleWarn "Timeout exceeded for command resize";
     Invoke (sample_hook "onError") timeout_error;
     Invoke (sample_hook "captureError") timeout_error;
     ConsoleWarn "Timeout exceeded for command resize";
     Invoke (sample_hook "onError") timeout_error;
     Invoke (sample_hook "captureError") timeout_error].
Proof. vm_compute. done. Qed.

(** A hook that throws ends the handler: [captureError] is not called and
    the rejection of the promise [.catch] returned goes unhandled. *)
Example throwing_onError_ends_the_handler :
  let thrower := {| hook_label := "onError"; hook_run := λ _, Throw |} in
  let options := {| onError := Some thrower;
                    captureError := Some (sample_hook "captureError") |} in
  w_trace (run_job (CatchJob options timeout_error)
             (initial_world Complete None))
  = [ConsoleWarn "Timeout exceeded for command resize";
     Invoke thrower timeout_error; UnhandledRejection].
Proof. reflexivity. Qed.

(** * The theorems at the sample page *)

Lemma listener_resolves_exactly_its_response_at_sample :
  in_flight sample_world (sample_listener 0 120.5) 20000 ∧
  (promise_state (dispatch_message (sample_ack "0") sample_world)
     (l_dispatch (sample_listener 0 120.5))
   = Some Fulfilled
   ↔ acknowledges (l_command (sample_listener 0 120.5)) (sample_ack "0")).
Proof.
  assert (Hfl : in_flight sample_world (sample_listener 0 120.5) 20000).
  { split; vm_compute; repeat constructor. }
  split; [exact Hfl|].
  exact (proj1 (proj2 (proj2
           (listener_resolves_exactly_its_response sample_uuid pretty_nat_inj
              Complete (Some 1%nat) sample_events (sample_listener 0 120.5)
              20000 (sample_ack "0") Hfl)))).
Defined.

Lemma sendResizeCommand_posts_resize_command_at_sample :
  w_trace (sendResizeCommand sample_uuid 0.5 sample_world).2
  = w_trace sample_world ++ [PostMessage (sample_command 2 0.5) "*"].
Proof.
  apply (sendResizeCommand_posts_resize_command sample_uuid pretty_nat_inj
           0.5 sample_world).
Defined.

Lemma dispatch_times_out_after_20000_at_sample :
  answered_within (sample_command 2 0.5) 20000
    [Message (sample_ack "1"); Advance 20000] = false ∧
  promise_state
    (run sample_uuid [Message (sample_ack "1"); Advance 20000]
       (dispatched sample_uuid 0.5 (Some sample_options) sample_world)) 2
  = Some (Rejected timeout_error).
Proof.
  assert (Hno : answered_within (sample_command 2 0.5) 20000
                  [Message (sample_ack "1"); Advance 20000] = false)
    by reflexivity.
  split; [exact Hno|].
  apply (dispatch_times_out_after_20000 sample_uuid pretty_nat_inj
           Complete (Some 1%nat) sample_events 0.5 (Some sample_options)
           [Message (sample_ack "1"); Advance 20000] Hno).
  vm_compute. discriminate.
Defined.

Lemma exactly_one_outcome_at_sample :
  promise_state
    (run sample_uuid [Message (sample_ack "2"); Advance 1000]
       (run sample_uuid [Advance 20000; Message (sample_ack "2")]
          (dispatched sample_uuid 0.5 (Some sample_options) sample_world))) 2
  = Some (Rejected timeout_error).
Proof.
  destruct (exactly_one_outcome sample_uuid pretty_nat_inj
              Complete (Some 1%nat) sample_events 0.5 (Some sample_options)
              [Advance 20000; Message (sample_ack "2")])
    as ((Hrej & _ & _) & _ & Hstable).
  rewrite Hstable; [exact Hrej|]. vm_compute. discriminate.
Defined.

Lemma failure_is_logged_then_hooks_at_sample :
  hook_returns (onError sample_options) timeout_error ∧
  w_trace (run_job (CatchJob sample_options timeout_error) sample_world)
  = w_trace sample_world ++
    [ConsoleWarn "Timeout exceeded for command resize";
     Invoke (sample_hook "onError") timeout_error;
     Invoke (sample_hook "captureError") timeout_error].
Proof.
  assert (Hret : hook_returns (onError sample_options) timeout_error)
    by reflexivity.
  split; [exact Hret|].
  destruct (failure_is_logged_then_hooks sample_uuid sample_options
              timeout_error sample_world Hret) as ((tail & Htrace & ->) & _).
  rewrite Htrace. reflexivity.
Defined.

Lemma every_post_is_a_resize_command_at_sample :
  length (posted (w_trace sample_world)) = length (w_promises sample_world) ∧
  w_uuids sample_world = length (posted (w_trace sample_world)).
Proof.
  pose proof (every_post_is_a_resize_command sample_uuid pretty_nat_inj
                Complete (Some 1%nat) sample_events) as (H1 & H2 & _).
  exact (conj H1 H2).
Defined.

Lemma timeout_reported_once_per_rejected_dispatch_at_sample :
  count is_timeout_warning
    (w_trace (run sample_uuid (sample_events ++ [Advance 20000])
                (initial_world Complete (Some 1%nat))))
  = count is_rejected
      (w_promises (run sample_uuid (sample_events ++ [Advance 20000])
                     (initial_world Complete (Some 1%nat)))).
Proof.
  exact (proj1 (timeout_reported_once_per_rejected_dispatch sample_uuid
                  pretty_nat_inj Complete (Some 1%nat)
                  (sample_events ++ [Advance 20000]))).
Defined.

Lemma pending_dispatches_listeners_timers_at_sample :
  length (w_listeners sample_world) = length (w_timers sample_world).
Proof.
  exact (proj1 (proj2 (proj2 (proj2 (proj2
           (pending_dispatches_listeners_timers sample_uuid pretty_nat_inj
              Complete (Some 1%nat) sample_events)))))).
Defined.

Lemma unrelated_message_changes_nothing_at_sample :
  step sample_uuid sample_world (Message VNull)
  = set_trace
      (w_trace sample_world
       ++ replicate (length (w_listeners sample_world)) UncaughtError)
      sample_world.
Proof.
  exact (proj2 (proj2 (unrelated_message_changes_nothing sample_uuid
                         pretty_nat_inj Complete (Some 1%nat) sample_events
                         VNull)) eq_refl).
Defined.

Lemma acknowledgment_retires_one_dispatch_at_sample :
  sample_listener 0 120.5 ∈ w_listeners sample_world ∧
  is_response (l_command (sample_listener 0 120.5)) (sample_ack "0") = true ∧
  w_trace (step sample_uuid sample_world (Message (sample_ack "0")))
  = w_trace sample_world.
Proof.
  assert (Hl : sample_listener 0 120.5 ∈ w_listeners sample_world)
    by (vm_compute; repeat constructor).
  assert (Hyes : is_response (l_command (sample_listener 0 120.5))
                   (sample_ack "0") = true) by reflexivity.
  split_and!; [exact Hl|exact Hyes|].
  destruct (acknowledgment_retires_one_dispatch sample_uuid pretty_nat_inj
              Complete (Some 1%nat) sample_events (sample_ack "0")
              (sample_listener 0 120.5) Hl Hyes) as (options & _ & ->).
  apply trace_of_retired.
Defined.

Lemma notifications_post_in_order_at_sample :
  attached 0 sample_options
    (run sample_uuid [CallInit sample_options]
       (initial_world Complete (Some 1%nat))) ∧
  posted
    (w_trace
       (run sample_uuid
          (Resize 0 <$> [[sample_entry 0]; [];
                         [sample_entry 0.5; sample_entry 7]])
          (run sample_uuid [CallInit sample_options]
             (initial_world Complete (Some 1%nat)))))
  = [(sample_command 0 0, "*"); (sample_command 1 0.5, "*")].
Proof.
  assert (Hatt : attached 0 sample_options
                   (run sample_uuid [CallInit sample_options]
                      (initial_world Complete (Some 1%nat)))).
  { eexists. split_and!; [reflexivity|reflexivity|discriminate]. }
  split; [exact Hatt|].
  pose proof (notifications_post_in_order sample_uuid 0 sample_options _
                [[sample_entry 0]; []; [sample_entry 0.5; sample_entry 7]]
                Hatt) as Hposts.
  cbv zeta in Hposts. destruct Hposts as (-> & _). reflexivity.
Defined.

Lemma example_parent_acknowledges_the_command_at_sample :
  w_trace (dispatched sample_uuid 0.5 None sample_world)
  = w_trace sample_world ++
    [PostMessage (l_command (new_listener sample_uuid 0.5 sample_world)) "*"].
Proof.
  exact (proj1 (example_parent_acknowledges_the_command sample_uuid
                  pretty_nat_inj (λ _, "0.5") (λ _, VUndefined)
                  (λ _, VUndefined) Complete (Some 1%nat) sample_events
                  0.5 None)).
Defined.

Lemma acknowledgments_commute_at_sample :
  run sample_uuid [Message (sample_ack "0"); Message (sample_ack "1")]
    sample_world
  = run sample_uuid [Message (sample_ack "1"); Message (sample_ack "0")]
      sample_world.
Proof.
  apply (acknowledgments_commute sample_uuid pretty_nat_inj Complete
           (Some 1%nat) sample_events (sample_listener 0 120.5)
           (sample_listener 1 300) (sample_ack "0") (sample_ack "1")).
  - vm_compute. repeat constructor.
  - vm_compute. repeat constructor.
  - intros Heq. apply (f_equal l_dispatch) in Heq. discriminate Heq.
  - reflexivity.
  - reflexivity.
Defined.

Lemma observer_stays_attached_until_its_cleanup_at_sample :
  attached 0 sample_options sample_world ∧
  attached 0 sample_options (step sample_uuid sample_world (Message VNull)).
Proof.
  assert (Hatt : attached 0 sample_options sample_world).
  { eexists. split_and!; [reflexivity|reflexivity|discriminate]. }
  split; [exact Hatt|].
  exact (observer_stays_attached_until_its_cleanup sample_uuid 0
           sample_options sample_world (Message VNull) Hatt).
Defined.

Lemma deferred_initializations_all_happen_at_sample :
  w_observers
    (step sample_uuid
       (run sample_uuid
          (CallAutoInit <$> [sample_options;
                             {| onError := None; captureError := None |}])
          (initial_world Loading (Some 1%nat)))
       DOMContentLoaded)
  = w_observers (initial_world Loading (Some 1%nat)) ++
    ((λ options, {| o_options := options;
                    o_targets := body_targets
                                   (initial_world Loading (Some 1%nat)) |})
       <$> [sample_options; {| onError := None; captureError := None |}]).
Proof.
  exact (proj1 (proj2 (deferred_initializations_all_happen sample_uuid
                         [sample_options;
                          {| onError := None; captureError := None |}]
                         (initial_world Loading (Some 1%nat))
                         eq_refl eq_refl))).
Defined.

Lemma exchange_with_the_example_page_at_sample :
  fold_left
    (notify_and_answer sample_uuid
       (parent_listener (λ _, "7") (λ _, VUndefined) (λ _, VUndefined)
          false) 0)
    [[sample_entry 7]; []] sample_world
  = run sample_uuid (Resize 0 <$> [[sample_entry 7]; []]) sample_world.
Proof.
  exact (proj1 (proj2 (exchange_with_the_example_page sample_uuid
                         pretty_nat_inj (λ _, "7") (λ _, VUndefined)
                         (λ _, VUndefined) false Complete (Some 1%nat)
                         sample_events 0 [[sample_entry 7]; []]))).
Defined.

Lemma mock_randomUUID_is_version_4_at_sample :
  matches_template "xxxxxxxx-xxxx-4xxx-yxxx-xxxxxxxxxxxx"
    (randomUUID (λ k, if Nat.even k then 7 else 12) 0).1 = true ∧
  String.length (randomUUID (λ k, if Nat.even k then 7 else 12) 0).1
  = 36%nat ∧
  (randomUUID (λ k, if Nat.even k then 7 else 12) 0).2 = 31%nat.
Proof.
  apply (mock_randomUUID_is_version_4
           (λ k, if Nat.even k then 7 else 12) 0).
  intros k. by destruct (Nat.even k).
Defined.

Lemma throwing_onError_skips_captureError_at_sample :
  promise_state
    (fire_timer
       (run sample_uuid
          [CallInit
             {| onError := Some {| hook_label := "onError";
                                   hook_run := λ _, Throw |};
                captureError := Some (sample_hook "captureError") |};
           Resize 0 [sample_entry 7]]
          (initial_world Complete (Some 1%nat)))
       {| t_handle := 0; t_due := 20000; t_dispatch := 0 |})
    0
  = Some (Rejected timeout_error).
Proof.
  assert (Ht : {| t_handle := 0; t_due := 20000; t_dispatch := 0 |}
               ∈ w_timers
                   (run sample_uuid
                      [CallInit
                         {| onError := Some {| hook_label := "onError";
                                               hook_run := λ _, Throw |};
                            captureError :=
                              Some (sample_hook "captureError") |};
                       Resize 0 [sample_entry 7]]
                      (initial_world Complete (Some 1%nat))))
    by (vm_compute; repeat constructor).
  exact (proj1 (proj2 (proj2
           (throwing_onError_skips_captureError sample_uuid pretty_nat_inj
              Complete (Some 1%nat)
              [CallInit
                 {| onError := Some {| hook_label := "onError";
                                       hook_run := λ _, Throw |};
                    captureError := Some (sample_hook "captureError") |};
               Resize 0 [sample_entry 7]]
              {| t_handle := 0; t_due := 20000; t_dispatch := 0 |}
              {| onError := Some {| hook_label := "onError";
                                    hook_run := λ _, Throw |};
                 captureError := Some (sample_hook "captureError") |}
              {| hook_label := "onError"; hook_run := λ _, Throw |}
              Ht eq_refl eq_refl eq_refl)))).
Defined.
